(** * The tabular-data-to-graph pipeline: column profiling, relationship
      detection, graph-model compilation, the offline preview and the job
      orchestrator.

    The development embeds the JavaScript of
    - [DataStructuringAgent]  (src/unnamed/part_008, from line 142),
    - [GraphModelingAgent]    (src/unnamed/part_009),
    - [DataLoaderAgent]       (src/unnamed/part_010),
    - [AgentOrchestrator]     (src/src/services/LLMService.js, from line 292),
    - [getFileType]           (src/unnamed/part_012, the server)
    as Rocq functions and proves the properties stated about them.  Numbers
    computed in floating point (ratios, percentages) are kept as exact
    rationals; text is modelled for code units below 128; time stamps and log
    lines of the orchestrator are left out. *)

From Stdlib Require Import List String Ascii Bool Arith ZArith QArith Lia.
From Stdlib Require Import Permutation DecimalString Btauto.
Import ListNotations.

Close Scope Q_scope.
Local Open Scope nat_scope.
Local Open Scope string_scope.
Local Open Scope list_scope.

Set Implicit Arguments.

(* ===================================================================== *)
(** * JavaScript values, strings, objects and [Set] *)
(* ===================================================================== *)

Module Js.

(** A scalar value of a record.  A number is kept as its canonical decimal
    rendering (what [String(n)] returns: ["0"], ["-12"], ["3.14"], ["1e-7"],
    ["Infinity"], ["NaN"]).  Two numbers are the same value for [Set]
    (SameValueZero) exactly when their renderings are equal: both zeros render
    as ["0"] and [NaN] is equal to itself.  Nothing modelled below looks at a
    number in another way than through its rendering and this equality. *)
Inductive value : Type :=
| Null
| Undefined
| Bool (b : bool)
| Num (lit : string)
| Str (s : string).

Definition value_eq_dec (x y : value) : {x = y} + {x <> y}.
Proof.
  decide equality; try apply string_dec; apply bool_dec.
Defined.

Definition value_eqb (x y : value) : bool :=
  if value_eq_dec x y then true else false.

(** [v !== null] *)
Definition notNull (v : value) : bool :=
  match v with Null => false | _ => true end.

(** [String(v)] *)
Definition ToString (v : value) : string :=
  match v with
  | Null => "null"
  | Undefined => "undefined"
  | Bool true => "true"
  | Bool false => "false"
  | Num lit => lit
  | Str s => s
  end.

(** ** Characters and strings (code units below 128) *)

Definition code (c : ascii) : nat := nat_of_ascii c.

Definition between (lo hi : nat) (c : ascii) : bool :=
  ((lo <=? code c) && (code c <=? hi))%nat.

Definition isDigit (c : ascii) : bool := between 48 57 c.
Definition isUpper (c : ascii) : bool := between 65 90 c.
Definition isLower (c : ascii) : bool := between 97 122 c.

(** The regular-expression class [\s] and the white space that [Number] and
    [parseFloat] strip: TAB, LF, VT, FF, CR and SPACE. *)
Definition isWhiteSpace (c : ascii) : bool :=
  between 9 13 c || (code c =? 32)%nat.

Definition lowerChar (c : ascii) : ascii :=
  if isUpper c then ascii_of_nat (code c + 32) else c.

Definition upperChar (c : ascii) : ascii :=
  if isLower c then ascii_of_nat (code c - 32) else c.

Fixpoint mapString (f : ascii -> ascii) (s : string) : string :=
  match s with
  | EmptyString => EmptyString
  | String c r => String (f c) (mapString f r)
  end.

Definition toLowerCase : string -> string := mapString lowerChar.
Definition toUpperCase : string -> string := mapString upperChar.

Fixpoint allChars (p : ascii -> bool) (s : string) : bool :=
  match s with
  | EmptyString => true
  | String c r => p c && allChars p r
  end.

Fixpoint filterChars (p : ascii -> bool) (s : string) : string :=
  match s with
  | EmptyString => EmptyString
  | String c r => if p c then String c (filterChars p r) else filterChars p r
  end.

(** [s.includes(sub)] *)
Fixpoint includes (s sub : string) : bool :=
  prefix sub s ||
  match s with
  | EmptyString => false
  | String _ r => includes r sub
  end.

(** [list.includes(s)] for a list of strings *)
Definition listIncludes (l : list string) (s : string) : bool :=
  existsb (String.eqb s) l.

(** Decimal rendering of a natural number, as a template literal prints an
    array index. *)
Definition natToString (n : nat) : string :=
  NilEmpty.string_of_uint (Nat.to_uint n).

(** ** Objects used as records *)

(** A record is an object with string keys, kept in insertion order. *)
Definition object : Type := list (string * value).

(** [Object.keys(o)] *)
Definition keys (o : object) : list string := map fst o.

(** [o[k]]: the value stored under the own key [k], [undefined] when the key
    is absent.  For an absent key that [Object.prototype] defines
    ([constructor], [toString], ...) the source reads the inherited member
    instead; the statements about reads of absent keys exclude these names
    ([inheritedNames] below). *)
Fixpoint get (o : object) (k : string) : value :=
  match o with
  | [] => Undefined
  | (k', v) :: rest => if String.eqb k' k then v else get rest k
  end.

(** ** [Set] *)

(** A [Set] is the list of its members in insertion order. *)
Definition set : Type := list value.

(** [s.has(v)] *)
Definition has (s : set) (v : value) : bool := existsb (value_eqb v) s.

(** [s.add(v)] *)
Definition add (s : set) (v : value) : set :=
  if has s v then s else s ++ [v].

(** [new Set(values)] *)
Definition newSet (values : list value) : set := fold_left add values [].

(** [s.size] *)
Definition size (s : set) : nat := List.length s.

(** ** Exceptions *)

(** What a call that may [throw] produces: its value, or the [message] of the
    [Error] thrown. *)
Inductive result (A : Type) : Type :=
| Ok (a : A)
| Throw (message : string).

Arguments Ok {A} a.
Arguments Throw {A} message.

End Js.

Import Js.

(* ===================================================================== *)
(** * The data-structuring stage (class [DataStructuringAgent]) *)
(* ===================================================================== *)

Module DataStructuring.

(** A dataset: the records in file order. *)
Definition dataset : Type := list object.

(** The [type] field of a relationship. *)
Inductive RelationshipKind : Type :=
| foreign_key
| hierarchical
| temporal
| semantic.

Definition RelationshipKind_eqb (a b : RelationshipKind) : bool :=
  match a, b with
  | foreign_key, foreign_key | hierarchical, hierarchical
  | temporal, temporal | semantic, semantic => true
  | _, _ => false
  end.

(** The object [analyzeColumnRelationship] returns.  [confidence] is the
    quotient of two set sizes; it is kept as the exact rational, of which the
    source's double is the correctly rounded value. *)
Record Relationship : Type := mkRelationship {
  rel_type : RelationshipKind;
  rel_source : string;
  rel_target : string;
  rel_confidence : Q;
  rel_description : string
}.

(** ** [analyzeColumnRelationship] and [detectRelationships] *)

(** [data.map(row => row[col]).filter(v => v !== null)] *)
Definition columnValues (data : dataset) (col : string) : list value :=
  filter notNull (map (fun row => get row col) data).

(** [intersection.size / Math.min(set1.size, set2.size)] *)
Definition overlapRatio (inter size1 size2 : nat) : Q :=
  (inject_Z (Z.of_nat inter) / inject_Z (Z.of_nat (Nat.min size1 size2)))%Q.

(** [overlap > 0.5].  Both sizes are far below 2^53, so the rounded quotient
    exceeds the double 0.5 exactly when the rational exceeds one half. *)
Definition exceedsHalf (overlap : Q) : bool :=
  negb (Qle_bool overlap (1 # 2)).

Definition analyzeColumnRelationship (data : dataset) (col1 col2 : string)
  : option Relationship :=
  let values1 := columnValues data col1 in
  let values2 := columnValues data col2 in
  let set1 := newSet values1 in
  let set2 := newSet values2 in
  let intersection := newSet (filter (has set2) set1) in
  if (0 <? size intersection)%nat then
    let overlap := overlapRatio (size intersection) (size set1) (size set2) in
    if exceedsHalf overlap then
      Some {| rel_type := foreign_key;
              rel_source := col1;
              rel_target := col2;
              rel_confidence := overlap;
              rel_description :=
                ("Potential foreign key relationship between " ++ col1
                   ++ " and " ++ col2)%string |}
    else None
  else None.

(** The inner loop of [detectRelationships]: [col1 = columns[i]] against every
    [columns[j]] with [j > i], pushing the relationships that are not [null]. *)
Fixpoint relateWithLater (data : dataset) (col1 : string) (later : list string)
  : list Relationship :=
  match later with
  | [] => []
  | col2 :: rest =>
      match analyzeColumnRelationship data col1 col2 with
      | Some relationship => relationship :: relateWithLater data col1 rest
      | None => relateWithLater data col1 rest
      end
  end.

(** [detectRelationships(data, analysis)], with [columns = analysis.columns]. *)
Fixpoint detectRelationships (data : dataset) (columns : list string)
  : list Relationship :=
  match columns with
  | [] => []
  | col1 :: later =>
      relateWithLater data col1 later ++ detectRelationships data later
  end.

(** The candidates of a result that join the unordered pair [{c1, c2}]. *)
Definition joins (c1 c2 : string) (r : Relationship) : bool :=
  (String.eqb (rel_source r) c1 && String.eqb (rel_target r) c2)
  || (String.eqb (rel_source r) c2 && String.eqb (rel_target r) c1).

Definition candidatesFor (c1 c2 : string) (rels : list Relationship)
  : list Relationship :=
  filter (fun r => RelationshipKind_eqb (rel_type r) foreign_key && joins c1 c2 r)
         rels.

(** [S] lists, without repetition, the entries [row[col]] that pass the
    source's filter [v !== null].  A record without the column reads as
    [undefined], which passes. *)
Definition entrySetOf (data : dataset) (col : string) (S : list value) : Prop :=
  NoDup S /\
  forall v, In v S <-> v <> Null /\ exists row, In row data /\ get row col = v.

(** [S] is the set of non-null values of column [col] over [data], as the
    specification has it: a record has a value for the column when it has the
    key and the key holds neither [null] nor [undefined] (a missing key is
    treated as null). *)
Definition valueSetOf (data : dataset) (col : string) (S : list value) : Prop :=
  NoDup S /\
  forall v, In v S <->
            v <> Null /\ v <> Undefined
            /\ exists row, In row data /\ get row col = v.

(** [I] is the intersection of the sets [S1] and [S2]. *)
Definition intersectionOf (S1 S2 I : list value) : Prop :=
  NoDup I /\ forall v, In v I <-> In v S1 /\ In v S2.

(** What [analyzeColumnRelationship] answers, from the sizes of the sets. *)
Definition candidateOf (col1 col2 : string) (ratio : Q) : option Relationship :=
  if exceedsHalf ratio then
    Some {| rel_type := foreign_key;
            rel_source := col1;
            rel_target := col2;
            rel_confidence := ratio;
            rel_description :=
              ("Potential foreign key relationship between " ++ col1
                 ++ " and " ++ col2)%string |}
  else None.

(** The list a loop turn pushes: the relationship, or nothing for [null]. *)
Definition pushed (r : option Relationship) : list Relationship :=
  match r with
  | Some relationship => [relationship]
  | None => []
  end.

(** ** The predicates of [detectDataType] *)

Inductive DataType : Type :=
| TString | TNumber | TBoolean | TDate | TEmail | TUrl | TPhone | TId
| TUnknown.

(** [['true','false','1','0','yes','no'].includes(String(val).toLowerCase())] *)
Definition booleanTokens : list string :=
  ["true"; "false"; "1"; "0"; "yes"; "no"].

Definition isBooleanToken (val : value) : bool :=
  listIncludes booleanTokens (toLowerCase (ToString val)).

(** *** Which strings [Number] and [parseFloat] read as a number *)

Definition isEmpty (s : string) : bool :=
  match s with EmptyString => true | _ => false end.

Fixpoint trimStart (s : string) : string :=
  match s with
  | EmptyString => EmptyString
  | String c r => if isWhiteSpace c then trimStart r else s
  end.

Fixpoint trimEnd (s : string) : string :=
  match s with
  | EmptyString => EmptyString
  | String c r =>
      let r' := trimEnd r in
      if isWhiteSpace c && isEmpty r' then EmptyString else String c r'
  end.

Definition trim (s : string) : string := trimEnd (trimStart s).

Definition isSign (c : ascii) : bool :=
  Ascii.eqb c "+" || Ascii.eqb c "-".

Definition stripSign (s : string) : string :=
  match s with
  | String c r => if isSign c then r else s
  | EmptyString => EmptyString
  end.

Definition startsWithDigit (s : string) : bool :=
  match s with String c _ => isDigit c | EmptyString => false end.

Fixpoint skipDigits (s : string) : string :=
  match s with
  | EmptyString => EmptyString
  | String c r => if isDigit c then skipDigits r else s
  end.

(** What follows a leading ["."], if the text starts with one. *)
Definition afterDot (s : string) : option string :=
  match s with
  | String c r => if Ascii.eqb c "." then Some r else None
  | EmptyString => None
  end.

(** Nothing, or an [ExponentPart] up to the end: [[eE][+-]?[0-9]+]. *)
Definition isExponentOrEnd (s : string) : bool :=
  match s with
  | EmptyString => true
  | String c r =>
      (Ascii.eqb c "e" || Ascii.eqb c "E")
      && startsWithDigit (stripSign r)
      && isEmpty (skipDigits (stripSign r))
  end.

(** [StrUnsignedDecimalLiteral]: [Infinity], [d+.d*(e..)?], [.d+(e..)?] or
    [d+(e..)?]. *)
Definition isUnsignedDecimal (s : string) : bool :=
  match afterDot (skipDigits s) with
  | Some r =>
      (startsWithDigit s || startsWithDigit r)
      && isExponentOrEnd (skipDigits r)
  | None => startsWithDigit s && isExponentOrEnd (skipDigits s)
  end.

Definition isStrDecimalLiteral (s : string) : bool :=
  let u := stripSign s in
  String.eqb u "Infinity" || isUnsignedDecimal u.

Definition isHexDigit (c : ascii) : bool :=
  isDigit c || between 65 70 c || between 97 102 c.

(** [0x..], [0o..] and [0b..] integers (no sign). *)
Definition isNonDecimalInteger (s : string) : bool :=
  match s with
  | String "0" (String x r) =>
      negb (isEmpty r)
      && (((Ascii.eqb x "x" || Ascii.eqb x "X") && allChars isHexDigit r)
          || ((Ascii.eqb x "o" || Ascii.eqb x "O") && allChars (between 48 55) r)
          || ((Ascii.eqb x "b" || Ascii.eqb x "B") && allChars (between 48 49) r))
  | _ => false
  end.

(** [isNaN(Number(val))].  A string is a number when, white space trimmed, it
    is empty, a decimal literal or a non-decimal integer. *)
Definition NumberIsNaN (val : value) : bool :=
  match val with
  | Null => false
  | Undefined => true
  | Bool _ => false
  | Num lit => String.eqb lit "NaN"
  | Str s =>
      let t := trim s in
      negb (isEmpty t || isStrDecimalLiteral t || isNonDecimalInteger t)
  end.

(** The shortest decimal literals: a digit, or a ["."] and a digit. *)
Definition startsDecimal (s : string) : bool :=
  startsWithDigit s
  || match afterDot s with
     | Some r => startsWithDigit r
     | None => false
     end.

(** [isNaN(parseFloat(val))]: [parseFloat] reads the longest prefix of
    [String(val)], leading white space skipped, that is a decimal literal, and
    answers [NaN] when there is none. *)
Definition parseFloatIsNaN (val : value) : bool :=
  let u := stripSign (trimStart (ToString val)) in
  negb (prefix "Infinity" u || startsDecimal u).

(** [!isNaN(Number(val)) && !isNaN(parseFloat(val))] *)
Definition isNumeric (val : value) : bool :=
  negb (NumberIsNaN val) && negb (parseFloatIsNaN val).

(** *** The regular expressions *)

(** The class [[^\s@]]. *)
Definition emailChar (c : ascii) : bool :=
  negb (isWhiteSpace c) && negb (Ascii.eqb c "@").

(** The text before and after the first ["@"]. *)
Fixpoint splitAtSign (s : string) : option (string * string) :=
  match s with
  | EmptyString => None
  | String c r =>
      if Ascii.eqb c "@" then Some (EmptyString, r)
      else match splitAtSign r with
           | Some (a, b) => Some (String c a, b)
           | None => None
           end
  end.

(** A ["."] that is not the last character. *)
Fixpoint hasDotBeforeEnd (s : string) : bool :=
  match s with
  | EmptyString => false
  | String c r => (Ascii.eqb c "." && negb (isEmpty r)) || hasDotBeforeEnd r
  end.

(** [/^[^\s@]+@[^\s@]+\.[^\s@]+$/.test(String(value))]: one ["@"], no white
    space, a non-empty local part, and after the ["@"] a ["."] with a
    character on each side. *)
Definition isValidEmail (val : value) : bool :=
  match splitAtSign (ToString val) with
  | Some (local, domain) =>
      negb (isEmpty local)
      && allChars emailChar local
      && allChars emailChar domain
      && match domain with
         | String _ r => hasDotBeforeEnd r
         | EmptyString => false
         end
  | None => false
  end.

(** The texts the expression [^[^\s@]+@[^\s@]+\.[^\s@]+$] describes: three
    non-empty runs of characters that are neither white space nor ["@"], the
    first two joined by ["@"] and the last two by ["."]. *)
Definition matchesEmailPattern (s : string) : Prop :=
  exists a b c : string,
    s = (a ++ "@" ++ b ++ "." ++ c)%string
    /\ a <> EmptyString /\ b <> EmptyString /\ c <> EmptyString
    /\ allChars emailChar a = true
    /\ allChars emailChar b = true
    /\ allChars emailChar c = true.

(** The class [[\s\-\(\)]] that [isValidPhone] removes. *)
Definition phoneNoise (c : ascii) : bool :=
  isWhiteSpace c || Ascii.eqb c "-" || Ascii.eqb c "(" || Ascii.eqb c ")".

(** [/^[\+]?[1-9][\d]{0,15}$/.test(String(value).replace(/[\s\-\(\)]/g, ''))] *)
Definition isValidPhone (val : value) : bool :=
  let t := filterChars (fun c => negb (phoneNoise c)) (ToString val) in
  let u := match t with String "+" r => r | _ => t end in
  match u with
  | String c r =>
      between 49 57 c && allChars isDigit r && (String.length r <=? 15)%nat
  | EmptyString => false
  end.

(** The class [[A-Za-z0-9\-_]]. *)
Definition idChar (c : ascii) : bool :=
  isUpper c || isLower c || isDigit c || Ascii.eqb c "-" || Ascii.eqb c "_".

(** [/^[A-Za-z0-9\-_]+$/.test(str) && str.length > 3] *)
Definition looksLikeID (val : value) : bool :=
  let str := ToString val in
  (negb (isEmpty str) && allChars idChar str) && (3 <? String.length str)%nat.

(** A finite float: a number whose rendering is a decimal literal (every
    number but [NaN] and the infinities), or text that is a decimal literal,
    white space around it allowed.  (A literal too large for a double is
    accepted here as well: the test is on the text.) *)
Definition isFiniteFloat (val : value) : bool :=
  match val with
  | Num lit => isUnsignedDecimal (stripSign lit)
  | Str s => isUnsignedDecimal (stripSign (trim s))
  | _ => false
  end.

(** ** Column profiles *)

(** The tags [detectPatterns] pushes. *)
Inductive Pattern : Type :=
| identifier | name_tag | email_tag | phone_tag | temporal_tag | address_tag
| url_tag | integer_tag | decimal_tag | positive_tag | fixed_length.

Definition Pattern_eqb (a b : Pattern) : bool :=
  match a, b with
  | identifier, identifier | name_tag, name_tag | email_tag, email_tag
  | phone_tag, phone_tag | temporal_tag, temporal_tag
  | address_tag, address_tag | url_tag, url_tag | integer_tag, integer_tag
  | decimal_tag, decimal_tag | positive_tag, positive_tag
  | fixed_length, fixed_length => true
  | _, _ => false
  end.

(** The object [calculateStatistics] returns: [{}], the five aggregates of a
    [number] column (floating-point results, kept as the numbers they are
    computed from), or the three lengths of a [string] column. *)
Inductive Statistics : Type :=
| NoStatistics
| NumberStatistics (nums : list value)
| StringStatistics (minLength maxLength : nat) (avgLength : Q).

(** An entry of [potentialRelationships]: it has a type, a confidence and a
    description, and names no source or target column. *)
Record PotentialRelationship : Type := mkPotential {
  pot_type : RelationshipKind;
  pot_confidence : Q;
  pot_description : string
}.

(** [(nullCount / values.length) * 100]: [NaN] when [values] is empty. *)
Inductive Percentage : Type :=
| PercentNaN
| Percent (q : Q).

Record ColumnProfile : Type := mkColumnProfile {
  col_name : string;
  col_dataType : DataType;
  col_patterns : list Pattern;
  col_statistics : Statistics;
  col_potentialRelationships : list PotentialRelationship;
  col_nullCount : nat;
  col_nullPercentage : Percentage;
  col_uniqueValues : nat;
  col_sampleValues : list value
}.

(** [val !== null && val !== undefined] *)
Definition isPresent (val : value) : bool :=
  match val with Null | Undefined => false | _ => true end.

(** [val !== null && val !== undefined && val !== ''] *)
Definition isNonNull (val : value) : bool :=
  match val with
  | Null | Undefined | Str EmptyString => false
  | _ => true
  end.

Definition percentage (count total : nat) : Percentage :=
  match total with
  | O => PercentNaN
  | _ => Percent (inject_Z (Z.of_nat count) / inject_Z (Z.of_nat total) * 100)%Q
  end.

Definition minimum (l : list nat) : nat := fold_right Nat.min (hd 0%nat l) l.
Definition maximum (l : list nat) : nat := fold_right Nat.max 0%nat l.
Definition total (l : list nat) : nat := fold_right Nat.add 0%nat l.

(** [calculateStatistics(values, dataType)] *)
Definition calculateStatistics (values : list value) (dataType : DataType)
  : Statistics :=
  match dataType with
  | TNumber => NumberStatistics values
  | TString =>
      let lengths := map (fun v => String.length (ToString v)) values in
      StringStatistics (minimum lengths) (maximum lengths)
        (inject_Z (Z.of_nat (total lengths))
           / inject_Z (Z.of_nat (List.length lengths)))%Q
  | _ => NoStatistics
  end.

(** [detectPotentialRelationships(columnName, values, dataType)] *)
Definition detectPotentialRelationships (columnName : string)
  (values : list value) (dataType : DataType) : list PotentialRelationship :=
  let lower := toLowerCase columnName in
  (if includes lower "id"
      && match dataType with TString => true | _ => false end
   then [mkPotential foreign_key (8 # 10) "Potential foreign key reference"]
   else [])
  ++ (if includes lower "parent" || includes lower "child"
      then [mkPotential hierarchical (9 # 10) "Parent-child relationship"]
      else [])
  ++ (if match dataType with TDate => true | _ => false end
         || includes lower "date"
      then [mkPotential temporal (7 # 10) "Temporal relationship"]
      else []).

Section Profiler.

(** What the installed libraries decide: [moment(value).isValid()] (strict
    ISO 8601 or the lenient parse) for [isValidDate], and whether
    [new URL(text)] parses for [isValidURL]. *)
Variable isValidDate : value -> bool.
Variable urlParses : string -> bool.

(** The two numeric tests of [detectPatterns], on [values.map(Number)]:
    [nums.every(n => Number.isInteger(n))] and [nums.every(n => n >= 0)]. *)
Variable allIntegers : list value -> bool.
Variable allNonNegative : list value -> bool.

Definition isValidURL (val : value) : bool := urlParses (ToString val).

(** [detectDataType(values)] *)
Definition detectDataType (values : list value) : DataType :=
  match values with
  | [] => TUnknown
  | _ =>
      let sample := firstn 10 values in
      if forallb isBooleanToken sample then TBoolean
      else if forallb isNumeric sample then TNumber
      else if forallb isValidDate sample then TDate
      else if forallb isValidEmail sample then TEmail
      else if forallb isValidURL sample then TUrl
      else if forallb isValidPhone sample then TPhone
      else if forallb looksLikeID sample then TId
      else TString
  end.



(** [detectPatterns(columnName, values, dataType)] *)
Definition detectPatterns (columnName : string) (values : list value)
  (dataType : DataType) : list Pattern :=
  let lowerName := toLowerCase columnName in
  let tag (b : bool) (p : Pattern) := if b then [p] else [] in
  tag (includes lowerName "id" || includes lowerName "key") identifier
  ++ tag (includes lowerName "name") name_tag
  ++ tag (includes lowerName "email") email_tag
  ++ tag (includes lowerName "phone" || includes lowerName "tel") phone_tag
  ++ tag (includes lowerName "date" || includes lowerName "time") temporal_tag
  ++ tag (includes lowerName "address") address_tag
  ++ tag (includes lowerName "url" || includes lowerName "link") url_tag
  ++ match dataType with
     | TNumber =>
         (if allIntegers values then [integer_tag] else [decimal_tag])
         ++ tag (allNonNegative values) positive_tag
     | TString =>
         let lengths := map (fun v => String.length (ToString v)) values in
         tag (forallb (fun l => l =? hd 0 lengths)%nat lengths) fixed_length
     | _ => []
     end.

(** [analyzeColumn(columnName, values)] *)
Definition analyzeColumn (columnName : string) (values : list value)
  : ColumnProfile :=
  let nonNullValues := filter isNonNull values in
  let nullCount := List.length values - List.length nonNullValues in
  let dataType := detectDataType nonNullValues in
  {| col_name := columnName;
     col_dataType := dataType;
     col_patterns := detectPatterns columnName nonNullValues dataType;
     col_statistics := calculateStatistics nonNullValues dataType;
     col_potentialRelationships :=
       detectPotentialRelationships columnName nonNullValues dataType;
     col_nullCount := nullCount;
     col_nullPercentage := percentage nullCount (List.length values);
     col_uniqueValues := size (newSet nonNullValues);
     col_sampleValues := firstn 5 nonNullValues |}.

(** The object [analyzeDataStructure] returns ([dataQuality], a summary of the
    null percentages in floating point, is left out). *)
Record Analysis : Type := mkAnalysis {
  an_columns : list string;
  an_columnAnalysis : list (string * ColumnProfile);
  an_sampleSize : nat;
  an_totalRows : nat
}.

(** [data.slice(0, Math.min(100, data.length))] *)
Definition sampleOf (data : dataset) : dataset :=
  firstn (Nat.min 100 (List.length data)) data.

(** [sample.map(row => row[column]).filter(val => val !== null && val !== undefined)] *)
Definition sampleValues (sample : dataset) (column : string) : list value :=
  filter isPresent (map (fun row => get row column) sample).

(** [analyzeDataStructure(data)] *)
Definition analyzeDataStructure (data : dataset) : Analysis :=
  let sampleSize := Nat.min 100 (List.length data) in
  let sample := firstn sampleSize data in
  let columns := keys (hd [] sample) in
  {| an_columns := columns;
     an_columnAnalysis :=
       map (fun column => (column, analyzeColumn column (sampleValues sample column)))
           columns;
     an_sampleSize := sampleSize;
     an_totalRows := List.length data |}.

(** [analysis.columnAnalysis[column]] *)
Fixpoint profileOf (columnAnalysis : list (string * ColumnProfile))
  (column : string) : option ColumnProfile :=
  match columnAnalysis with
  | [] => None
  | (c, p) :: rest => if String.eqb c column then Some p else profileOf rest column
  end.

(** ** Cleaning *)

(** [Number(value)] and [moment(value).toISOString()], as values. *)
Variable ToNumber : value -> value.
Variable normalizeDate : value -> value.

(** [['true','1','yes','y'].includes(String(value).toLowerCase())] *)
Definition normalizeBoolean (val : value) : bool :=
  listIncludes ["true"; "1"; "yes"; "y"] (toLowerCase (ToString val)).

(** [cleanValue(value, columnAnalysis)]; [columnAnalysis] is [undefined] for
    a key that the first record does not have, and destructuring it throws. *)
Definition cleanValue (val : value) (columnAnalysis : option ColumnProfile)
  : result value :=
  if isNonNull val then
    match columnAnalysis with
    | None =>
        Throw "Cannot destructure property 'dataType' of 'columnAnalysis' as it is undefined."
    | Some profile =>
        Ok match col_dataType profile with
           | TNumber => ToNumber val
           | TBoolean => Bool (normalizeBoolean val)
           | TDate => normalizeDate val
           | TEmail => Str (trim (toLowerCase (ToString val)))
           | TString => Str (trim (ToString val))
           | _ => val
           end
    end
  else Ok Null.

Fixpoint cleanRow (analysis : Analysis) (row : object) : result object :=
  match row with
  | [] => Ok []
  | (column, val) :: rest =>
      match cleanValue val (profileOf (an_columnAnalysis analysis) column) with
      | Throw e => Throw e
      | Ok cleaned =>
          match cleanRow analysis rest with
          | Throw e => Throw e
          | Ok rest' => Ok ((column, cleaned) :: rest')
          end
      end
  end.

(** [cleanData(data, analysis)] *)
Fixpoint cleanData (data : dataset) (analysis : Analysis) : result dataset :=
  match data with
  | [] => Ok []
  | row :: rest =>
      match cleanRow analysis row with
      | Throw e => Throw e
      | Ok row' =>
          match cleanData rest analysis with
          | Throw e => Throw e
          | Ok rest' => Ok (row' :: rest')
          end
      end
  end.

(** The names every object inherits from [Object.prototype].  Under such a
    name [analysis.columnAnalysis[column]] is not [undefined] although no
    column has the name; the records of a dataset are taken not to use these
    names as keys. *)
Definition inheritedNames : list string :=
  [ "constructor"; "hasOwnProperty"; "isPrototypeOf"; "propertyIsEnumerable";
    "toLocaleString"; "toString"; "valueOf"; "__defineGetter__";
    "__defineSetter__"; "__lookupGetter__"; "__lookupSetter__"; "__proto__" ].

Definition plainKeys (data : dataset) : Prop :=
  forall row column,
    In row data -> In column (keys row) -> ~ In column inheritedNames.

(** ** The schema *)

Record Property : Type := mkProperty {
  prop_name : string;
  prop_type : DataType;
  prop_patterns : list Pattern;
  prop_nullable : bool;
  prop_unique : bool;
  prop_statistics : Statistics
}.

Record Entity : Type := mkEntity {
  ent_name : string;
  ent_properties : list Property
}.

Record Schema : Type := mkSchema {
  sch_entities : list Entity;
  sch_relationships : list Relationship;
  sch_constraints : list string
}.

(** [col.nullPercentage > 0] *)
Definition isPositive (p : Percentage) : bool :=
  match p with
  | PercentNaN => false
  | Percent q => negb (Qle_bool q 0)
  end.

(** [generateSchema(analysis, relationships)] *)
Definition generateSchema (analysis : Analysis)
  (relationships : list Relationship) : Schema :=
  {| sch_entities :=
       [ {| ent_name := "MainEntity";
            ent_properties :=
              map (fun entry =>
                     let col := snd entry in
                     {| prop_name := col_name col;
                        prop_type := col_dataType col;
                        prop_patterns := col_patterns col;
                        prop_nullable := isPositive (col_nullPercentage col);
                        prop_unique :=
                          (col_uniqueValues col =? an_totalRows analysis)%nat;
                        prop_statistics := col_statistics col |})
                  (an_columnAnalysis analysis) |} ];
     sch_relationships := relationships;
     sch_constraints := [] |}.

(** What the language model answered to the schema prompt: nothing (the call
    failed), prose, or a JSON object of which [mergeSchemas] reads
    [entities], [relationships] and [constraints]. *)
Inductive LlmReply : Type :=
| LlmFailed
| LlmProse
| LlmJson (entities : option (list Entity))
          (relationships : list Relationship)
          (constraints : list string).


(** [llmSchema.relationships || []], and nothing for a reply without JSON. *)
Definition proposedRelationships (reply : LlmReply) : list Relationship :=
  match reply with
  | LlmJson _ relationships _ => relationships
  | _ => []
  end.

Variable askSchema : dataset -> LlmReply.

(** [generateSchemaWithLLM(analysis, relationships, data)] *)
Definition generateSchemaWithLLM (analysis : Analysis)
  (relationships : list Relationship) (data : dataset) : Schema :=
  let baseSchema := generateSchema analysis relationships in
  match askSchema data with
  | LlmFailed => baseSchema
  | LlmProse => baseSchema
  | LlmJson entities rels constraints =>
      {| sch_entities :=
           match entities with
           | Some es => es
           | None => sch_entities baseSchema
           end;
         sch_relationships := sch_relationships baseSchema ++ rels;
         sch_constraints := sch_constraints baseSchema ++ constraints |}
  end.

(** ** Structured rows and the stage as a whole *)

(** [o[k] = v]: the value is replaced in place, a new key goes last. *)
Fixpoint setField (o : object) (k : string) (v : value) : object :=
  match o with
  | [] => [(k, v)]
  | (k', v') :: rest =>
      if String.eqb k' k then (k', v) :: rest else (k', v') :: setField rest k v
  end.

(** A row of [structureData]: [{id: index + 1, ...row, _metadata}].
    [sr_fields] holds [id] and the row's own fields other than [_metadata];
    the [_metadata] of the structured row is a new object, which replaces a
    field of that name and of which the row index is kept in [sr_rowIndex]
    (the time stamp is left out).  A read of [_metadata] is not a read of
    [sr_fields]. *)
Record StructuredRow : Type := mkStructuredRow {
  sr_fields : object;
  sr_rowIndex : nat
}.

Definition notMetadata (kv : string * value) : bool :=
  negb (String.eqb (fst kv) "_metadata").

Definition structureRow (index : nat) (row : object) : StructuredRow :=
  {| sr_fields :=
       fold_left (fun o kv => setField o (fst kv) (snd kv))
                 (filter notMetadata row)
                 [("id", Num (natToString (index + 1)))];
     sr_rowIndex := index |}.

Fixpoint structureFrom (index : nat) (data : dataset) : list StructuredRow :=
  match data with
  | [] => []
  | row :: rest => structureRow index row :: structureFrom (S index) rest
  end.

(** [structureData(data, schema)] *)
Definition structureData (data : dataset) : list StructuredRow :=
  structureFrom 0 data.

(** What the data loader hands over: [{data, metadata}]. *)
Record Metadata : Type := mkMetadata {
  md_type : string;
  md_rowCount : nat;
  md_columns : list string
}.

Record LoadResult : Type := mkLoadResult {
  lr_data : option dataset;
  lr_metadata : Metadata
}.

(** The result of the stage (the prose insights of the language model are
    left out). *)
Record StructureResult : Type := mkStructureResult {
  res_originalData : dataset;
  res_structuredData : list StructuredRow;
  res_schema : Schema;
  res_relationships : list Relationship;
  res_analysis : Analysis;
  res_originalRowCount : nat;
  res_structuredRowCount : nat
}.

(** [DataStructuringAgent.execute(data)] *)
Definition execute (input : LoadResult) : result StructureResult :=
  match lr_data input with
  | None | Some [] => Throw "No data provided for structuring"
  | Some rawData =>
      let analysis := analyzeDataStructure rawData in
      match cleanData rawData analysis with
      | Throw e => Throw e
      | Ok cleanedData =>
          let relationships :=
            detectRelationships cleanedData (an_columns analysis) in
          let schema :=
            generateSchemaWithLLM analysis relationships cleanedData in
          let structuredData := structureData cleanedData in
          Ok {| res_originalData := rawData;
                res_structuredData := structuredData;
                res_schema := schema;
                res_relationships := relationships;
                res_analysis := analysis;
                res_originalRowCount := List.length rawData;
                res_structuredRowCount := List.length structuredData |}
      end
  end.

End Profiler.

End DataStructuring.

(* ===================================================================== *)
(** * State and exceptions *)
(* ===================================================================== *)

(** Code that mutates an object (the orchestrator, the graph store) and may
    throw: a computation takes the state, answers a value or an exception, and
    leaves a state.  An exception keeps the mutations made before it. *)
Module Eff.

Definition M (S A : Type) : Type := S -> result A * S.

Definition ret {S A : Type} (a : A) : M S A := fun s => (Ok a, s).

Definition bind {S A B : Type} (m : M S A) (k : A -> M S B) : M S B :=
  fun s =>
    match m s with
    | (Ok a, s') => k a s'
    | (Throw e, s') => (Throw e, s')
    end.

Definition throw {S A : Type} (message : string) : M S A :=
  fun s => (Throw message, s).

(** [try { m } catch (error) { handler(error.message) }] *)
Definition tryCatch {S A : Type} (m : M S A) (handler : string -> M S A)
  : M S A :=
  fun s =>
    match m s with
    | (Ok a, s') => (Ok a, s')
    | (Throw e, s') => handler e s'
    end.

Definition gets {S A : Type} (f : S -> A) : M S A := fun s => (Ok (f s), s).

Definition modify {S : Type} (f : S -> S) : M S unit := fun s => (Ok tt, f s).

(** A call that does not touch the state. *)
Definition lift {S A : Type} (r : result A) : M S A := fun s => (r, s).

(** [try { m } catch] with the outcome handed on as a value. *)
Definition attempt {S A : Type} (m : M S A) : M S (result A) :=
  fun s => let (r, s') := m s in (Ok r, s').

(** [for (const x of l) { body(x) }] *)
Fixpoint forEach {S A : Type} (l : list A) (body : A -> M S unit) : M S unit :=
  match l with
  | [] => ret tt
  | x :: rest => bind (body x) (fun _ => forEach rest body)
  end.

(** A loop that adds up what each iteration returns. *)
Fixpoint sumOver {S A : Type} (l : list A) (body : A -> M S nat) (acc : nat)
  : M S nat :=
  match l with
  | [] => ret acc
  | x :: rest => bind (body x) (fun n => sumOver rest body (acc + n))
  end.

End Eff.

Import Eff.

Declare Scope eff_scope.
Delimit Scope eff_scope with eff.
Notation "x <- m ;; k" := (bind m (fun x => k))
  (at level 61, m at next level, right associativity) : eff_scope.
Notation "m ;; k" := (bind m (fun _ => k))
  (at level 61, right associativity) : eff_scope.

Import DataStructuring.

(* ===================================================================== *)
(** * The graph-modeling stage (class [GraphModelingAgent]) *)
(* ===================================================================== *)

Module GraphModeling.

Local Open Scope eff_scope.

(** ** The graph model *)

Record NodeProperty : Type := mkNodeProperty {
  np_name : string;
  np_type : string;
  np_indexed : bool;
  np_unique : bool
}.

Record Constraint : Type := mkConstraint {
  con_type : string;
  con_property : string
}.

Record NodeType : Type := mkNodeType {
  nt_name : string;
  nt_properties : list NodeProperty;
  nt_constraints : list Constraint
}.

Record RelationshipType : Type := mkRelationshipType {
  rt_name : string;
  rt_source : string;
  rt_target : string;
  rt_type : RelationshipKind;
  rt_confidence : Q;
  rt_description : string
}.

Record GraphModel : Type := mkGraphModel {
  gm_nodeTypes : list NodeType;
  gm_relationshipTypes : list RelationshipType;
  gm_constraints : list Constraint;
  gm_indexes : list string
}.

(** [typeMapping[dataType] || 'String'] *)
Definition mapToNeo4jType (dataType : DataType) : string :=
  match dataType with
  | TString => "String"
  | TNumber => "Float"
  | TBoolean => "Boolean"
  | TDate => "DateTime"
  | TEmail | TUrl | TPhone | TId => "String"
  | TUnknown => "String"
  end.

(** [generateRelationshipName(source, target)] *)
Definition generateRelationshipName (source target : string) : string :=
  ("RELATES_TO_" ++ toUpperCase source ++ "_" ++ toUpperCase target)%string.

Fixpoint dropChars (n : nat) (s : string) : string :=
  match n, s with
  | S m, String _ r => dropChars m r
  | _, _ => s
  end.

(** [s.replace(pattern, replacement)] with a string pattern: the first
    occurrence is replaced. *)
Fixpoint replaceFirst (s pattern replacement : string) : string :=
  if prefix pattern s then
    (replacement ++ dropChars (String.length pattern) s)%string
  else
    match s with
    | EmptyString => EmptyString
    | String c r => String c (replaceFirst r pattern replacement)
    end.

Definition commonWords : list string :=
  ["id"; "name"; "type"; "status"; "date"; "time"].

(** [areColumnsRelated(col1, col2)] *)
Definition areColumnsRelated (col1 col2 : string) : bool :=
  let lower1 := toLowerCase col1 in
  let lower2 := toLowerCase col2 in
  existsb
    (fun word =>
       (includes lower1 word && includes lower2 word)
       || (includes lower1 word
           && includes lower2 (replaceFirst word "id" "name"))
       || (includes lower1 word
           && includes lower2 (replaceFirst word "name" "id")))
    commonWords.

Definition semanticRelationship (col1 col2 : string) : RelationshipType :=
  {| rt_name :=
       ("RELATED_TO_" ++ toUpperCase col1 ++ "_" ++ toUpperCase col2)%string;
     rt_source := col1;
     rt_target := col2;
     rt_type := semantic;
     rt_confidence := 6 # 10;
     rt_description :=
       ("Semantic relationship between " ++ col1 ++ " and " ++ col2)%string |}.

Fixpoint relatedLater (col1 : string) (later : list string)
  : list RelationshipType :=
  match later with
  | [] => []
  | col2 :: rest =>
      if areColumnsRelated col1 col2
      then semanticRelationship col1 col2 :: relatedLater col1 rest
      else relatedLater col1 rest
  end.

(** The two loops of [detectAdditionalRelationships] over [analysis.columns]. *)
Fixpoint additionalRelationships (columns : list string)
  : list RelationshipType :=
  match columns with
  | [] => []
  | col1 :: later => relatedLater col1 later ++ additionalRelationships later
  end.

Definition nodeTypeOf (entity : Entity) : NodeType :=
  {| nt_name := ent_name entity;
     nt_properties :=
       map (fun prop =>
              {| np_name := prop_name prop;
                 np_type := mapToNeo4jType (prop_type prop);
                 np_indexed :=
                   existsb (Pattern_eqb identifier) (prop_patterns prop)
                   || prop_unique prop;
                 np_unique := prop_unique prop |})
           (ent_properties entity);
     nt_constraints :=
       map (fun prop => {| con_type := "UNIQUE"; con_property := prop_name prop |})
           (filter prop_unique (ent_properties entity)) |}.

Definition relationshipTypeOf (rel : Relationship) : RelationshipType :=
  {| rt_name := generateRelationshipName (rel_source rel) (rel_target rel);
     rt_source := rel_source rel;
     rt_target := rel_target rel;
     rt_type := rel_type rel;
     rt_confidence := rel_confidence rel;
     rt_description := rel_description rel |}.

(** The names of the properties of a node type that get an index. *)
Definition indexedNames (nodeType : NodeType) : list string :=
  map np_name (filter np_indexed (nt_properties nodeType)).

(** ** The store and the agent *)

(** The Cypher statements the agent sends with [session.run]. *)
Inductive Query : Type :=
| ClearDatabase
| CreateConstraint (nodeType property : string)
| CreateIndex (nodeType property : string)
| CreateNodes (nodeType : string) (batch : list StructuredRow)
| CreateForeignKeyRelationships (relType : RelationshipType)
    (commonValues : list value)
| CreateHierarchicalRelationships (relType : RelationshipType)
| CreateTemporalRelationships (relType : RelationshipType).

Definition isForeignKeyQuery (q : Query) : Prop :=
  match q with
  | CreateForeignKeyRelationships _ _ => True
  | _ => False
  end.

(** A node, an edge and an insight of the offline preview. *)
Record DemoNode : Type := mkDemoNode {
  dn_id : string;
  dn_label : string;
  dn_group : string;
  dn_properties : StructuredRow;
  dn_size : Q
}.

Record DemoEdge : Type := mkDemoEdge {
  de_id : string;
  de_from : string;
  de_to : string;
  de_label : string;
  de_width : Q
}.

Record Insight : Type := mkInsight {
  in_type : string;
  in_title : string;
  in_description : string;
  in_confidence : Q
}.

Record DemoGraph : Type := mkDemoGraph {
  dg_success : bool;
  dg_nodes : list DemoNode;
  dg_edges : list DemoEdge;
  dg_insights : list Insight;
  dg_totalNodes : nat;
  dg_totalEdges : nat;
  dg_nodeTypes : list string;
  dg_relationshipTypes : list string;
  dg_demoMode : bool;
  dg_message : string
}.

Definition demoInsights : list Insight :=
  [ mkInsight "pattern" "Data Clustering"
      "Detected 3 main clusters in the data structure" (85 # 100);
    mkInsight "anomaly" "Outlier Detection"
      "Found 2 potential outliers in the dataset" (72 # 100);
    mkInsight "relationship" "Strong Correlations"
      "Identified 5 strong correlations between entities" (91 # 100) ].

(** [[...new Set(names)]] for strings. *)
Definition distinct (names : list string) : list string :=
  fold_left (fun acc n => if listIncludes acc n then acc else acc ++ [n])
            names [].

Section Agent.

(** The graph database behind the driver: its states, what a statement
    answers (the [created] count of its first record, or a failure) and how it
    changes the database; and the report [analyzeGraph] reads from it. *)
Variable Store : Type.
Variable run : Query -> Store -> result nat * Store.
Variable GraphAnalysis : Type.
Variable analyze : Store -> result GraphAnalysis * Store.

(** The sequence [Math.random()] draws from. *)
Variable random : nat -> Q.

(** The agent: its mode, its configuration, the database, and what it has
    done so far (lines logged, statements sent, random numbers drawn). *)
Record Agent : Type := mkAgent {
  demoMode : bool;
  clearExisting : bool;
  database : Store;
  logged : list string;
  issued : list Query;
  drawn : nat
}.

Definition info (line : string) : M Agent unit :=
  modify (fun a => mkAgent (demoMode a) (clearExisting a) (database a)
                           (logged a ++ [line]) (issued a) (drawn a)).

(** [session.run(cypher)] *)
Definition sessionRun (q : Query) : M Agent nat :=
  fun a =>
    let (answer, db) := run q (database a) in
    (answer, mkAgent (demoMode a) (clearExisting a) db
                     (logged a) (issued a ++ [q]) (drawn a)).

(** [answeredInOrder statements db answers db']: the store, in the state
    [db], was sent the statements of [statements] one after another and
    answered each of them with a count; [answers] lists the counts and [db']
    is the state the last statement left. *)
Inductive answeredInOrder
  : list Query -> Store -> list nat -> Store -> Prop :=
| answered_none (db : Store) : answeredInOrder [] db [] db
| answered_next (q : Query) (rest : list Query) (db db1 db' : Store)
                (n : nat) (answers : list nat) :
    run q db = (Ok n, db1) ->
    answeredInOrder rest db1 answers db' ->
    answeredInOrder (q :: rest) db (n :: answers) db'.

(** [Math.random()] *)
Definition mathRandom : M Agent Q :=
  fun a =>
    (Ok (random (drawn a)),
     mkAgent (demoMode a) (clearExisting a) (database a)
             (logged a) (issued a) (S (drawn a))).

(** [initialize()]: [connectivity] is what creating the driver and
    [driver.verifyConnectivity()] answer; when they throw, the agent switches
    to demo mode. *)
Definition initialize (connectivity : result unit) : M Agent unit :=
  info "Initializing GraphModeling agent";;
  tryCatch
    (lift connectivity;;
     info "Connected to Neo4j database";;
     modify (fun a => mkAgent false (clearExisting a) (database a)
                              (logged a) (issued a) (drawn a)))
    (fun _ =>
       info "Failed to connect to Neo4j, running in demo mode:";;
       modify (fun a => mkAgent true (clearExisting a) (database a)
                                (logged a) (issued a) (drawn a))).

(** [createGraphModel(schema, relationships, analysis)] *)
Definition createGraphModel (schema : Schema)
  (relationships : list Relationship) (analysis : Analysis)
  : M Agent GraphModel :=
  info "Creating graph model from schema";;
  ret {| gm_nodeTypes := map nodeTypeOf (sch_entities schema);
         gm_relationshipTypes :=
           map relationshipTypeOf relationships
           ++ additionalRelationships (an_columns analysis);
         gm_constraints := [];
         gm_indexes := [] |}.

(** ** Loading into the store *)

(** [clearDatabase()] *)
Definition clearDatabase : M Agent unit :=
  info "Clearing existing data from Neo4j";;
  _ <- sessionRun ClearDatabase;;
  info "Database cleared".

(** [createConstraintsAndIndexes(graphModel, session)]: a statement that
    fails is logged and the loop goes on. *)
Definition createConstraintsAndIndexes (graphModel : GraphModel)
  : M Agent unit :=
  info "Creating constraints and indexes";;
  forEach (gm_nodeTypes graphModel) (fun nodeType =>
    forEach (nt_constraints nodeType) (fun constraint =>
      tryCatch
        (_ <- sessionRun (CreateConstraint (nt_name nodeType)
                                           (con_property constraint));;
         info "Created constraint")
        (fun _ => info "Constraint creation failed (may already exist)"));;
    forEach (nt_properties nodeType) (fun property =>
      if np_indexed property then
        tryCatch
          (_ <- sessionRun (CreateIndex (nt_name nodeType) (np_name property));;
           info "Created index")
          (fun _ => info "Index creation failed (may already exist)")
      else ret tt)).

Definition batchSize : nat := 1000.

(** [data.slice(i, i + batchSize)] for [i = 0, batchSize, ...] below
    [data.length]; [fuel] bounds the number of batches. *)
Fixpoint batchesOf (fuel : nat) (data : list StructuredRow)
  : list (list StructuredRow) :=
  match fuel, data with
  | S fuel', _ :: _ => firstn batchSize data :: batchesOf fuel' (skipn batchSize data)
  | _, _ => []
  end.

(** [loadNodes(data, graphModel, session)] *)
Definition loadNodes (data : list StructuredRow) (graphModel : GraphModel)
  : M Agent nat :=
  info "Loading nodes into Neo4j";;
  sumOver (batchesOf (List.length data) data)
    (fun batch =>
       match gm_nodeTypes graphModel with
       | [] => throw "Cannot read properties of undefined (reading 'name')"
       | nodeType :: _ =>
           created <- sessionRun (CreateNodes (nt_name nodeType) batch);;
           info "Loaded batch";;
           ret created
       end)
    0.

(** [createForeignKeyRelationships(data, relType, session)] *)
Definition createForeignKeyRelationships (data : list StructuredRow)
  (relType : RelationshipType) : M Agent nat :=
  info "Creating foreign key relationships";;
  let valuesOf column :=
    newSet (filter notNull (map (fun row => get (sr_fields row) column) data)) in
  let sourceValues := valuesOf (rt_source relType) in
  let targetValues := valuesOf (rt_target relType) in
  let commonValues := filter (has targetValues) sourceValues in
  match commonValues with
  | [] => ret 0
  | _ => sessionRun (CreateForeignKeyRelationships relType commonValues)
  end.

(** [createHierarchicalRelationships(data, relType, session)] *)
Definition createHierarchicalRelationships (relType : RelationshipType)
  : M Agent nat :=
  info "Creating hierarchical relationships";;
  sessionRun (CreateHierarchicalRelationships relType).

(** [createTemporalRelationships(data, relType, session)] *)
Definition createTemporalRelationships (relType : RelationshipType)
  : M Agent nat :=
  info "Creating temporal relationships";;
  sessionRun (CreateTemporalRelationships relType).

(** [loadRelationships(data, graphModel, session)] *)
Definition loadRelationships (data : list StructuredRow)
  (graphModel : GraphModel) : M Agent nat :=
  info "Loading relationships into Neo4j";;
  sumOver (gm_relationshipTypes graphModel)
    (fun relType =>
       match rt_type relType with
       | foreign_key => createForeignKeyRelationships data relType
       | hierarchical => createHierarchicalRelationships relType
       | temporal => createTemporalRelationships relType
       | semantic => ret 0
       end)
    0.

(** [loadDataToNeo4j(data, graphModel)] *)
Definition loadDataToNeo4j (data : list StructuredRow) (graphModel : GraphModel)
  : M Agent (nat * nat) :=
  info "Loading data into Neo4j";;
  createConstraintsAndIndexes graphModel;;
  nodeCount <- loadNodes data graphModel;;
  relationshipCount <- loadRelationships data graphModel;;
  ret (nodeCount, relationshipCount).

(** [analyzeGraph()] *)
Definition analyzeGraph : M Agent GraphAnalysis :=
  info "Analyzing created graph";;
  fun a =>
    let (answer, db) := analyze (database a) in
    (answer, mkAgent (demoMode a) (clearExisting a) db
                     (logged a) (issued a) (drawn a)).

(** ** The offline preview *)

(** [schema.entities?.[0]?.name || 'Entity'] *)
Definition demoNodeType (schema : Schema) : string :=
  match sch_entities schema with
  | entity :: _ => if isEmpty (ent_name entity) then "Entity" else ent_name entity
  | [] => "Entity"
  end.

(** The [forEach] that pushes one node per record, [index] counting up. *)
Fixpoint demoNodes (schema : Schema) (index : nat) (records : list StructuredRow)
  : M Agent (list DemoNode) :=
  match records with
  | [] => ret []
  | record :: rest =>
      r <- mathRandom;;
      let node :=
        {| dn_id := ("node_" ++ natToString index)%string;
           dn_label :=
             (demoNodeType schema ++ " " ++ natToString (index + 1))%string;
           dn_group := demoNodeType schema;
           dn_properties := record;
           dn_size := (r * 20 + 10)%Q |} in
      nodes <- demoNodes schema (S index) rest;;
      ret (node :: nodes)
  end.

(** The loop [for (i = first; i < bound; i++)] that pushes one edge per
    turn; [count] is [bound - first]. *)
Fixpoint demoEdges (nodes : list DemoNode) (first count : nat)
  : M Agent (list DemoEdge) :=
  match count with
  | O => ret []
  | S count' =>
      match nth_error nodes first, nth_error nodes (first + 1) with
      | Some source, Some target =>
          r <- mathRandom;;
          let edge :=
            {| de_id := ("edge_" ++ natToString first)%string;
               de_from := dn_id source;
               de_to := dn_id target;
               de_label := "RELATES_TO";
               de_width := (r * 5 + 1)%Q |} in
          edges <- demoEdges nodes (S first) count';;
          ret (edge :: edges)
      | _, _ => throw "Cannot read properties of undefined (reading 'id')"
      end
  end.

(** [generateDemoGraphData(structuredData, schema, relationships, analysis)] *)
Definition generateDemoGraphData (structuredData : list StructuredRow)
  (schema : Schema) : M Agent DemoGraph :=
  info "Generating demo graph data for visualization";;
  nodes <- demoNodes schema 0 (firstn 10 structuredData);;
  edges <- demoEdges nodes 0 (Nat.min 5 (List.length nodes - 1));;
  ret {| dg_success := true;
         dg_nodes := nodes;
         dg_edges := edges;
         dg_insights := demoInsights;
         dg_totalNodes := List.length nodes;
         dg_totalEdges := List.length edges;
         dg_nodeTypes := distinct (map dn_group nodes);
         dg_relationshipTypes := distinct (map de_label edges);
         dg_demoMode := true;
         dg_message :=
           "Demo mode: Graph data generated for visualization. Install Neo4j for full functionality." |}.

(** ** The stage as a whole *)

Record LoadedGraph : Type := mkLoadedGraph {
  lg_graphModel : GraphModel;
  lg_nodeCount : nat;
  lg_relationshipCount : nat;
  lg_graphAnalysis : GraphAnalysis
}.

(** What [execute] returns: the preview, or the report of a load (its
    insights, prose derived from [graphAnalysis], are left out). *)
Inductive GraphResult : Type :=
| Preview (demo : DemoGraph)
| Loaded (graph : LoadedGraph).

(** [GraphModelingAgent.execute(data)] *)
Definition execute (data : StructureResult) : M Agent GraphResult :=
  info "Starting graph modeling process";;
  match res_structuredData data with
  | [] => throw "No structured data provided for graph modeling"
  | _ =>
      demo <- gets demoMode;;
      if demo then
        info "Running in demo mode - generating mock graph data";;
        preview <- generateDemoGraphData (res_structuredData data)
                                         (res_schema data);;
        ret (Preview preview)
      else
        clear <- gets clearExisting;;
        (if clear then clearDatabase else ret tt);;
        graphModel <- createGraphModel (res_schema data)
                                       (res_relationships data)
                                       (res_analysis data);;
        counts <- loadDataToNeo4j (res_structuredData data) graphModel;;
        graphAnalysis <- analyzeGraph;;
        info "Graph modeling completed";;
        ret (Loaded {| lg_graphModel := graphModel;
                       lg_nodeCount := fst counts;
                       lg_relationshipCount := snd counts;
                       lg_graphAnalysis := graphAnalysis |})
  end.

End Agent.

Arguments Preview {GraphAnalysis} demo.
Arguments Loaded {GraphAnalysis} graph.

End GraphModeling.


Import GraphModeling.

(* ===================================================================== *)
(** * The data loader's dispatch (class [DataLoaderAgent]) *)
(* ===================================================================== *)

Module DataLoader.

(** [jobConfig.dataSource] *)
Record DataSource : Type := mkDataSource {
  ds_source : string;
  ds_type : string;
  ds_path : string;
  ds_connectionString : string
}.

Section Loader.

(** The readers of files and databases: what [loadFromLocal],
    [loadFromUpload] and [loadFromODBC] answer for a source. *)
Variable readSource : DataSource -> result LoadResult.

(** [DataLoaderAgent.execute(data)] *)
Definition execute (data : DataSource) : result LoadResult :=
  if listIncludes ["local"; "upload"; "odbc"] (ds_source data)
  then readSource data
  else Throw ("Unsupported source type: " ++ ds_source data)%string.

End Loader.

End DataLoader.

Import DataLoader.

(* ===================================================================== *)
(** * The orchestrator (class [AgentOrchestrator]) *)
(* ===================================================================== *)

Module Orchestrator.

Local Open Scope eff_scope.

Inductive Status : Type := started | completed | failed.

Definition Status_eqb (a b : Status) : bool :=
  match a, b with
  | started, started | completed, completed | failed, failed => true
  | _, _ => false
  end.

Inductive StepName : Type := dataLoading | dataStructuring | graphModeling.

Record JobConfig : Type := mkJobConfig {
  dataSource : DataSource
}.

Section Jobs.

(** The three agents: what each stage returns, the state the agents keep
    between jobs together with what they reach (files, database), and their
    [process] methods. *)
Variable LoadR StructR GraphR : Type.
Variable World : Type.
Variable dataLoader : DataSource -> M World LoadR.
Variable dataStructuringAgent : LoadR -> M World StructR.
Variable graphModelingAgent : StructR -> M World GraphR.

(** The identifier [generateJobId()] returns at its [k]-th call (built from
    the clock and [Math.random()]). *)
Variable jobIdAt : nat -> string.

Inductive StepResult : Type :=
| LoadStep (r : LoadR)
| StructureStep (r : StructR)
| GraphStep (r : GraphR).

(** A step of a job; the time stamps are left out. *)
Record Step : Type := mkStep {
  step_name : StepName;
  step_status : Status;
  step_result : option StepResult;
  step_error : option string
}.

Record JobResult : Type := mkJobResult {
  jr_dataLoading : LoadR;
  jr_dataStructuring : StructR;
  jr_graphModeling : GraphR
}.

Record Job : Type := mkJob {
  job_id : string;
  job_config : JobConfig;
  job_status : Status;
  job_steps : list Step;
  job_result : option JobResult;
  job_error : option string
}.

Inductive Event : Type :=
| stepCompleted (jobId : string) (step : StepName)
| jobCompleted (jobId : string)
| jobFailed (jobId : string) (error : string).

(** The orchestrator.  A job object is shared by [jobHistory] and
    [currentJob] and mutated in place, so [currentJob] is kept as a reference:
    the position of the job in [jobHistory].  [pending] holds the callbacks
    given to [setImmediate] that have not run yet.  [statusLog] records every
    value assigned to the [status] of a job, in order; the source has no such
    field, it is kept for the proofs. *)
Record State : Type := mkState {
  agents : World;
  jobHistory : list Job;
  currentJob : option nat;
  pending : list JobConfig;
  emitted : list Event;
  idsDrawn : nat;
  statusLog : list (string * Status)
}.

Definition initialState (w : World) : State :=
  {| agents := w; jobHistory := []; currentJob := None; pending := [];
     emitted := []; idsDrawn := 0; statusLog := [] |}.

(** ** Primitive steps *)

(** A call of an agent: it runs on the agents' state. *)
Definition callAgent {A : Type} (m : M World A) : M State A :=
  fun s =>
    let (r, w) := m (agents s) in
    (r, mkState w (jobHistory s) (currentJob s) (pending s) (emitted s)
                (idsDrawn s) (statusLog s)).

(** [this.generateJobId()] *)
Definition generateJobId : M State string :=
  fun s =>
    (Ok (jobIdAt (idsDrawn s)),
     mkState (agents s) (jobHistory s) (currentJob s) (pending s) (emitted s)
             (S (idsDrawn s)) (statusLog s)).

(** [this.emit(event)] *)
Definition emit (e : Event) : M State unit :=
  modify (fun s => mkState (agents s) (jobHistory s) (currentJob s) (pending s)
                           (emitted s ++ [e]) (idsDrawn s) (statusLog s)).

(** [this.currentJob = job; this.jobHistory.push(job)]; answers the
    reference to the new job. *)
Definition register (job : Job) : M State nat :=
  fun s =>
    let ref := List.length (jobHistory s) in
    (Ok ref,
     mkState (agents s) (jobHistory s ++ [job]) (Some ref) (pending s)
             (emitted s) (idsDrawn s)
             (statusLog s ++ [(job_id job, job_status job)])).

Fixpoint updateAt {A : Type} (n : nat) (f : A -> A) (l : list A) : list A :=
  match l, n with
  | [], _ => []
  | x :: rest, O => f x :: rest
  | x :: rest, S m => x :: updateAt m f rest
  end.

(** A mutation of the job behind a reference. *)
Definition mutate (ref : nat) (f : Job -> Job) : M State unit :=
  modify (fun s => mkState (agents s) (updateAt ref f (jobHistory s))
                           (currentJob s) (pending s) (emitted s)
                           (idsDrawn s) (statusLog s)).

(** [job.status = status] *)
Definition setStatus (ref : nat) (id : string) (status : Status) : M State unit :=
  mutate ref (fun j => mkJob (job_id j) (job_config j) status (job_steps j)
                             (job_result j) (job_error j));;
  modify (fun s => mkState (agents s) (jobHistory s) (currentJob s) (pending s)
                           (emitted s) (idsDrawn s)
                           (statusLog s ++ [(id, status)])).

(** [job.steps.push({ name, status: 'started', ... })] *)
Definition pushStep (ref : nat) (name : StepName) : M State unit :=
  mutate ref (fun j =>
    mkJob (job_id j) (job_config j) (job_status j)
          (job_steps j ++ [mkStep name started None None])
          (job_result j) (job_error j)).

Definition updateLast {A : Type} (f : A -> A) (l : list A) : list A :=
  updateAt (List.length l - 1) f l.

(** The three assignments to [job.steps[job.steps.length - 1]] after a stage
    returned. *)
Definition completeStep (ref : nat) (r : StepResult) : M State unit :=
  mutate ref (fun j =>
    mkJob (job_id j) (job_config j) (job_status j)
          (updateLast (fun st => mkStep (step_name st) completed (Some r)
                                        (step_error st))
                      (job_steps j))
          (job_result j) (job_error j)).

(** The [catch] block's treatment of the last step: it is marked failed when
    it is still [started]. *)
Definition failCurrentStep (ref : nat) (message : string) : M State unit :=
  mutate ref (fun j =>
    mkJob (job_id j) (job_config j) (job_status j)
          (updateLast (fun st =>
                         match step_status st with
                         | started => mkStep (step_name st) failed
                                             (step_result st) (Some message)
                         | _ => st
                         end)
                      (job_steps j))
          (job_result j) (job_error j)).

(** ** [processData] *)

Definition processData (jobConfig : JobConfig) : M State JobResult :=
  id <- generateJobId;;
  ref <- register (mkJob id jobConfig started [] None None);;
  tryCatch
    (pushStep ref dataLoading;;
     loadResult <- callAgent (dataLoader (dataSource jobConfig));;
     completeStep ref (LoadStep loadResult);;
     emit (stepCompleted id dataLoading);;
     pushStep ref dataStructuring;;
     structureResult <- callAgent (dataStructuringAgent loadResult);;
     completeStep ref (StructureStep structureResult);;
     emit (stepCompleted id dataStructuring);;
     pushStep ref graphModeling;;
     graphResult <- callAgent (graphModelingAgent structureResult);;
     completeStep ref (GraphStep graphResult);;
     emit (stepCompleted id graphModeling);;
     setStatus ref id completed;;
     let result := mkJobResult loadResult structureResult graphResult in
     mutate ref (fun j => mkJob (job_id j) (job_config j) (job_status j)
                                (job_steps j) (Some result) (job_error j));;
     emit (jobCompleted id);;
     ret result)
    (fun message =>
       setStatus ref id failed;;
       mutate ref (fun j => mkJob (job_id j) (job_config j) (job_status j)
                                  (job_steps j) (job_result j) (Some message));;
       failCurrentStep ref message;;
       emit (jobFailed id message);;
       throw message).

(** ** [processDataAsync] and the callbacks of [setImmediate] *)

(** [this.currentJob?.id] *)
Definition currentJobId (s : State) : option string :=
  match currentJob s with
  | Some ref => option_map job_id (nth_error (jobHistory s) ref)
  | None => None
  end.

(** [setImmediate(async () => { ... processData(jobConfig) ... })] *)
Definition setImmediate (jobConfig : JobConfig) : M State unit :=
  modify (fun s => mkState (agents s) (jobHistory s) (currentJob s)
                           (pending s ++ [jobConfig]) (emitted s)
                           (idsDrawn s) (statusLog s)).

(** [processDataAsync(jobConfig)]; [None] is [undefined]. *)
Definition processDataAsync (jobConfig : JobConfig) : M State (option string) :=
  setImmediate jobConfig;;
  gets currentJobId.

(** The event loop runs the oldest pending callback: [processData] inside a
    [try] whose [catch] only logs. *)
Definition runImmediate : M State unit :=
  fun s =>
    match pending s with
    | [] => (Ok tt, s)
    | jobConfig :: rest =>
        tryCatch (_ <- processData jobConfig;; ret tt) (fun _ => ret tt)
          (mkState (agents s) (jobHistory s) (currentJob s) rest (emitted s)
                   (idsDrawn s) (statusLog s))
    end.

(** ** [getJobStatus] and [getJobHistory] *)

(** What the two methods show of a step and of a job; the time stamps and
    the durations computed from them are left out. *)
Record StepView : Type := mkStepView {
  sv_name : StepName;
  sv_status : Status
}.

Record JobView : Type := mkJobView {
  jv_id : string;
  jv_status : Status;
  jv_steps : list StepView;
  jv_error : option string
}.

Record JobEntry : Type := mkJobEntry {
  je_id : string;
  je_status : Status;
  je_error : option string
}.

Definition viewOf (job : Job) : JobView :=
  {| jv_id := job_id job;
     jv_status := job_status job;
     jv_steps := map (fun step => mkStepView (step_name step) (step_status step))
                     (job_steps job);
     jv_error := job_error job |}.

(** [getJobStatus(jobId)]: [jobHistory.find] answers the oldest job with the
    identifier. *)
Definition getJobStatus (jobId : string) : M State JobView :=
  fun s =>
    match find (fun j => String.eqb (job_id j) jobId) (jobHistory s) with
    | Some job => (Ok (viewOf job), s)
    | None => (Throw ("Job " ++ jobId ++ " not found")%string, s)
    end.

Definition entryOf (job : Job) : JobEntry :=
  mkJobEntry (job_id job) (job_status job) (job_error job).

(** [getJobHistory()] *)
Definition getJobHistory : M State (list JobEntry) :=
  gets (fun s => map entryOf (jobHistory s)).

(** ** [processBatch] *)

Record Summary : Type := mkSummary {
  sum_total : nat;
  sum_successful : nat;
  sum_failed : nat
}.

Record BatchResult : Type := mkBatchResult {
  br_results : list (nat * JobResult);
  br_errors : list (nat * string);
  br_summary : Summary
}.

(** The loop [for (let i = ...; i < jobConfigs.length; i++)], from index [i]
    with the configurations that are left. *)
Fixpoint batchLoop (i : nat) (jobConfigs : list JobConfig)
  (results : list (nat * JobResult)) (errors : list (nat * string))
  : M State (list (nat * JobResult) * list (nat * string)) :=
  match jobConfigs with
  | [] => ret (results, errors)
  | jobConfig :: rest =>
      outcome <- attempt (processData jobConfig);;
      match outcome with
      | Ok result => batchLoop (S i) rest (results ++ [(i, result)]) errors
      | Throw message => batchLoop (S i) rest results (errors ++ [(i, message)])
      end
  end.

Definition processBatch (jobConfigs : list JobConfig) : M State BatchResult :=
  collected <- batchLoop 0 jobConfigs [] [];;
  let (results, errors) := collected in
  ret {| br_results := results;
         br_errors := errors;
         br_summary := {| sum_total := List.length jobConfigs;
                          sum_successful := List.length results;
                          sum_failed := List.length errors |} |}.

(** ** Invariants *)

(** [m] keeps [P]: from a state where [P] holds it leaves one where [P]
    holds, whether it returns or throws. *)
Definition keeps {A : Type} (P : State -> Prop) (m : M State A) : Prop :=
  forall s, P s -> P (snd (m s)).

(** The job history is [history] followed by one job, which has the given
    identifier and configuration. *)
Definition registered (history : list Job) (id : string) (jobConfig : JobConfig)
  (s : State) : Prop :=
  exists job,
    jobHistory s = history ++ [job]
    /\ job_id job = id
    /\ job_config job = jobConfig.

(** ** Jobs run one after another *)

(** The outcomes of running the jobs of a list strictly in list order, each
    in the state its predecessor left, whether that one returned or threw. *)
Fixpoint runInOrder (jobConfigs : list JobConfig) (s : State)
  : list (result JobResult) * State :=
  match jobConfigs with
  | [] => ([], s)
  | jobConfig :: rest =>
      let (outcome, s1) := processData jobConfig s in
      let (outcomes, s2) := runInOrder rest s1 in
      (outcome :: outcomes, s2)
  end.

(** The stages of a job, in the order [processData] runs them. *)
Definition stages : list StepName :=
  [dataLoading; dataStructuring; graphModeling].

(** What [getJobHistory] shows of the jobs with the given outcomes, when the
    first of them drew the [k]-th identifier. *)
Fixpoint entriesFrom (k : nat) (outcomes : list (result JobResult))
  : list JobEntry :=
  match outcomes with
  | [] => []
  | Ok _ :: rest => mkJobEntry (jobIdAt k) completed None :: entriesFrom (S k) rest
  | Throw message :: rest =>
      mkJobEntry (jobIdAt k) failed (Some message) :: entriesFrom (S k) rest
  end.

End Jobs.

(** ** The pipeline of steps ([addPipelineStep], [clearPipeline],
       [executePipeline]) *)

Section Steps.

(** The data handed from step to step, and what the steps work on.  A step
    does not change the pipeline it is part of. *)
Variable Data : Type.
Variable World : Type.

Record PipelineStep : Type := mkPipelineStep {
  ps_name : string;
  ps_execute : Data -> M World Data
}.

Inductive PipelineEvent : Type :=
| pipelineStepCompleted (step : nat) (name : string) (result : Data)
| pipelineStepFailed (step : nat) (name : string) (error : string).

Record Runner : Type := mkRunner {
  rn_world : World;
  rn_pipeline : list PipelineStep;
  rn_emitted : list PipelineEvent
}.

(** [addPipelineStep(step)] *)
Definition addPipelineStep (step : PipelineStep) : M Runner unit :=
  modify (fun r => mkRunner (rn_world r) (rn_pipeline r ++ [step])
                            (rn_emitted r)).

(** [clearPipeline()] *)
Definition clearPipeline : M Runner unit :=
  modify (fun r => mkRunner (rn_world r) [] (rn_emitted r)).

Definition runStep (step : PipelineStep) (currentData : Data) : M Runner Data :=
  fun r =>
    let (outcome, w) := ps_execute step currentData (rn_world r) in
    (outcome, mkRunner w (rn_pipeline r) (rn_emitted r)).

Definition emitStep (e : PipelineEvent) : M Runner unit :=
  modify (fun r => mkRunner (rn_world r) (rn_pipeline r) (rn_emitted r ++ [e])).

(** The loop [for (let i = ...; i < this.pipeline.length; i++)], from index
    [i] with the steps that are left. *)
Fixpoint executeFrom (i : nat) (steps : list PipelineStep) (currentData : Data)
  : M Runner Data :=
  match steps with
  | [] => ret currentData
  | step :: rest =>
      next <- tryCatch
                (result <- runStep step currentData;;
                 emitStep (pipelineStepCompleted (i + 1) (ps_name step) result);;
                 ret result)
                (fun message =>
                   emitStep (pipelineStepFailed (i + 1) (ps_name step) message);;
                   throw message);;
      executeFrom (S i) rest next
  end.

(** [executePipeline(initialData)] *)
Definition executePipeline (initialData : Data) : M Runner Data :=
  fun r => executeFrom 0 (rn_pipeline r) initialData r.

(** The events that report the steps of [steps] completed with the data of
    [results], numbered from [i + 1]. *)
Fixpoint completions (i : nat) (steps : list PipelineStep) (results : list Data)
  : list PipelineEvent :=
  match steps, results with
  | step :: steps', result :: results' =>
      pipelineStepCompleted (i + 1) (ps_name step) result
      :: completions (S i) steps' results'
  | _, _ => []
  end.

(** [ranInOrder steps x w results w']: the steps of [steps] were executed one
    after another from the world [w], the first on [x] and each later one on
    what the step before it returned; each of them returned, [results] lists
    what they returned, and [w'] is the world the last of them left. *)
Inductive ranInOrder
  : list PipelineStep -> Data -> World -> list Data -> World -> Prop :=
| ran_none (x : Data) (w : World) : ranInOrder [] x w [] w
| ran_next (step : PipelineStep) (rest : list PipelineStep) (x y : Data)
           (w w1 w' : World) (results : list Data) :
    ps_execute step x w = (Ok y, w1) ->
    ranInOrder rest y w1 results w' ->
    ranInOrder (step :: rest) x w (y :: results) w'.

End Steps.

Arguments pipelineStepCompleted {Data} step name result.
Arguments pipelineStepFailed {Data} step name error.

(** The returned values of a list of outcomes, each with its index (counted
    from [i]), and the thrown messages, each with its index. *)
Fixpoint successesFrom {A : Type} (i : nat) (outcomes : list (result A))
  : list (nat * A) :=
  match outcomes with
  | [] => []
  | Ok a :: rest => (i, a) :: successesFrom (S i) rest
  | Throw _ :: rest => successesFrom (S i) rest
  end.

Fixpoint failuresFrom {A : Type} (i : nat) (outcomes : list (result A))
  : list (nat * string) :=
  match outcomes with
  | [] => []
  | Ok _ :: rest => failuresFrom (S i) rest
  | Throw message :: rest => (i, message) :: failuresFrom (S i) rest
  end.

End Orchestrator.

Import Orchestrator.

(* ===================================================================== *)
(** * The three agents under the orchestrator *)
(* ===================================================================== *)

Module Pipeline.

Section System.

(** What the system reaches outside: the date and URL libraries and the two
    numeric tests, the conversions of [cleanValue], the language model, the
    readers of files and databases, the graph store, the random numbers and
    the job identifiers. *)
Variable isValidDate : value -> bool.
Variable urlParses : string -> bool.
Variable allIntegers allNonNegative : list value -> bool.
Variable ToNumber normalizeDate : value -> value.
Variable askSchema : dataset -> LlmReply.
Variable readSource : DataSource -> result LoadResult.
Variable Store : Type.
Variable run : Query -> Store -> result nat * Store.
Variable GraphAnalysis : Type.
Variable analyze : Store -> result GraphAnalysis * Store.
Variable random : nat -> Q.
Variable jobIdAt : nat -> string.

(** [agent.process(data)] is [agent.execute(data)] between two status
    events, and rethrows what it throws.  Of the three agents only the
    graph-modeling one keeps a state. *)
Definition loaderStage (data : DataSource) : M (Agent Store) LoadResult :=
  lift (DataLoader.execute readSource data).

Definition structuringStage (data : LoadResult)
  : M (Agent Store) StructureResult :=
  lift (DataStructuring.execute isValidDate urlParses allIntegers
          allNonNegative ToNumber normalizeDate askSchema data).

Definition graphStage (data : StructureResult)
  : M (Agent Store) (GraphResult GraphAnalysis) :=
  GraphModeling.execute run analyze random data.

(** [orchestrator.processData(jobConfig)] *)
Definition runPipeline (jobConfig : JobConfig) :=
  processData loaderStage structuringStage graphStage jobIdAt jobConfig.

(** [orchestrator.processBatch(jobConfigs)] *)
Definition runBatch (jobConfigs : list JobConfig) :=
  processBatch loaderStage structuringStage graphStage jobIdAt jobConfigs.

End System.

End Pipeline.

Import Pipeline.

(* ===================================================================== *)
(** * Sources: the readers of the loader, the job configurations and the
      file type of an upload *)
(* ===================================================================== *)

Module Sources.

Section Readers.

(** What the loader reaches: [path.extname], whether [fs.access] succeeds,
    the three file parsers and the three database readers. *)
Variable extname : string -> string.
Variable fileExists : string -> bool.
Variable parseCSV parseExcel parseJSON : string -> result LoadResult.
Variable querySQLite queryMySQL queryPostgreSQL : string -> result LoadResult.

(** [extension.substring(1)] *)
Definition substring1 (s : string) : string :=
  match s with
  | String _ r => r
  | EmptyString => EmptyString
  end.

(** [loadFromLocal(filePath, type)]; a [type] that is absent is the empty
    text. *)
Definition loadFromLocal (filePath type : string) : result LoadResult :=
  if fileExists filePath then
    let extension := toLowerCase (extname filePath) in
    let actualType := if isEmpty type then substring1 extension else type in
    if String.eqb actualType "csv" then parseCSV filePath
    else if String.eqb actualType "xlsx" || String.eqb actualType "xls"
    then parseExcel filePath
    else if String.eqb actualType "json" then parseJSON filePath
    else Throw ("Unsupported file type: " ++ actualType)%string
  else Throw ("File not found: " ++ filePath)%string.

(** [loadFromUpload(filePath, type)] *)
Definition loadFromUpload (filePath type : string) : result LoadResult :=
  loadFromLocal filePath type.

(** [parseConnectionString(connectionString)] *)
Definition parseConnectionString (connectionString : string) : result string :=
  if includes connectionString "sqlite" then Ok "sqlite"
  else if includes connectionString "mysql" then Ok "mysql"
  else if includes connectionString "postgresql"
          || includes connectionString "postgres"
  then Ok "postgresql"
  else Throw "Unable to determine database type from connection string".

(** [loadFromODBC(connectionString, type)]: its [catch] logs and rethrows. *)
Definition loadFromODBC (connectionString : string) : result LoadResult :=
  match parseConnectionString connectionString with
  | Throw e => Throw e
  | Ok dbType =>
      if String.eqb dbType "sqlite" then querySQLite connectionString
      else if String.eqb dbType "mysql" then queryMySQL connectionString
      else if String.eqb dbType "postgresql"
      then queryPostgreSQL connectionString
      else Throw ("Unsupported database type: " ++ dbType)%string
  end.

(** The readers [DataLoaderAgent.execute] calls for the three sources it
    knows. *)
Definition readSource (data : DataSource) : result LoadResult :=
  if String.eqb (ds_source data) "local"
  then loadFromLocal (ds_path data) (ds_type data)
  else if String.eqb (ds_source data) "upload"
  then loadFromUpload (ds_path data) (ds_type data)
  else loadFromODBC (ds_connectionString data).

(** [DataLoaderAgent.execute(data)] with its readers. *)
Definition load (data : DataSource) : result LoadResult :=
  DataLoader.execute readSource data.

(** [getFileType(filename)] of the server, which names the type of an
    uploaded file from its original name. *)
Definition getFileType (filename : string) : string :=
  let ext := toLowerCase (extname filename) in
  if String.eqb ext ".csv" then "csv"
  else if String.eqb ext ".xlsx" || String.eqb ext ".xls" then "excel"
  else if String.eqb ext ".json" then "json"
  else "unknown".

End Readers.

(** [createLocalFileJob(filePath, fileType)], [createUploadJob(filePath,
    fileType)] and [createODBCJob(connectionString, query)] of the
    orchestrator; the loader does not read [query]. *)
Definition createLocalFileJob (filePath fileType : string) : JobConfig :=
  mkJobConfig (mkDataSource "local" fileType filePath "").

Definition createUploadJob (filePath fileType : string) : JobConfig :=
  mkJobConfig (mkDataSource "upload" fileType filePath "").

Definition createODBCJob (connectionString : string) : JobConfig :=
  mkJobConfig (mkDataSource "odbc" "" "" connectionString).

End Sources.

Import Sources.

(* ===================================================================== *)
(** * Sample data *)
(* ===================================================================== *)

(** The dataset [[{id:1,mgr:5},{id:2,mgr:1},{id:5,mgr:5}]]. *)
Definition staff : dataset :=
  [ [("id", Num "1"); ("mgr", Num "5")];
    [("id", Num "2"); ("mgr", Num "1")];
    [("id", Num "5"); ("mgr", Num "5")] ].

(** A column of zeros and ones and a column of prices. *)
Definition flags : dataset :=
  [ [("flag", Num "1"); ("price", Str "3.14")];
    [("flag", Num "0"); ("price", Str "12")] ].

(** A column with a [null] in one record of two. *)
Definition sparse : dataset :=
  [ [("a", Null)]; [("a", Num "1")] ].

(** The libraries' tests, for the sample data: no value is a date or a URL;
    every number is a non-negative integer. *)
Definition noDate (_ : value) : bool := false.
Definition noUrl (_ : string) : bool := false.
Definition yes (_ : list value) : bool := true.

(** A system without a graph store and without a language model: every
    statement fails, the readers know two files, and the k-th job is
    [job_k]. *)
Definition sampleReader (data : DataSource) : result LoadResult :=
  if String.eqb (ds_path data) "staff.json" then
    Ok (mkLoadResult (Some staff) (mkMetadata "json" 3 ["id"; "mgr"]))
  else if String.eqb (ds_path data) "empty.csv" then
    Ok (mkLoadResult (Some []) (mkMetadata "csv" 0 []))
  else Throw ("File not found: " ++ ds_path data)%string.

Definition noStore (_ : Query) (db : unit) : result nat * unit :=
  (Throw "Could not perform discovery. No routing servers available.", db).

Definition noAnalysis (db : unit) : result unit * unit :=
  (Throw "Could not perform discovery. No routing servers available.", db).

Definition half (_ : nat) : Q := 1 # 2.

Definition sampleJobId (k : nat) : string := ("job_" ++ natToString k)%string.

Definition asIs (v : value) : value := v.

Definition noLlm (_ : dataset) : LlmReply := LlmFailed.

(** A language model that answers every prompt with the JSON
    [{"relationships": [{"type": "hierarchical", ...}]}]. *)
Definition reportsTo : Relationship :=
  {| rel_type := hierarchical;
     rel_source := "id";
     rel_target := "mgr";
     rel_confidence := 9 # 10;
     rel_description := "id reports to mgr" |}.

Definition proposing (_ : dataset) : LlmReply := LlmJson None [reportsTo] [].

Definition freshAgent : Agent unit := mkAgent false false tt [] [] 0.

(** The agent after an initialization that could not reach the store. *)
Definition offlineAgent : Agent unit :=
  snd (initialize (Throw "connect ECONNREFUSED 127.0.0.1:7687") freshAgent).

Definition localFile (path : string) : JobConfig :=
  mkJobConfig (mkDataSource "local" "" path "").

(** A configuration with a source the loader does not know. *)
Definition malformedJob : JobConfig :=
  mkJobConfig (mkDataSource "ftp" "" "staff.json" "").

Definition sampleState : State LoadResult StructureResult (GraphResult unit)
                               (Agent unit) :=
  initialState LoadResult StructureResult (GraphResult unit) offlineAgent.

Definition samplePipeline (jobConfig : JobConfig) :=
  runPipeline noDate noUrl yes yes asIs asIs noLlm sampleReader noStore
              noAnalysis half sampleJobId jobConfig.

Definition sampleBatch (jobConfigs : list JobConfig) :=
  runBatch noDate noUrl yes yes asIs asIs noLlm sampleReader noStore
           noAnalysis half sampleJobId jobConfigs.

(** What the data-structuring stage returns for [staff]. *)
Definition staffResult : StructureResult :=
  let analysis := analyzeDataStructure noDate noUrl yes yes staff in
  let relationships := detectRelationships staff (an_columns analysis) in
  {| res_originalData := staff;
     res_structuredData := structureData staff;
     res_schema := generateSchema analysis relationships;
     res_relationships := relationships;
     res_analysis := analysis;
     res_originalRowCount := 3;
     res_structuredRowCount := 3 |}.

(** What the data-structuring stage of the sample system returns for
    [staff]: the values are cleaned before the rows are structured. *)
Definition staffStructured : StructureResult :=
  match DataStructuring.execute noDate noUrl yes yes asIs asIs noLlm
          (mkLoadResult (Some staff) (mkMetadata "json" 3 ["id"; "mgr"])) with
  | Ok result => result
  | Throw _ => staffResult
  end.

(** The candidate [detectRelationships] finds in [staff]. *)
Definition staffCandidate : Relationship :=
  {| rel_type := foreign_key;
     rel_source := "id";
     rel_target := "mgr";
     rel_confidence := 2 # 2;
     rel_description :=
       "Potential foreign key relationship between id and mgr" |}.

(** Records that do not have the same keys. *)
Definition ragged : dataset :=
  [ [("a", Num "1")]; [("a", Num "2"); ("b", Str "x")] ].

(** [[{a:1,b:1},{a:2,b:3},{}]]: the last record has neither column. *)
Definition missingBoth : dataset :=
  [ [("a", Num "1"); ("b", Num "1")]; [("a", Num "2"); ("b", Num "3")]; [] ].

(** [[{a:1,b:1},{a:2}]]: the last record has no [b]. *)
Definition missingOne : dataset :=
  [ [("a", Num "1"); ("b", Num "1")]; [("a", Num "2")] ].

(** A hundred records with the same three fields, and one more. *)
Definition hundredRows : dataset :=
  repeat [("id", Num "7"); ("zip_key", Str "k"); ("city", Str "Rome")] 100.


(** A store that answers a node statement with the size of its batch, and a
    graph model with one node type. *)
Definition countingStore (q : Query) (db : unit) : result nat * unit :=
  (Ok match q with
      | CreateNodes _ batch => List.length batch
      | _ => 0
      end, db).

Definition oneNodeType : GraphModel :=
  {| gm_nodeTypes := [mkNodeType "MainEntity" [] []];
     gm_relationshipTypes := [];
     gm_constraints := [];
     gm_indexes := [] |}.

(** The text of a name from its last ["."] on (what [path.extname] answers
    for the names used here), a file system in which every path exists, and
    parsers that name themselves. *)
Fixpoint fromLastDot (s : string) : string :=
  match s with
  | EmptyString => EmptyString
  | String c r =>
      if isEmpty (fromLastDot r)
      then (if Ascii.eqb c "." then s else EmptyString)
      else fromLastDot r
  end.

Definition everyFile (_ : string) : bool := true.

Definition namedParser (name path : string) : result LoadResult :=
  Throw (name ++ " was asked to read " ++ path)%string.

(* ===================================================================== *)
(** * Properties *)
(* ===================================================================== *)

(** ** [Set]: members and sizes *)

Lemma value_eqb_eq (x y : value) : value_eqb x y = true <-> x = y.
Proof.
  unfold value_eqb. destruct (value_eq_dec x y); split; congruence.
Qed.

Lemma has_In (s : set) (v : value) : has s v = true <-> In v s.
Proof.
  unfold has. rewrite existsb_exists. split.
  - intros [x [Hin Heq]]. apply value_eqb_eq in Heq. now subst.
  - intros Hin. exists v. split; [assumption | now apply value_eqb_eq].
Qed.

Lemma add_In (s : set) (v x : value) : In x (add s v) <-> In x s \/ x = v.
Proof.
  unfold add. destruct (has s v) eqn:Hhas.
  - apply has_In in Hhas. split; [tauto | intros [H | ->]; assumption].
  - rewrite in_app_iff. simpl. intuition.
Qed.

Lemma add_NoDup (s : set) (v : value) : NoDup s -> NoDup (add s v).
Proof.
  intros Hs. unfold add. destruct (has s v) eqn:Hhas; [assumption |].
  assert (Hnot : ~ In v s).
  { intros Hin. apply has_In in Hin. congruence. }
  clear Hhas. induction Hs as [| a l Ha Hl IH]; simpl.
  - constructor; [intros [] | constructor].
  - constructor.
    + rewrite in_app_iff. simpl. intros [H | [H | []]]; [tauto |].
      subst. apply Hnot. now left.
    + apply IH. intros H. apply Hnot. now right.
Qed.

Lemma addAll_In (values : list value) (acc : set) (x : value) :
  In x (fold_left add values acc) <-> In x acc \/ In x values.
Proof.
  revert acc. induction values as [| v rest IH]; intros acc; simpl.
  - tauto.
  - rewrite IH, add_In. intuition.
Qed.

Lemma addAll_NoDup (values : list value) (acc : set) :
  NoDup acc -> NoDup (fold_left add values acc).
Proof.
  revert acc. induction values as [| v rest IH]; intros acc Hacc; simpl.
  - assumption.
  - apply IH. now apply add_NoDup.
Qed.

Lemma newSet_In (values : list value) (x : value) :
  In x (newSet values) <-> In x values.
Proof.
  unfold newSet. rewrite addAll_In. simpl. tauto.
Qed.

Lemma newSet_NoDup (values : list value) : NoDup (newSet values).
Proof.
  unfold newSet. apply addAll_NoDup. constructor.
Qed.

(** Two duplicate-free lists with the same members have the same length. *)
Lemma same_members_same_length (A : Type) (l1 l2 : list A) :
  NoDup l1 -> NoDup l2 -> (forall x, In x l1 <-> In x l2) ->
  List.length l1 = List.length l2.
Proof.
  intros H1 H2 Hmem. apply Permutation_length.
  now apply NoDup_Permutation.
Qed.

(** ** The relationship detector *)

Lemma columnValues_In (data : dataset) (col : string) (v : value) :
  In v (columnValues data col)
  <-> v <> Null /\ exists row, In row data /\ get row col = v.
Proof.
  unfold columnValues. rewrite filter_In, in_map_iff. split.
  - intros [[row [Hget Hin]] Hnn]. split.
    + intros ->. discriminate.
    + now exists row.
  - intros [Hnn [row [Hin Hget]]]. split.
    + now exists row.
    + destruct v; simpl; congruence.
Qed.

(** The set the source builds for a column is the set of its entries other
    than [null]. *)
Lemma newSet_entrySetOf (data : dataset) (col : string) :
  entrySetOf data col (newSet (columnValues data col)).
Proof.
  split; [apply newSet_NoDup |].
  intros v. now rewrite newSet_In, columnValues_In.
Qed.

(** When every record has the column, its entries other than [null] are its
    values. *)
Lemma valueSetOf_entrySetOf (data : dataset) (col : string) (S : list value) :
  (forall row, In row data -> get row col <> Undefined) ->
  valueSetOf data col S -> entrySetOf data col S.
Proof.
  intros Hall [Hnd Hmem]. split; [assumption |].
  intros v. rewrite Hmem. split.
  - intros [Hnn [_ Hrow]]. now split.
  - intros [Hnn [row [Hin Hget]]]. split; [assumption |]. split.
    + rewrite <- Hget. now apply Hall.
    + now exists row.
Qed.

Lemma filter_has_intersectionOf (S1 S2 : list value) :
  NoDup S1 -> intersectionOf S1 S2 (filter (has S2) S1).
Proof.
  intros H1. split; [now apply NoDup_filter |].
  intros v. now rewrite filter_In, has_In.
Qed.

Lemma intersectionOf_sym (S1 S2 I : list value) :
  intersectionOf S1 S2 I -> intersectionOf S2 S1 I.
Proof.
  intros [Hnd Hmem]. split; [assumption |].
  intros v. rewrite Hmem. tauto.
Qed.

Lemma exceedsHalf_iff (q : Q) : exceedsHalf q = true <-> (1 # 2 < q)%Q.
Proof.
  unfold exceedsHalf. rewrite negb_true_iff. split.
  - intros H. apply Qnot_le_lt. intros Hle.
    apply Qle_bool_iff in Hle. congruence.
  - intros H. destruct (Qle_bool q (1 # 2)) eqn:E; [| reflexivity].
    apply Qle_bool_iff in E. exfalso. now apply (Qlt_not_le _ _ H).
Qed.

Lemma overlapRatio_empty (n m : nat) : exceedsHalf (overlapRatio 0 n m) = false.
Proof.
  destruct (exceedsHalf (overlapRatio 0 n m)) eqn:E; [| reflexivity].
  apply exceedsHalf_iff in E. unfold overlapRatio in E. exfalso.
  revert E. unfold Qlt, Qdiv, Qmult. simpl. lia.
Qed.

Lemma analyzeColumnRelationship_sets (data : dataset) (col1 col2 : string)
  (S1 S2 I : list value) :
  entrySetOf data col1 S1 -> entrySetOf data col2 S2 ->
  intersectionOf S1 S2 I ->
  analyzeColumnRelationship data col1 col2
  = candidateOf col1 col2
      (overlapRatio (List.length I) (List.length S1) (List.length S2)).
Proof.
  intros [Hnd1 Hm1] [Hnd2 Hm2] [HndI HmI].
  unfold analyzeColumnRelationship, candidateOf, size.
  set (set1 := newSet (columnValues data col1)).
  set (set2 := newSet (columnValues data col2)).
  set (inter := newSet (filter (has set2) set1)).
  assert (E1 : List.length set1 = List.length S1).
  { apply same_members_same_length; [apply newSet_NoDup | assumption |].
    intros x. unfold set1. now rewrite newSet_In, columnValues_In, Hm1. }
  assert (E2 : List.length set2 = List.length S2).
  { apply same_members_same_length; [apply newSet_NoDup | assumption |].
    intros x. unfold set2. now rewrite newSet_In, columnValues_In, Hm2. }
  assert (EI : List.length inter = List.length I).
  { apply same_members_same_length; [apply newSet_NoDup | assumption |].
    intros x. unfold inter, set1, set2.
    rewrite newSet_In, filter_In, has_In, !newSet_In, !columnValues_In.
    now rewrite HmI, Hm1, Hm2. }
  rewrite E1, E2, EI.
  destruct (List.length I) as [| k] eqn:EK.
  - rewrite overlapRatio_empty. reflexivity.
  - reflexivity.
Qed.

Lemma analyzeColumnRelationship_Some (data : dataset) (col1 col2 : string)
  (r : Relationship) :
  analyzeColumnRelationship data col1 col2 = Some r ->
  rel_type r = foreign_key /\ rel_source r = col1 /\ rel_target r = col2.
Proof.
  unfold analyzeColumnRelationship.
  destruct (0 <? _)%nat; [| discriminate].
  destruct (exceedsHalf _); [| discriminate].
  intros H. injection H as <-. now simpl.
Qed.

Lemma relateWithLater_In (data : dataset) (col : string) (later : list string)
  (r : Relationship) :
  In r (relateWithLater data col later) ->
  rel_type r = foreign_key /\ rel_source r = col /\ In (rel_target r) later.
Proof.
  induction later as [| x rest IH]; simpl; [intros [] |].
  destruct (analyzeColumnRelationship data col x) as [r' |] eqn:E.
  - intros [<- | Hin].
    + apply analyzeColumnRelationship_Some in E. intuition.
    + intuition.
  - intuition.
Qed.

Lemma detectRelationships_In (data : dataset) (columns : list string)
  (r : Relationship) :
  In r (detectRelationships data columns) ->
  rel_type r = foreign_key
  /\ In (rel_source r) columns /\ In (rel_target r) columns.
Proof.
  induction columns as [| col later IH]; simpl; [intros [] |].
  rewrite in_app_iff. intros [H | H].
  - apply relateWithLater_In in H. destruct H as [Ht [Hs Hl]].
    rewrite Hs. intuition.
  - intuition.
Qed.

Lemma joins_sym (c1 c2 : string) (r : Relationship) :
  joins c1 c2 r = joins c2 c1 r.
Proof. unfold joins. apply orb_comm. Qed.

Lemma joins_ends (c1 c2 : string) (r : Relationship) :
  joins c1 c2 r = true ->
  (rel_source r = c1 /\ rel_target r = c2)
  \/ (rel_source r = c2 /\ rel_target r = c1).
Proof.
  unfold joins. rewrite orb_true_iff, !andb_true_iff, !String.eqb_eq. tauto.
Qed.

Lemma candidatesFor_sym (c1 c2 : string) (rels : list Relationship) :
  candidatesFor c1 c2 rels = candidatesFor c2 c1 rels.
Proof.
  unfold candidatesFor. apply filter_ext. intros r. now rewrite joins_sym.
Qed.

Lemma candidatesFor_app (c1 c2 : string) (l1 l2 : list Relationship) :
  candidatesFor c1 c2 (l1 ++ l2)
  = candidatesFor c1 c2 l1 ++ candidatesFor c1 c2 l2.
Proof. unfold candidatesFor. apply filter_app. Qed.

Lemma candidatesFor_cons (c1 c2 : string) (r : Relationship)
  (rels : list Relationship) :
  candidatesFor c1 c2 (r :: rels)
  = if RelationshipKind_eqb (rel_type r) foreign_key && joins c1 c2 r
    then r :: candidatesFor c1 c2 rels
    else candidatesFor c1 c2 rels.
Proof. reflexivity. Qed.

Lemma candidatesFor_none (c1 c2 : string) (rels : list Relationship) :
  (forall r, In r rels -> joins c1 c2 r = false) ->
  candidatesFor c1 c2 rels = [].
Proof.
  intros H. unfold candidatesFor. induction rels as [| r rest IH]; simpl.
  - reflexivity.
  - rewrite (H r (or_introl eq_refl)), andb_false_r.
    apply IH. intros r' Hr'. apply H. now right.
Qed.

(** The turns of the inner loop contribute, for a later column [other], what
    the one call on [(col, other)] answers. *)
Lemma relateWithLater_candidates (data : dataset) (col other : string)
  (later : list string) :
  NoDup later -> col <> other -> In other later ->
  candidatesFor col other (relateWithLater data col later)
  = pushed (analyzeColumnRelationship data col other).
Proof.
  intros Hnd Hne. induction Hnd as [| x rest Hx Hrest IH]; [intros [] |].
  intros Hin. simpl.
  assert (Hrest_none :
    ~ In other rest ->
    candidatesFor col other (relateWithLater data col rest) = []).
  { intros Hnot. apply candidatesFor_none. intros r Hr.
    apply relateWithLater_In in Hr. destruct Hr as [_ [Hs Ht]].
    destruct (joins col other r) eqn:J; [| reflexivity].
    apply joins_ends in J. destruct J as [[_ J] | [J _]].
    - rewrite J in Ht. contradiction.
    - congruence. }
  destruct (string_dec x other) as [-> | Hxo].
  - destruct (analyzeColumnRelationship data col other) as [r |] eqn:E.
    + pose proof (analyzeColumnRelationship_Some _ _ _ E) as [Ht [Hs Hg]].
      rewrite candidatesFor_cons. unfold joins.
      rewrite Ht, Hs, Hg, !String.eqb_refl. simpl.
      now rewrite (Hrest_none Hx).
    + now apply Hrest_none.
  - destruct Hin as [Hin | Hin]; [contradiction |].
    destruct (analyzeColumnRelationship data col x) as [r |] eqn:E.
    + pose proof (analyzeColumnRelationship_Some _ _ _ E) as [Ht [Hs Hg]].
      rewrite candidatesFor_cons.
      assert (J : joins col other r = false).
      { destruct (joins col other r) eqn:J; [| reflexivity].
        apply joins_ends in J. destruct J as [[_ J] | [J _]]; congruence. }
      rewrite J, andb_false_r.
      now apply IH.
    + now apply IH.
Qed.

(** Over distinct columns the whole result holds, for a pair of columns, what
    the one call on the pair (in column order) answers. *)
Lemma detectRelationships_candidates (data : dataset) (columns : list string)
  (c1 c2 : string) :
  NoDup columns -> In c1 columns -> In c2 columns -> c1 <> c2 ->
  candidatesFor c1 c2 (detectRelationships data columns)
  = pushed (analyzeColumnRelationship data c1 c2)
  \/ candidatesFor c1 c2 (detectRelationships data columns)
     = pushed (analyzeColumnRelationship data c2 c1).
Proof.
  intros Hnd. induction Hnd as [| col later Hcol Hlater IH];
    [intros [] |].
  intros H1 H2 Hne. simpl. rewrite candidatesFor_app.
  assert (Hout : forall c c', ~ In c later ->
    candidatesFor c c' (detectRelationships data later) = []).
  { intros c c' Hc. apply candidatesFor_none. intros r Hr.
    apply detectRelationships_In in Hr. destruct Hr as [_ [Hs Ht]].
    destruct (joins c c' r) eqn:J; [| reflexivity].
    apply joins_ends in J. destruct J as [[J _] | [_ J]];
      rewrite J in *; contradiction. }
  destruct (string_dec col c1) as [-> | Hc1].
  - destruct H2 as [H2 | H2]; [congruence |]. left.
    rewrite (relateWithLater_candidates data Hlater Hne H2).
    rewrite (Hout c1 c2 Hcol). apply app_nil_r.
  - destruct (string_dec col c2) as [-> | Hc2].
    + destruct H1 as [H1 | H1]; [congruence |]. right.
      rewrite (candidatesFor_sym c1 c2 (relateWithLater data c2 later)).
      rewrite (relateWithLater_candidates data Hlater (not_eq_sym Hne) H1).
      rewrite (candidatesFor_sym c1 c2), (Hout c2 c1 Hcol). apply app_nil_r.
    + destruct H1 as [H1 | H1]; [congruence |].
      destruct H2 as [H2 | H2]; [congruence |].
      rewrite (@candidatesFor_none c1 c2 (relateWithLater data col later)).
      * simpl. now apply IH.
      * intros r Hr. apply relateWithLater_In in Hr.
        destruct Hr as [_ [Hs _]].
        destruct (joins c1 c2 r) eqn:J; [| reflexivity].
        apply joins_ends in J. destruct J as [[J _] | [J _]]; congruence.
Qed.

(** What [detectRelationships] does for a pair of distinct columns, in terms
    of the sets it builds: with [E1] and [E2] the entries of the two columns
    other than [null] (so with [undefined] among them when a record lacks the
    column) and [I] their intersection, there is no candidate for the pair when
    |I| / min(|E1|, |E2|) is at most one half, and exactly one, with the ratio
    as its confidence, when it is greater. *)
Lemma detectRelationships_overlap_of_entries :
  forall (data : dataset) (columns : list string) (c1 c2 : string)
         (E1 E2 I : list value),
    NoDup columns -> In c1 columns -> In c2 columns -> c1 <> c2 ->
    entrySetOf data c1 E1 -> entrySetOf data c2 E2 ->
    intersectionOf E1 E2 I ->
    let ratio :=
      (inject_Z (Z.of_nat (List.length I))
       / inject_Z (Z.of_nat (Nat.min (List.length E1) (List.length E2))))%Q in
    let found := candidatesFor c1 c2 (detectRelationships data columns) in
    (I = [] -> found = [])
    /\ ((ratio <= 1 # 2)%Q -> found = [])
    /\ ((1 # 2 < ratio)%Q ->
        exists r, found = [r]
                  /\ rel_type r = foreign_key
                  /\ joins c1 c2 r = true
                  /\ rel_confidence r = ratio).
Proof.
  intros data columns c1 c2 S1 S2 I Hnd H1 H2 Hne HS1 HS2 HI ratio found.
  assert (Hcases :
    found = pushed (candidateOf c1 c2 ratio)
    \/ found = pushed (candidateOf c2 c1 ratio)).
  { destruct (detectRelationships_candidates data Hnd H1 H2 Hne) as [E | E];
      [left | right]; unfold found; rewrite E.
    - now rewrite (analyzeColumnRelationship_sets HS1 HS2 HI).
    - rewrite (analyzeColumnRelationship_sets HS2 HS1 (intersectionOf_sym HI)).
      unfold overlapRatio, ratio. now rewrite Nat.min_comm. }
  assert (Hlow : (ratio <= 1 # 2)%Q -> found = []).
  { intros Hle.
    assert (E : exceedsHalf ratio = false).
    { destruct (exceedsHalf ratio) eqn:E; [| reflexivity].
      apply exceedsHalf_iff in E. exfalso. now apply (Qlt_not_le _ _ E). }
    unfold candidateOf in Hcases. rewrite E in Hcases.
    now destruct Hcases. }
  split; [| split].
  - intros ->. apply Hlow. unfold ratio. simpl.
    unfold Qle, Qdiv, Qmult. simpl. lia.
  - exact Hlow.
  - intros Hgt. apply exceedsHalf_iff in Hgt.
    unfold candidateOf in Hcases. rewrite Hgt in Hcases.
    destruct Hcases as [E | E]; rewrite E; eexists;
      (split; [reflexivity |]); simpl; unfold joins; simpl;
      rewrite !String.eqb_refl; simpl; rewrite ?orb_true_r; auto.
Qed.

(** The values of a column of a short list of records, by cases. *)
Ltac in_a_record :=
  first [ eexists; split; [left; reflexivity | reflexivity]
        | eexists; split; [right; left; reflexivity | reflexivity]
        | eexists; split; [right; right; left; reflexivity | reflexivity] ].

Ltac column_values :=
  split;
  [ repeat constructor; simpl; intuition discriminate
  | intros v; simpl; split;
    [ intros H; repeat destruct H as [<- | H]; try destruct H;
      (split; [discriminate |]); (split; [discriminate |]); in_a_record
    | intros [Hnull [Hundef [row [Hin <-]]]];
      repeat destruct Hin as [<- | Hin]; try destruct Hin;
      simpl in *; tauto ] ].

(** C1.  The detector follows the threshold rule of the claim on a dataset
    whose records all have both columns (so that no read of a column falls
    through to [undefined] or to an inherited member): with [S1] and [S2] the
    sets of the non-null values of two distinct columns and [I] their
    intersection, it returns no foreign-key candidate for the pair when
    |I| / min(|S1|, |S2|) is at most one half (an empty intersection
    included), and exactly one, with the ratio as its confidence, when it is
    greater.  It departs from the rule when a record lacks a column: its
    filter [v !== null] lets the [undefined] of a missing key through, where
    the sibling filters of the profiler drop it, and [undefined] then counts
    as a value of the column.  For [[{a:1,b:1},{a:2,b:3},{}]] the ratio of
    the two columns is one half, and a candidate with confidence 2/3 is
    returned, also by the stage as a whole; for [[{a:1,b:1},{a:2}]] the ratio
    is 1, and no candidate is returned. *)
Theorem detectRelationships_counts_missing_keys :
  (forall (data : dataset) (columns : list string) (c1 c2 : string)
          (S1 S2 I : list value),
      NoDup columns -> In c1 columns -> In c2 columns -> c1 <> c2 ->
      (forall row, In row data ->
                   get row c1 <> Undefined /\ get row c2 <> Undefined) ->
      valueSetOf data c1 S1 -> valueSetOf data c2 S2 ->
      intersectionOf S1 S2 I ->
      let ratio :=
        (inject_Z (Z.of_nat (List.length I))
         / inject_Z (Z.of_nat (Nat.min (List.length S1) (List.length S2))))%Q in
      let found := candidatesFor c1 c2 (detectRelationships data columns) in
      (I = [] -> found = [])
      /\ ((ratio <= 1 # 2)%Q -> found = [])
      /\ ((1 # 2 < ratio)%Q ->
          exists r, found = [r]
                    /\ rel_type r = foreign_key
                    /\ joins c1 c2 r = true
                    /\ rel_confidence r = ratio))
  /\ (valueSetOf missingBoth "a" [Num "1"; Num "2"]
      /\ valueSetOf missingBoth "b" [Num "1"; Num "3"]
      /\ intersectionOf [Num "1"; Num "2"] [Num "1"; Num "3"] [Num "1"]
      /\ (inject_Z 1 / inject_Z (Z.of_nat (Nat.min 2 2)) <= 1 # 2)%Q
      /\ exists r,
           detectRelationships missingBoth ["a"; "b"] = [r]
           /\ candidatesFor "a" "b" (detectRelationships missingBoth ["a"; "b"])
              = [r]
           /\ rel_type r = foreign_key
           /\ (rel_confidence r == 2 # 3)%Q
           /\ exists result,
                DataStructuring.execute noDate noUrl yes yes asIs asIs noLlm
                  (mkLoadResult (Some missingBoth)
                                (mkMetadata "json" 3 ["a"; "b"]))
                = Ok result
                /\ res_relationships result = [r])
  /\ (valueSetOf missingOne "a" [Num "1"; Num "2"]
      /\ valueSetOf missingOne "b" [Num "1"]
      /\ intersectionOf [Num "1"; Num "2"] [Num "1"] [Num "1"]
      /\ (1 # 2 < inject_Z 1 / inject_Z (Z.of_nat (Nat.min 2 1)))%Q
      /\ detectRelationships missingOne ["a"; "b"] = []).
Proof.
  split; [| split].
  - intros data columns c1 c2 S1 S2 I Hnd H1 H2 Hne Hall HS1 HS2 HI.
    apply detectRelationships_overlap_of_entries; try assumption.
    + apply valueSetOf_entrySetOf; [| assumption].
      intros row Hrow. now apply Hall.
    + apply valueSetOf_entrySetOf; [| assumption].
      intros row Hrow. now apply Hall.
  - split; [column_values |]. split; [column_values |]. split.
    + split; [repeat constructor; simpl; intuition discriminate |].
      intros v. simpl. split.
      * intros [<- | []]. tauto.
      * intros [[<- | [<- | []]] [H | [H | []]]];
          (now left) || discriminate.
    + split; [unfold Qle; simpl; lia |].
      eexists. split; [reflexivity |]. split; [reflexivity |].
      split; [reflexivity |]. split; [reflexivity |].
      eexists. split; reflexivity.
  - split; [column_values |]. split; [column_values |]. split.
    + split; [repeat constructor; simpl; intuition discriminate |].
      intros v. simpl. split.
      * intros [<- | []]. tauto.
      * intros [[<- | [<- | []]] [H | []]]; (now left) || discriminate.
    + split; [unfold Qlt; simpl; lia | reflexivity].
Qed.

(** In [staff] every record has both columns: two of the three values of
    [id] are values of [mgr], and the pair is a candidate with confidence 1. *)
Example staff_overlap :
  exists r,
    candidatesFor "id" "mgr" (detectRelationships staff ["id"; "mgr"]) = [r]
    /\ rel_type r = foreign_key
    /\ joins "id" "mgr" r = true
    /\ rel_confidence r = (2 # 2)%Q.
Proof.
  assert (Hnd : NoDup ["id"; "mgr"]).
  { constructor; [simpl; intros [H | []]; discriminate |].
    constructor; [intros [] | constructor]. }
  pose proof (@detectRelationships_overlap_of_entries staff ["id"; "mgr"]
                "id" "mgr"
                [Num "1"; Num "2"; Num "5"] [Num "5"; Num "1"]
                [Num "1"; Num "5"]
                Hnd (or_introl eq_refl) (or_intror (or_introl eq_refl))
                ltac:(discriminate)
                (newSet_entrySetOf staff "id")
                (newSet_entrySetOf staff "mgr")
                (@filter_has_intersectionOf
                   [Num "1"; Num "2"; Num "5"] [Num "5"; Num "1"]
                   (newSet_NoDup (columnValues staff "id")))) as H.
  cbv zeta in H. destruct H as [_ [_ H]]. apply H. reflexivity.
Qed.

(** ** The column profiler *)

Lemma In_firstn (A : Type) (n : nat) (l : list A) (x : A) :
  In x (firstn n l) -> In x l.
Proof.
  revert l. induction n as [| n IH]; intros [| a l]; simpl; try tauto.
  intros [H | H]; [now left | right; now apply IH].
Qed.

Lemma forallb_firstn (A : Type) (p : A -> bool) (n : nat) (l : list A) :
  forallb p l = true -> forallb p (firstn n l) = true.
Proof.
  rewrite !forallb_forall. intros H x Hx. apply H. now apply (In_firstn n).
Qed.

Lemma filter_all (A : Type) (p : A -> bool) (l : list A) :
  forallb p l = true -> filter p l = l.
Proof.
  induction l as [| a l IH]; simpl; [reflexivity |].
  rewrite andb_true_iff. intros [Ha Hl]. rewrite Ha. f_equal. now apply IH.
Qed.


(** *** White space, signs and digits *)

Lemma whiteSpace_not_digit (c : ascii) :
  isWhiteSpace c = true -> isDigit c = false.
Proof.
  unfold isWhiteSpace, isDigit, between.
  destruct (Nat.leb_spec 9 (code c)), (Nat.leb_spec (code c) 13),
    (Nat.eqb_spec (code c) 32), (Nat.leb_spec 48 (code c)),
    (Nat.leb_spec (code c) 57); simpl; intros; try reflexivity;
    try discriminate; lia.
Qed.

Lemma whiteSpace_not_sign (c : ascii) :
  isWhiteSpace c = true -> isSign c = false.
Proof.
  unfold isSign. intros H.
  destruct (Ascii.eqb_spec c "+") as [-> | _]; [discriminate |].
  destruct (Ascii.eqb_spec c "-") as [-> | _]; [discriminate | reflexivity].
Qed.

Lemma whiteSpace_not_dot (c : ascii) :
  isWhiteSpace c = true -> Ascii.eqb c "." = false.
Proof.
  intros H. destruct (Ascii.eqb_spec c ".") as [-> | _];
    [discriminate | reflexivity].
Qed.

Lemma skipDigits_id (s : string) :
  startsWithDigit s = false -> skipDigits s = s.
Proof.
  destruct s as [| c r]; simpl; [reflexivity |]. now intros ->.
Qed.

(** A decimal literal starts as the shortest ones do. *)
Lemma isUnsignedDecimal_starts (d : string) :
  isUnsignedDecimal d = true -> startsDecimal d = true.
Proof.
  unfold isUnsignedDecimal, startsDecimal.
  destruct (startsWithDigit d) eqn:E; [reflexivity |].
  rewrite (skipDigits_id _ E). simpl.
  destruct (afterDot d) as [r |]; [| discriminate].
  now rewrite andb_true_iff.
Qed.

Lemma trimEnd_cons (c : ascii) (r : string) :
  trimEnd (String c r) = EmptyString
  \/ trimEnd (String c r) = String c (trimEnd r).
Proof.
  simpl. destruct (isWhiteSpace c && isEmpty (trimEnd r)); [now left | now right].
Qed.

Lemma startsWithDigit_trimEnd (s : string) :
  startsWithDigit (trimEnd s) = true -> startsWithDigit s = true.
Proof.
  destruct s as [| c r]; [easy |].
  destruct (trimEnd_cons c r) as [-> | ->]; [discriminate | easy].
Qed.

Lemma startsDecimal_cons_trimEnd (c : ascii) (r : string) :
  startsDecimal (String c (trimEnd r)) = true ->
  startsDecimal (String c r) = true.
Proof.
  unfold startsDecimal. simpl.
  destruct (isDigit c); [reflexivity |]. simpl.
  destruct (Ascii.eqb c "."); [| easy].
  apply startsWithDigit_trimEnd.
Qed.

Lemma startsDecimal_trimEnd (s : string) :
  startsDecimal (trimEnd s) = true -> startsDecimal s = true.
Proof.
  destruct s as [| c r]; [easy |].
  destruct (trimEnd_cons c r) as [-> | ->]; [discriminate |].
  apply startsDecimal_cons_trimEnd.
Qed.

Lemma startsDecimal_stripSign_trimEnd (s : string) :
  startsDecimal (stripSign (trimEnd s)) = true ->
  startsDecimal (stripSign s) = true.
Proof.
  destruct s as [| c r]; [easy |].
  destruct (trimEnd_cons c r) as [-> | ->]; [discriminate |].
  simpl stripSign. destruct (isSign c).
  - apply startsDecimal_trimEnd.
  - apply startsDecimal_cons_trimEnd.
Qed.

Lemma startsDecimal_stripSign_trimStart (s : string) :
  startsDecimal (stripSign s) = true ->
  startsDecimal (stripSign (trimStart s)) = true.
Proof.
  destruct s as [| c r]; [easy |].
  simpl trimStart. destruct (isWhiteSpace c) eqn:W; [| easy].
  simpl stripSign. rewrite (whiteSpace_not_sign _ W).
  unfold startsDecimal. simpl.
  rewrite (whiteSpace_not_digit _ W), (whiteSpace_not_dot _ W). discriminate.
Qed.

(** A finite float passes the number test of [detectDataType] and is kept by
    the filters for missing values. *)
Lemma isFiniteFloat_isNumeric (v : value) :
  isFiniteFloat v = true -> isNumeric v = true.
Proof.
  unfold isNumeric, parseFloatIsNaN.
  destruct v as [| | b | lit | s]; simpl; try discriminate; intros H.
  - assert (E : String.eqb lit "NaN" = false).
    { destruct (String.eqb_spec lit "NaN") as [-> | _];
        [discriminate | reflexivity]. }
    rewrite E. simpl.
    apply isUnsignedDecimal_starts, startsDecimal_stripSign_trimStart in H.
    now rewrite H, orb_true_r.
  - unfold isStrDecimalLiteral. rewrite H, !orb_true_r. simpl.
    apply isUnsignedDecimal_starts in H. unfold trim in H.
    apply startsDecimal_stripSign_trimEnd in H.
    now rewrite H, orb_true_r.
Qed.

Lemma isFiniteFloat_isNonNull (v : value) :
  isFiniteFloat v = true -> isNonNull v = true.
Proof.
  destruct v as [| | b | lit | [| c r]]; simpl; try discriminate; reflexivity.
Qed.

Lemma isNonNull_isPresent (v : value) : isNonNull v = true -> isPresent v = true.
Proof. destruct v; simpl; congruence. Qed.

(** The filter of [analyzeColumn] after the filter of [analyzeDataStructure]
    keeps what it keeps alone. *)
Lemma filter_isNonNull_isPresent (l : list value) :
  filter isNonNull (filter isPresent l) = filter isNonNull l.
Proof.
  induction l as [| v rest IH]; [reflexivity |].
  destruct v as [| | b | n | s]; simpl; try (now rewrite IH); try exact IH.
Qed.

Section ProfilerFacts.

Variable isValidDate : value -> bool.
Variable urlParses : string -> bool.
Variable allIntegers allNonNegative : list value -> bool.

Let analysisOf : dataset -> Analysis :=
  analyzeDataStructure isValidDate urlParses allIntegers allNonNegative.

Let profile : string -> list value -> ColumnProfile :=
  analyzeColumn isValidDate urlParses allIntegers allNonNegative.



Lemma profileOf_map (f : string -> ColumnProfile) (columns : list string)
  (column : string) :
  In column columns ->
  profileOf (map (fun c => (c, f c)) columns) column = Some (f column).
Proof.
  induction columns as [| c rest IH]; simpl; [intros [] |].
  destruct (String.eqb_spec c column) as [-> | Hne]; [reflexivity |].
  intros [H | H]; [contradiction | now apply IH].
Qed.

(** The profile stored for a column of the first record is the one
    [analyzeColumn] makes from the column's sample values. *)
Lemma profileOf_analysis (data : dataset) (column : string) :
  In column (an_columns (analysisOf data)) ->
  profileOf (an_columnAnalysis (analysisOf data)) column
  = Some (profile column (sampleValues (sampleOf data) column)).
Proof.
  intros H.
  exact (profileOf_map
           (fun c => profile c (sampleValues (sampleOf data) c)) _ _ H).
Qed.

Lemma sample_nonempty (data : dataset) (column : string) :
  In column (an_columns (analysisOf data)) -> sampleOf data <> [].
Proof.
  unfold analysisOf, analyzeDataStructure, sampleOf.
  cbn [an_columns].
  destruct (firstn (Nat.min 100 (List.length data)) data); [intros [] | easy].
Qed.


Lemma detectDataType_numeric (values : list value) :
  values <> [] ->
  forallb isNumeric (firstn 10 values) = true ->
  detectDataType isValidDate urlParses values
  = if forallb isBooleanToken (firstn 10 values) then TBoolean else TNumber.
Proof.
  destruct values as [| v rest]; [congruence |]. intros _ H.
  unfold detectDataType. rewrite H.
  now destruct (forallb isBooleanToken (firstn 10 (v :: rest))).
Qed.

(** C3, as amended.  When every value of a column is a finite float, the
    profiler types the column [boolean] if each of its first ten sample values
    is one of the tokens true, false, 1, 0, yes, no (the boolean test comes
    first), and [number] otherwise; it never types it [string]. *)
Theorem finite_float_column_type :
  forall (data : dataset) (column : string),
    In column (an_columns (analysisOf data)) ->
    (forall row, In row data -> isFiniteFloat (get row column) = true) ->
    exists p,
      profileOf (an_columnAnalysis (analysisOf data)) column = Some p
      /\ col_dataType p
         = (if forallb isBooleanToken
                 (firstn 10 (map (fun row => get row column) (sampleOf data)))
            then TBoolean else TNumber)
      /\ col_dataType p <> TString.
Proof.
  intros data column Hcol Hfin.
  exists (profile column (sampleValues (sampleOf data) column)).
  split; [now apply profileOf_analysis |].
  set (values := map (fun row => get row column) (sampleOf data)).
  assert (Hall : forallb isFiniteFloat values = true).
  { apply forallb_forall. intros v Hv. unfold values in Hv.
    apply in_map_iff in Hv. destruct Hv as [row [<- Hrow]].
    apply Hfin. unfold sampleOf in Hrow. now apply In_firstn in Hrow. }
  assert (Hsample : sampleValues (sampleOf data) column = values).
  { unfold sampleValues. fold values. apply filter_all.
    apply forallb_forall. intros v Hv.
    apply isNonNull_isPresent, isFiniteFloat_isNonNull.
    revert v Hv. now apply forallb_forall. }
  assert (Hkept : filter isNonNull values = values).
  { apply filter_all. apply forallb_forall. intros v Hv.
    apply isFiniteFloat_isNonNull. revert v Hv. now apply forallb_forall. }
  assert (Hnum : forallb isNumeric (firstn 10 values) = true).
  { apply forallb_firstn. apply forallb_forall. intros v Hv.
    apply isFiniteFloat_isNumeric. revert v Hv. now apply forallb_forall. }
  assert (Hne : values <> []).
  { pose proof (sample_nonempty data column Hcol) as Hs. unfold values.
    destruct (sampleOf data); [congruence | discriminate]. }
  rewrite Hsample. unfold profile, analyzeColumn. cbn [col_dataType].
  rewrite Hkept, (detectDataType_numeric Hne Hnum).
  destruct (forallb isBooleanToken (firstn 10 values)); split;
    (reflexivity || discriminate).
Qed.

End ProfilerFacts.

Lemma finite_float_column_type_witness :
  (forall row, In row flags -> isFiniteFloat (get row "price") = true)
  /\ exists p,
       profileOf (an_columnAnalysis
                    (analyzeDataStructure noDate noUrl yes yes flags)) "price"
       = Some p
       /\ col_dataType p = TNumber
       /\ col_dataType p <> TString.
Proof.
  assert (H : forall row, In row flags -> isFiniteFloat (get row "price") = true).
  { intros row [<- | [<- | []]]; reflexivity. }
  split; [exact H |].
  exact (@finite_float_column_type noDate noUrl yes yes flags "price"
           (or_intror (or_introl eq_refl)) H).
Defined.

(** C3 as stated fails: every value of the column [flag] of [flags] is a
    finite float (1 and 0), and the column is typed [boolean]. *)
Lemma finite_float_column_inferred_boolean :
  ~ (forall (isValidDate : value -> bool) (urlParses : string -> bool)
            (allIntegers allNonNegative : list value -> bool)
            (data : dataset) (column : string),
        In column
           (an_columns (analyzeDataStructure isValidDate urlParses
                          allIntegers allNonNegative data)) ->
        (forall row, In row data -> isFiniteFloat (get row column) = true) ->
        exists p,
          profileOf (an_columnAnalysis
                       (analyzeDataStructure isValidDate urlParses
                          allIntegers allNonNegative data)) column = Some p
          /\ col_dataType p = TNumber).
Proof.
  intros H.
  destruct (H noDate noUrl yes yes flags "flag" (or_introl eq_refl))
    as [p [Hp Ht]].
  - intros row [<- | [<- | []]]; reflexivity.
  - vm_compute in Hp. injection Hp as <-. discriminate.
Qed.

(** C8, at the dataset [sparse]: one of the two sample entries of column [a]
    is [null], and the profile counts no null entry and a null percentage of
    zero, because [analyzeDataStructure] drops [null] and [undefined] before
    [analyzeColumn] counts them.  The number of unique values, 1, is the size
    of the set of the non-null sample values. *)
Theorem nullPercentage_misses_null_entries :
  forall (isValidDate : value -> bool) (urlParses : string -> bool)
         (allIntegers allNonNegative : list value -> bool),
    let entries := map (fun row => get row "a") (sampleOf sparse) in
    let p := profileOf (an_columnAnalysis
                          (analyzeDataStructure isValidDate urlParses
                             allIntegers allNonNegative sparse)) "a" in
    List.length entries = 2
    /\ List.length (filter (fun v => negb (isNonNull v)) entries) = 1
    /\ option_map col_nullCount p = Some 0
    /\ option_map col_nullPercentage p = Some (percentage 0 1)
    /\ option_map col_uniqueValues p
       = Some (size (newSet (filter isNonNull entries))).
Proof.
  intros isValidDate urlParses allIntegers allNonNegative entries p.
  unfold p, entries. repeat split; reflexivity.
Qed.

(** ** Running a computation *)

Lemma bind_Ok (S A B : Type) (m : M S A) (k : A -> M S B) (s s' : S) (a : A) :
  m s = (Ok a, s') -> bind m k s = k a s'.
Proof. unfold bind. now intros ->. Qed.

Arguments bind_Ok {S A B m} k {s s' a} _.

Lemma bind_Throw (S A B : Type) (m : M S A) (k : A -> M S B) (s s' : S)
  (e : string) :
  m s = (Throw e, s') -> bind m k s = (Throw e, s').
Proof. unfold bind. now intros ->. Qed.

Arguments bind_Throw {S A B m} k {s s' e} _.

Lemma skipn_nth_error (A : Type) (l : list A) (n : nat) (x : A) :
  nth_error l n = Some x -> skipn n l = x :: skipn (S n) l.
Proof.
  revert l. induction n as [| n IH]; intros [| a l]; simpl; try discriminate.
  - now intros [= ->].
  - intros H. now apply IH.
Qed.

Lemma firstn_seq_min (n start len : nat) :
  firstn n (seq start len) = seq start (Nat.min n len).
Proof.
  revert start len. induction n as [| n IH]; intros start [| len]; simpl;
    try reflexivity.
  now rewrite IH.
Qed.

(** ** The graph-modeling agent *)

Section AgentFacts.

Variable Store : Type.
Variable run : Query -> Store -> result nat * Store.
Variable GraphAnalysis : Type.
Variable analyze : Store -> result GraphAnalysis * Store.
Variable random : nat -> Q.

(** The agent after [n] more calls of [Math.random()]. *)
Let afterDraws (a : Agent Store) (n : nat) : Agent Store :=
  mkAgent (demoMode a) (clearExisting a) (database a) (logged a) (issued a)
          (drawn a + n).

Let nodeId (i : nat) : string := ("node_" ++ natToString i)%string.

Lemma demoNodes_spec (schema : Schema) (records : list StructuredRow) :
  forall (index : nat) (a : Agent Store),
  exists nodes,
    demoNodes random schema index records a
    = (Ok nodes, afterDraws a (List.length records))
    /\ map dn_properties nodes = records
    /\ map dn_id nodes = map nodeId (seq index (List.length records)).
Proof.
  induction records as [| record rest IH]; intros index a.
  - exists []. unfold afterDraws. simpl. rewrite Nat.add_0_r.
    destruct a; now repeat split.
  - destruct (IH (S index)
                 (mkAgent (demoMode a) (clearExisting a) (database a)
                          (logged a) (issued a) (S (drawn a))))
      as [nodes [Hrun [Hprops Hids]]].
    eexists. simpl demoNodes. unfold bind, mathRandom, ret.
    rewrite Hrun. split; [| split].
    + f_equal. unfold afterDraws. simpl. f_equal. lia.
    + simpl. now rewrite Hprops.
    + simpl. now rewrite Hids.
Qed.

Lemma demoEdges_spec (nodes : list DemoNode) (count : nat) :
  forall (first : nat) (a : Agent Store),
    first + count < List.length nodes ->
    exists edges,
      demoEdges random nodes first count a = (Ok edges, afterDraws a count)
      /\ List.length edges = count
      /\ map de_from edges = map dn_id (firstn count (skipn first nodes))
      /\ map de_to edges = map dn_id (firstn count (skipn (S first) nodes)).
Proof.
  induction count as [| count IH]; intros first a Hlen.
  - exists []. unfold afterDraws. simpl. rewrite Nat.add_0_r.
    destruct a; now repeat split.
  - simpl demoEdges.
    destruct (nth_error nodes first) as [source |] eqn:Es;
      [| apply nth_error_None in Es; lia].
    destruct (nth_error nodes (first + 1)) as [target |] eqn:Et;
      [| apply nth_error_None in Et; lia].
    destruct (IH (S first)
                 (mkAgent (demoMode a) (clearExisting a) (database a)
                          (logged a) (issued a) (S (drawn a))))
      as [edges [Hrun [Hn [Hfrom Hto]]]]; [lia |].
    eexists. unfold bind, mathRandom, ret.
    rewrite Hrun. split; [| split; [| split]].
    + f_equal. unfold afterDraws. simpl. f_equal. lia.
    + simpl. now rewrite Hn.
    + rewrite (skipn_nth_error _ _ Es). simpl. now rewrite Hfrom.
    + replace (first + 1) with (S first) in Et by lia.
      rewrite (skipn_nth_error _ _ Et). simpl. now rewrite Hto.
Qed.

Lemma generateDemoGraphData_spec (rows : list StructuredRow) (schema : Schema)
  (a : Agent Store) :
  rows <> [] ->
  exists preview a',
    generateDemoGraphData random rows schema a = (Ok preview, a')
    /\ demoMode a' = demoMode a
    /\ database a' = database a
    /\ issued a' = issued a
    /\ dg_demoMode preview = true
    /\ dg_insights preview = demoInsights
    /\ map dn_properties (dg_nodes preview) = firstn 10 rows
    /\ map dn_id (dg_nodes preview)
       = map nodeId (seq 0 (List.length (dg_nodes preview)))
    /\ List.length (dg_edges preview)
       = Nat.min 5 (List.length (dg_nodes preview) - 1)
    /\ map de_from (dg_edges preview)
       = map nodeId (seq 0 (List.length (dg_edges preview)))
    /\ map de_to (dg_edges preview)
       = map nodeId (seq 1 (List.length (dg_edges preview))).
Proof.
  intros Hrows. unfold generateDemoGraphData.
  unfold bind at 1. unfold info at 1, modify at 1.
  set (a1 := mkAgent _ _ _ _ _ _).
  destruct (demoNodes_spec schema (firstn 10 rows) 0 a1)
    as [nodes [Hnodes [Hprops Hids]]].
  rewrite (bind_Ok _ Hnodes).
  assert (Hn : List.length nodes = List.length (firstn 10 rows)).
  { now rewrite <- Hprops, length_map. }
  assert (Hpos : 0 < List.length nodes).
  { rewrite Hn. destruct rows; [congruence | simpl; lia]. }
  rewrite <- Hn in Hids.
  destruct (@demoEdges_spec nodes (Nat.min 5 (List.length nodes - 1)) 0
              (afterDraws a1 (List.length (firstn 10 rows))))
    as [edges [Hedges [Hcount [Hfrom Hto]]]]; [lia |].
  rewrite (bind_Ok _ Hedges). unfold ret.
  eexists. eexists. split; [reflexivity |]. cbn [dg_demoMode dg_insights
    dg_nodes dg_edges demoMode database issued afterDraws].
  repeat split; try assumption.
  - rewrite Hfrom, Hcount. simpl skipn.
    rewrite <- firstn_map, Hids, firstn_map, firstn_seq_min.
    f_equal. f_equal. lia.
  - rewrite Hto, Hcount.
    rewrite <- firstn_map, <- skipn_map, Hids, skipn_map, skipn_seq,
      firstn_map, firstn_seq_min.
    f_equal. f_equal. lia.
Qed.

(** C2.  When the store is unreachable at initialization (creating the
    driver or checking its connectivity throws), the agent is in demo mode, and
    running it on a non-empty structured dataset throws nothing: it returns a
    preview with [demoMode] set, whose nodes are the first min(10, N) records
    (at most 10), whose edges are min(5, nodes - 1) in number (at most 5) and
    join node i to node i + 1, and whose insights are the three fixed ones.
    No statement is sent to the store. *)
Theorem execute_offline_preview :
  forall (agent0 : Agent Store) (message : string) (data : StructureResult),
    res_structuredData data <> [] ->
    let agent1 := snd (initialize (Throw message) agent0) in
    demoMode agent1 = true
    /\ exists preview agent2,
        GraphModeling.execute run analyze random data agent1
        = (Ok (Preview preview), agent2)
        /\ dg_demoMode preview = true
        /\ map dn_properties (dg_nodes preview)
           = firstn 10 (res_structuredData data)
        /\ List.length (dg_nodes preview)
           = Nat.min 10 (List.length (res_structuredData data))
        /\ List.length (dg_nodes preview) <= 10
        /\ List.length (dg_edges preview)
           = Nat.min 5 (List.length (dg_nodes preview) - 1)
        /\ List.length (dg_edges preview) <= 5
        /\ map de_from (dg_edges preview)
           = map dn_id (firstn (List.length (dg_edges preview))
                               (dg_nodes preview))
        /\ map de_to (dg_edges preview)
           = map dn_id (firstn (List.length (dg_edges preview))
                               (skipn 1 (dg_nodes preview)))
        /\ dg_insights preview = demoInsights
        /\ List.length (dg_insights preview) = 3
        /\ issued agent2 = issued agent0.
Proof.
  intros agent0 message data Hrows agent1.
  split; [reflexivity |].
  unfold GraphModeling.execute. unfold bind at 1. unfold info at 1, modify at 1.
  destruct (res_structuredData data) as [| row rows] eqn:Erows;
    [congruence |].
  unfold bind at 1, gets at 1. cbn [demoMode].
  change (demoMode agent1) with true. cbv iota.
  unfold bind at 1. unfold info at 1, modify at 1.
  set (a3 := mkAgent _ _ _ _ _ _).
  assert (Hsame : issued a3 = issued agent0) by reflexivity.
  destruct (@generateDemoGraphData_spec (row :: rows) (res_schema data) a3)
    as [preview [a4 [Hrun [_ [_ [Hissued [Hmode [Hins [Hprops [Hids
          [Hedges [Hfrom Hto]]]]]]]]]]]]; [discriminate |].
  rewrite (bind_Ok _ Hrun). unfold ret.
  exists preview, a4. split; [reflexivity |].
  assert (Hn : List.length (dg_nodes preview)
               = Nat.min 10 (List.length (row :: rows))).
  { now rewrite <- length_firstn, <- Hprops, length_map. }
  split; [exact Hmode |].
  split; [exact Hprops |].
  split; [exact Hn |].
  split; [lia |].
  split; [exact Hedges |].
  split; [lia |].
  split.
  { rewrite Hfrom, <- firstn_map, Hids, firstn_map, firstn_seq_min.
    f_equal. f_equal. lia. }
  split.
  { rewrite Hto, <- firstn_map, <- skipn_map, Hids, skipn_map, skipn_seq,
      firstn_map, firstn_seq_min.
    f_equal. f_equal. lia. }
  split; [exact Hins |].
  split; [now rewrite Hins | now rewrite Hissued].
Qed.

(** *** The graph model *)

Lemma indexedNames_nodeTypeOf (entity : Entity) :
  indexedNames (nodeTypeOf entity)
  = map prop_name
        (filter (fun prop =>
                   existsb (Pattern_eqb identifier) (prop_patterns prop)
                   || prop_unique prop)
                (ent_properties entity)).
Proof.
  unfold indexedNames, nodeTypeOf. cbn [nt_properties].
  induction (ent_properties entity) as [| prop rest IH]; simpl;
    [reflexivity |].
  destruct (existsb (Pattern_eqb identifier) (prop_patterns prop)
            || prop_unique prop); simpl; now rewrite IH.
Qed.

(** C7.  Compiling the same schema, relationships and column analysis twice
    in a row gives the same graph model, and so does compiling them in any
    other state of the agent: the model depends on the three arguments only,
    and compiling touches neither the store nor the agent's mode.  Its node
    types carry the entities' names and property names, its relationship types
    carry the generated names RELATES_TO_<SOURCE>_<TARGET> followed by the
    names of the semantic relationships of the columns, its uniqueness
    constraints are those of the unique properties, and the indexed properties
    are the identifier-tagged or unique ones. *)
Theorem createGraphModel_idempotent :
  forall (agent agent' : Agent Store) (schema : Schema)
         (relationships : list Relationship) (analysis : Analysis),
    let first := createGraphModel schema relationships analysis agent in
    let second := createGraphModel schema relationships analysis (snd first) in
    exists model,
      fst first = Ok model
      /\ fst second = Ok model
      /\ fst (createGraphModel schema relationships analysis agent') = Ok model
      /\ issued (snd second) = issued agent
      /\ database (snd second) = database agent
      /\ demoMode (snd second) = demoMode agent
      /\ map nt_name (gm_nodeTypes model) = map ent_name (sch_entities schema)
      /\ map (fun nodeType => map np_name (nt_properties nodeType))
             (gm_nodeTypes model)
         = map (fun entity => map prop_name (ent_properties entity))
               (sch_entities schema)
      /\ map rt_name (gm_relationshipTypes model)
         = map (fun rel =>
                  generateRelationshipName (rel_source rel) (rel_target rel))
               relationships
           ++ map rt_name (additionalRelationships (an_columns analysis))
      /\ map nt_constraints (gm_nodeTypes model)
         = map (fun entity =>
                  map (fun prop => mkConstraint "UNIQUE" (prop_name prop))
                      (filter prop_unique (ent_properties entity)))
               (sch_entities schema)
      /\ map indexedNames (gm_nodeTypes model)
         = map (fun entity =>
                  map prop_name
                      (filter (fun prop =>
                                 existsb (Pattern_eqb identifier)
                                         (prop_patterns prop)
                                 || prop_unique prop)
                              (ent_properties entity)))
               (sch_entities schema).
Proof.
  intros agent agent' schema relationships analysis first second.
  eexists. split; [reflexivity |].
  split; [reflexivity |]. split; [reflexivity |].
  split; [reflexivity |]. split; [reflexivity |]. split; [reflexivity |].
  cbn [gm_nodeTypes gm_relationshipTypes].
  split; [| split; [| split; [| split]]].
  - rewrite map_map. reflexivity.
  - rewrite map_map. apply map_ext. intros entity.
    unfold nodeTypeOf. cbn [nt_properties]. now rewrite map_map.
  - rewrite map_app, map_map. reflexivity.
  - rewrite map_map. reflexivity.
  - rewrite map_map. apply map_ext. intros entity.
    apply indexedNames_nodeTypeOf.
Qed.

(** *** Which relationships reach the loader *)

Lemma additionalRelationships_semantic (columns : list string)
  (relType : RelationshipType) :
  In relType (additionalRelationships columns) -> rt_type relType = semantic.
Proof.
  induction columns as [| col1 later IH]; simpl; [intros [] |].
  rewrite in_app_iff. intros [H | H]; [| now apply IH].
  clear IH. induction later as [| col2 rest IH]; simpl in H; [destruct H |].
  destruct (areColumnsRelated col1 col2); [| now apply IH].
  destruct H as [<- | H]; [reflexivity | now apply IH].
Qed.

Lemma detectPotentialRelationships_In (columnName : string)
  (values : list value) (dataType : DataType) (p : PotentialRelationship) :
  In p (detectPotentialRelationships columnName values dataType) ->
  p = mkPotential foreign_key (8 # 10) "Potential foreign key reference"
  \/ p = mkPotential hierarchical (9 # 10) "Parent-child relationship"
  \/ p = mkPotential temporal (7 # 10) "Temporal relationship".
Proof.
  unfold detectPotentialRelationships. rewrite !in_app_iff.
  intros [H | [H | H]];
    match type of H with
    | In _ (if ?c then _ else _) => destruct c
    end; simpl in H; intuition.
Qed.

(** The statements one relationship type makes the loader send are
    foreign-key statements, unless its type is hierarchical or temporal. *)
Lemma sumOver_issued (A : Type) (body : A -> M (Agent Store) nat)
  (l : list A) :
  (forall x a, In x l ->
     exists qs, issued (snd (body x a)) = issued a ++ qs
                /\ Forall isForeignKeyQuery qs) ->
  forall acc a,
    exists qs, issued (snd (sumOver l body acc a)) = issued a ++ qs
               /\ Forall isForeignKeyQuery qs.
Proof.
  induction l as [| x rest IH]; intros Hbody acc a.
  - exists []. simpl. now rewrite app_nil_r.
  - simpl sumOver. unfold bind.
    destruct (Hbody x a (or_introl eq_refl)) as [qs1 [E1 F1]].
    destruct (body x a) as [[n | e] a1] eqn:Eb; simpl in E1.
    + destruct (IH (fun y b Hy => Hbody y b (or_intror Hy)) (acc + n) a1)
        as [qs2 [E2 F2]].
      exists (qs1 ++ qs2). rewrite E2, E1, app_assoc. split; [reflexivity |].
      now apply Forall_app.
    + exists qs1. now split.
Qed.

Lemma createForeignKeyRelationships_issued (rows : list StructuredRow)
  (relType : RelationshipType) (a : Agent Store) :
  exists qs,
    issued (snd (createForeignKeyRelationships run rows relType a))
    = issued a ++ qs
    /\ Forall isForeignKeyQuery qs.
Proof.
  unfold createForeignKeyRelationships, bind, info, modify.
  destruct (filter _ _) as [| v common].
  - exists []. simpl. now rewrite app_nil_r.
  - unfold sessionRun. cbn [database issued].
    destruct (run _ _) as [answer db]. eexists. split; [reflexivity |].
    constructor; [exact I | constructor].
Qed.

(** C9, as amended.  Every relationship [detectRelationships] returns has
    type [foreign_key], and so has every relationship in the [relationships]
    field of the data-structuring result, which is the detector's list for the
    cleaned records and the list the graph-model compiler reads.
    [schema.relationships] holds this list followed by the relationships the
    language model proposed, of whatever type.  The hierarchical (confidence
    0.9) and temporal (confidence 0.7) candidates are entries of a column's
    [potentialRelationships], objects with a type, a confidence and a
    description and without source or target.  The relationship types of a
    graph model compiled from the detector's output, under any schema, are
    foreign-key or semantic, and loading them sends foreign-key statements
    only: the hierarchical and the temporal branch of [loadRelationships] are
    not taken. *)
Theorem detector_output_is_foreign_key :
  (forall (data : dataset) (columns : list string) (r : Relationship),
      In r (detectRelationships data columns) -> rel_type r = foreign_key)
  /\ (forall (columnName : string) (values : list value) (dataType : DataType)
             (p : PotentialRelationship),
         In p (detectPotentialRelationships columnName values dataType) ->
         (pot_type p = hierarchical -> pot_confidence p = (9 # 10)%Q)
         /\ (pot_type p = temporal -> pot_confidence p = (7 # 10)%Q))
  /\ (forall (isValidDate : value -> bool) (urlParses : string -> bool)
             (allIntegers allNonNegative : list value -> bool)
             (ToNumber normalizeDate : value -> value)
             (askSchema : dataset -> LlmReply)
             (input : LoadResult) (result : StructureResult),
         DataStructuring.execute isValidDate urlParses allIntegers
           allNonNegative ToNumber normalizeDate askSchema input
         = Ok result ->
         (forall r, In r (res_relationships result) ->
                    rel_type r = foreign_key)
         /\ exists cleaned,
              cleanData ToNumber normalizeDate (res_originalData result)
                        (res_analysis result)
              = Ok cleaned
              /\ res_relationships result
                 = detectRelationships cleaned
                     (an_columns (res_analysis result))
              /\ sch_relationships (res_schema result)
                 = res_relationships result
                   ++ proposedRelationships (askSchema cleaned))
  /\ (forall (data : dataset) (columns : list string) (schema : Schema)
             (analysis : Analysis) (agent : Agent Store)
             (rows : list StructuredRow),
         exists model agent1,
           createGraphModel schema (detectRelationships data columns) analysis
                            agent
           = (Ok model, agent1)
           /\ (forall relType, In relType (gm_relationshipTypes model) ->
                 rt_type relType = foreign_key \/ rt_type relType = semantic)
           /\ exists statements,
                issued (snd (loadRelationships run rows model agent1))
                = issued agent1 ++ statements
                /\ Forall isForeignKeyQuery statements).
Proof.
  split; [| split; [| split]].
  - intros data columns r Hr. now apply detectRelationships_In in Hr.
  - intros columnName values dataType p Hp.
    apply detectPotentialRelationships_In in Hp.
    destruct Hp as [-> | [-> | ->]]; split; simpl; intros H;
      (reflexivity || discriminate).
  - intros isValidDate urlParses allIntegers allNonNegative ToNumber
      normalizeDate askSchema input result.
    unfold DataStructuring.execute.
    destruct (lr_data input) as [[| row rows] |]; try discriminate.
    destruct (cleanData _ _ _ _) as [cleaned | e] eqn:Hclean;
      [| discriminate].
    intros [= <-].
    cbn [res_relationships res_originalData res_analysis res_schema].
    split.
    + intros r Hr. now apply detectRelationships_In in Hr.
    + exists cleaned. split; [exact Hclean |]. split; [reflexivity |].
      unfold generateSchemaWithLLM.
      destruct (askSchema cleaned) as [| | entities rels constraints];
        simpl; now rewrite ?app_nil_r.
  - intros data columns schema analysis agent rows.
    eexists. eexists. split; [reflexivity |].
    cbn [gm_relationshipTypes].
    assert (Hkinds : forall relType,
      In relType (map relationshipTypeOf (detectRelationships data columns)
                  ++ additionalRelationships (an_columns analysis)) ->
      rt_type relType = foreign_key \/ rt_type relType = semantic).
    { intros relType Hin. apply in_app_iff in Hin. destruct Hin as [Hin | Hin].
      - left. apply in_map_iff in Hin. destruct Hin as [r [<- Hr]].
        simpl. now apply detectRelationships_In in Hr.
      - right. now apply additionalRelationships_semantic in Hin. }
    split; [exact Hkinds |].
    unfold loadRelationships, bind at 1, info at 1, modify at 1.
    cbn [gm_relationshipTypes].
    match goal with
    | |- context [sumOver ?l ?body 0 ?a1] =>
        destruct (@sumOver_issued _ body l) with (acc := 0) (a := a1)
          as [qs [E F]]
    end.
    + intros relType a Hin.
      destruct (Hkinds relType Hin) as [-> | ->].
      * apply createForeignKeyRelationships_issued.
      * exists []. simpl. now rewrite app_nil_r.
    + exists qs. split; [| exact F]. rewrite E. reflexivity.
Qed.

End AgentFacts.

(** C9 as stated fails: for [staff] and a language model that proposes a
    hierarchical relationship, [schema.relationships] of the structuring
    result holds the detector's foreign-key candidate and, after it, the
    hierarchical proposal. *)
Lemma schema_relationships_hold_llm_proposals :
  (exists result,
      DataStructuring.execute noDate noUrl yes yes asIs asIs proposing
        (mkLoadResult (Some staff) (mkMetadata "json" 3 ["id"; "mgr"]))
      = Ok result
      /\ map rel_type (res_relationships result) = [foreign_key]
      /\ map rel_type (sch_relationships (res_schema result))
         = [foreign_key; hierarchical])
  /\ ~ (forall (askSchema : dataset -> LlmReply) (input : LoadResult)
               (result : StructureResult),
           DataStructuring.execute noDate noUrl yes yes asIs asIs askSchema
             input
           = Ok result ->
           forall r, In r (sch_relationships (res_schema result)) ->
                     rel_type r = foreign_key).
Proof.
  assert (E : exists result,
    DataStructuring.execute noDate noUrl yes yes asIs asIs proposing
      (mkLoadResult (Some staff) (mkMetadata "json" 3 ["id"; "mgr"]))
    = Ok result
    /\ map rel_type (res_relationships result) = [foreign_key]
    /\ sch_relationships (res_schema result)
       = res_relationships result ++ [reportsTo]).
  { eexists. split; [reflexivity |]. split; reflexivity. }
  destruct E as [result [E [Hdetected Hschema]]]. split.
  - exists result. split; [exact E |]. split; [exact Hdetected |].
    now rewrite Hschema, map_app, Hdetected.
  - intros H. specialize (H proposing _ result E reportsTo).
    rewrite Hschema, in_app_iff in H.
    specialize (H (or_intror (or_introl eq_refl))). discriminate.
Qed.

(** ** The orchestrator *)

Lemma updateAt_length (A : Type) (n : nat) (f : A -> A) (l : list A) :
  List.length (updateAt n f l) = List.length l.
Proof.
  revert n. induction l as [| x rest IH]; intros [| n]; simpl;
    try reflexivity.
  now rewrite IH.
Qed.

Lemma updateAt_last (A : Type) (f : A -> A) (l : list A) (x : A) :
  updateAt (List.length l) f (l ++ [x]) = l ++ [f x].
Proof.
  induction l as [| y rest IH]; simpl; [reflexivity |]. now rewrite IH.
Qed.

Section JobsFacts.

Variable LoadR StructR GraphR : Type.
Variable World : Type.
Variable dataLoader : DataSource -> M World LoadR.
Variable dataStructuringAgent : LoadR -> M World StructR.
Variable graphModelingAgent : StructR -> M World GraphR.
Variable jobIdAt : nat -> string.

Local Abbreviation OState := (State LoadR StructR GraphR World).
Local Abbreviation OJob := (Job LoadR StructR GraphR).
Local Abbreviation process :=
  (processData dataLoader dataStructuringAgent graphModelingAgent jobIdAt).
Local Abbreviation inOrder :=
  (runInOrder dataLoader dataStructuringAgent graphModelingAgent jobIdAt).

(** *** Keeping an invariant through a computation *)

Lemma keeps_ret (A : Type) (P : OState -> Prop) (a : A) : keeps P (ret a).
Proof. intros s H. exact H. Qed.

Lemma keeps_throw (A : Type) (P : OState -> Prop) (e : string) :
  keeps P (@throw OState A e).
Proof. intros s H. exact H. Qed.

Lemma keeps_bind (A B : Type) (P : OState -> Prop) (m : M OState A)
  (k : A -> M OState B) :
  keeps P m -> (forall a, keeps P (k a)) -> keeps P (bind m k).
Proof.
  intros Hm Hk s H. unfold bind. specialize (Hm s H).
  destruct (m s) as [[a | e] s1]; simpl in *; [now apply Hk | exact Hm].
Qed.

Lemma keeps_tryCatch (A : Type) (P : OState -> Prop) (m : M OState A)
  (handler : string -> M OState A) :
  keeps P m -> (forall e, keeps P (handler e)) -> keeps P (tryCatch m handler).
Proof.
  intros Hm Hh s H. unfold tryCatch. specialize (Hm s H).
  destruct (m s) as [[a | e] s1]; simpl in *; [exact Hm | now apply Hh].
Qed.

(** *** The job a run registers stays in place *)

Section Registered.

Variable history : list OJob.
Variable id : string.
Variable jobConfig : JobConfig.

Local Abbreviation here := (registered history id jobConfig).

Lemma registered_mutate (f : OJob -> OJob) :
  (forall j, job_id (f j) = job_id j /\ job_config (f j) = job_config j) ->
  keeps here (mutate (World := World) (List.length history) f).
Proof.
  intros Hf s [job [Hh [Hid Hcfg]]]. exists (f job). simpl.
  rewrite Hh, updateAt_last. destruct (Hf job) as [E1 E2].
  repeat split; congruence.
Qed.

Lemma registered_emit (e : Event) : keeps here (emit (World := World) e).
Proof. intros s H. exact H. Qed.

Lemma registered_callAgent (A : Type) (m : M World A) :
  keeps here (callAgent (LoadR := LoadR) (StructR := StructR)
                        (GraphR := GraphR) m).
Proof.
  intros s H. unfold callAgent. destruct (m (agents s)) as [r w]. exact H.
Qed.

Lemma registered_setStatus (status : Status) :
  keeps here (setStatus (World := World) (List.length history) id status).
Proof.
  unfold setStatus. apply keeps_bind.
  - apply registered_mutate. intros j. now split.
  - intros _ s H. exact H.
Qed.

Lemma registered_pushStep (name : StepName) :
  keeps here (pushStep (World := World) (List.length history) name).
Proof. apply registered_mutate. intros j. now split. Qed.

Lemma registered_completeStep (r : StepResult LoadR StructR GraphR) :
  keeps here (completeStep (World := World) (List.length history) r).
Proof. apply registered_mutate. intros j. now split. Qed.

Lemma registered_failCurrentStep (message : string) :
  keeps here (failCurrentStep (World := World) (List.length history) message).
Proof. apply registered_mutate. intros j. now split. Qed.

End Registered.

(** Whether it returns or throws, [processData] adds one job to the history:
    it has the identifier drawn for it and the configuration given. *)
Lemma processData_registers (jobConfig : JobConfig) (s : OState) :
  registered (jobHistory s) (jobIdAt (idsDrawn s)) jobConfig
             (snd (process jobConfig s)).
Proof.
  unfold processData. unfold bind at 1. unfold generateJobId at 1.
  unfold bind at 1. unfold register at 1. cbn [jobHistory job_id job_status].
  set (history := jobHistory s). set (id := jobIdAt (idsDrawn s)).
  match goal with
  | |- registered _ _ _ (snd (tryCatch ?m ?h ?s0)) =>
      assert (K : keeps (registered history id jobConfig) (tryCatch m h));
      [| apply (K s0)]
  end.
  - apply keeps_tryCatch.
    + repeat first
        [ apply registered_pushStep
        | apply registered_completeStep
        | apply registered_callAgent
        | apply registered_emit
        | apply registered_setStatus
        | apply keeps_ret
        | (apply registered_mutate; intros j; now split)
        | apply keeps_bind; [| intros ?] ].
    + intros e.
      repeat first
        [ apply registered_failCurrentStep
        | apply registered_emit
        | apply registered_setStatus
        | apply keeps_throw
        | (apply registered_mutate; intros j; now split)
        | apply keeps_bind; [| intros ?] ].
  - eexists. cbn [jobHistory]. split; [reflexivity |]. now split.
Qed.

(** *** A run whose second stage throws *)

Lemma processData_structuring_throws (jobConfig : JobConfig) (s : OState)
  (loadResult : LoadR) (w1 w2 : World) (message : string) :
  dataLoader (dataSource jobConfig) (agents s) = (Ok loadResult, w1) ->
  dataStructuringAgent loadResult w1 = (Throw message, w2) ->
  let id := jobIdAt (idsDrawn s) in
  process jobConfig s
  = (Throw message,
     {| agents := w2;
        jobHistory :=
          jobHistory s
          ++ [ {| job_id := id;
                  job_config := jobConfig;
                  job_status := failed;
                  job_steps :=
                    [ mkStep dataLoading completed
                             (Some (LoadStep StructR GraphR loadResult)) None;
                      mkStep dataStructuring failed None (Some message) ];
                  job_result := None;
                  job_error := Some message |} ];
        currentJob := Some (List.length (jobHistory s));
        pending := pending s;
        emitted :=
          emitted s ++ [stepCompleted id dataLoading; jobFailed id message];
        idsDrawn := S (idsDrawn s);
        statusLog := statusLog s ++ [(id, started); (id, failed)] |}).
Proof.
  intros Hload Hstructure id.
  unfold processData, tryCatch, bind, generateJobId, register, pushStep,
    completeStep, failCurrentStep, setStatus, emit, mutate, modify, callAgent,
    throw, bind.
  cbn [agents jobHistory currentJob pending emitted idsDrawn statusLog].
  rewrite Hload.
  cbn [agents jobHistory currentJob pending emitted idsDrawn statusLog].
  rewrite Hstructure.
  cbn [agents jobHistory currentJob pending emitted idsDrawn statusLog
       job_id job_status].
  rewrite !updateAt_last. fold id.
  cbn [job_id job_config job_status job_steps job_result job_error app
       updateLast updateAt List.length Nat.sub step_name step_status
       step_result step_error].
  rewrite <- !app_assoc. reflexivity.
Qed.

(** *** Batches *)

Lemma batchLoop_inOrder (jobConfigs : list JobConfig) :
  forall (i : nat) (results : list (nat * JobResult LoadR StructR GraphR))
         (errors : list (nat * string)) (s : OState),
    batchLoop dataLoader dataStructuringAgent graphModelingAgent jobIdAt
              i jobConfigs results errors s
    = (Ok (results ++ successesFrom i (fst (inOrder jobConfigs s)),
           errors ++ failuresFrom i (fst (inOrder jobConfigs s))),
       snd (inOrder jobConfigs s)).
Proof.
  induction jobConfigs as [| jobConfig rest IH]; intros i results errors s.
  - simpl. now rewrite !app_nil_r.
  - simpl batchLoop. simpl runInOrder. unfold bind, attempt.
    destruct (process jobConfig s) as [[result | message] s1].
    + rewrite IH. destruct (inOrder rest s1) as [outcomes s2]. simpl.
      now rewrite <- app_assoc.
    + rewrite IH. destruct (inOrder rest s1) as [outcomes s2]. simpl.
      now rewrite <- app_assoc.
Qed.

Lemma inOrder_length (jobConfigs : list JobConfig) (s : OState) :
  List.length (fst (inOrder jobConfigs s)) = List.length jobConfigs.
Proof.
  revert s. induction jobConfigs as [| jobConfig rest IH]; intros s;
    [reflexivity |].
  simpl. destruct (process jobConfig s) as [outcome s1].
  specialize (IH s1). destruct (inOrder rest s1) as [outcomes s2].
  simpl in *. now rewrite IH.
Qed.

Lemma inOrder_history (jobConfigs : list JobConfig) (s : OState) :
  List.length (jobHistory (snd (inOrder jobConfigs s)))
  = List.length (jobHistory s) + List.length jobConfigs.
Proof.
  revert s. induction jobConfigs as [| jobConfig rest IH]; intros s.
  - simpl. lia.
  - simpl. destruct (processData_registers jobConfig s) as [job [Hh _]].
    destruct (process jobConfig s) as [outcome s1].
    specialize (IH s1). destruct (inOrder rest s1) as [outcomes s2].
    simpl in *. rewrite IH, Hh, length_app. simpl. lia.
Qed.

Lemma outcomes_split (A : Type) (outcomes : list (result A)) (i : nat) :
  List.length (successesFrom i outcomes)
  + List.length (failuresFrom i outcomes)
  = List.length outcomes.
Proof.
  revert i. induction outcomes as [| [a | e] rest IH]; intros i; simpl;
    [reflexivity | |]; specialize (IH (S i)); lia.
Qed.

Lemma In_successesFrom (A : Type) (outcomes : list (result A)) :
  forall (i k : nat) (a : A),
    In (k, a) (successesFrom i outcomes)
    <-> i <= k /\ nth_error outcomes (k - i) = Some (Ok a).
Proof.
  induction outcomes as [| [b | e] rest IH]; intros i k a; simpl.
  - split; [intros [] |]. intros [_ H]. now destruct (k - i).
  - rewrite IH. split.
    + intros [H | [Hle Hn]].
      * injection H as <- <-. rewrite Nat.sub_diag. now split.
      * split; [lia |]. replace (k - i) with (S (k - S i)) by lia. exact Hn.
    + intros [Hle Hn]. destruct (k - i) as [| d] eqn:E.
      * left. injection Hn as ->. f_equal. lia.
      * right. split; [lia |]. now replace (k - S i) with d by lia.
  - rewrite IH. split.
    + intros [Hle Hn].
      split; [lia |]. replace (k - i) with (S (k - S i)) by lia. exact Hn.
    + intros [Hle Hn]. destruct (k - i) as [| d] eqn:E; [discriminate |].
      split; [lia |]. now replace (k - S i) with d by lia.
Qed.

Lemma In_failuresFrom (A : Type) (outcomes : list (result A)) :
  forall (i k : nat) (e : string),
    In (k, e) (failuresFrom i outcomes)
    <-> i <= k /\ nth_error outcomes (k - i) = Some (Throw e).
Proof.
  induction outcomes as [| [b | e'] rest IH]; intros i k e; simpl.
  - split; [intros [] |]. intros [_ H]. now destruct (k - i).
  - rewrite IH. split.
    + intros [Hle Hn].
      split; [lia |]. replace (k - i) with (S (k - S i)) by lia. exact Hn.
    + intros [Hle Hn]. destruct (k - i) as [| d] eqn:E; [discriminate |].
      split; [lia |]. now replace (k - S i) with d by lia.
  - rewrite IH. split.
    + intros [H | [Hle Hn]].
      * injection H as <- <-. rewrite Nat.sub_diag. now split.
      * split; [lia |]. replace (k - i) with (S (k - S i)) by lia. exact Hn.
    + intros [Hle Hn]. destruct (k - i) as [| d] eqn:E.
      * left. injection Hn as ->. f_equal. lia.
      * right. split; [lia |]. now replace (k - S i) with d by lia.
Qed.

(** C6.  [processBatch] does not throw.  It runs the jobs one after another
    in list order, each in the state the one before it left, whether that one
    returned or threw: a failure stops nothing, every configuration gets its
    run and its job in the history.  The results are the returned values with
    their indices and the errors the thrown messages with their indices, both
    in index order.  In the summary, total is the length of the list,
    successful the number of results, failed the number of errors, and
    successful + failed = total. *)
Theorem processBatch_runs_every_job :
  forall (jobConfigs : list JobConfig) (s : OState),
    let outcomes := fst (inOrder jobConfigs s) in
    let s' := snd (inOrder jobConfigs s) in
    exists batch,
      processBatch dataLoader dataStructuringAgent graphModelingAgent jobIdAt
                   jobConfigs s
      = (Ok batch, s')
      /\ List.length outcomes = List.length jobConfigs
      /\ List.length (jobHistory s')
         = List.length (jobHistory s) + List.length jobConfigs
      /\ br_results batch = successesFrom 0 outcomes
      /\ br_errors batch = failuresFrom 0 outcomes
      /\ (forall i result,
             In (i, result) (br_results batch)
             <-> nth_error outcomes i = Some (Ok result))
      /\ (forall i message,
             In (i, message) (br_errors batch)
             <-> nth_error outcomes i = Some (Throw message))
      /\ sum_total (br_summary batch) = List.length jobConfigs
      /\ sum_successful (br_summary batch) = List.length (br_results batch)
      /\ sum_failed (br_summary batch) = List.length (br_errors batch)
      /\ sum_successful (br_summary batch) + sum_failed (br_summary batch)
         = sum_total (br_summary batch).
Proof.
  intros jobConfigs s outcomes s'.
  unfold processBatch, bind. rewrite batchLoop_inOrder. simpl app.
  fold outcomes. fold s'. unfold ret.
  eexists. split; [reflexivity |].
  cbn [br_results br_errors br_summary sum_total sum_successful sum_failed].
  pose proof (inOrder_length jobConfigs s) as Hlen. fold outcomes in Hlen.
  split; [exact Hlen |].
  split; [apply inOrder_history |].
  split; [reflexivity |]. split; [reflexivity |].
  split.
  { intros i result. rewrite In_successesFrom, Nat.sub_0_r.
    split; [now intros [_ H] | intros H; split; [lia | exact H]]. }
  split.
  { intros i message. rewrite In_failuresFrom, Nat.sub_0_r.
    split; [now intros [_ H] | intros H; split; [lia | exact H]]. }
  split; [reflexivity |]. split; [reflexivity |]. split; [reflexivity |].
  rewrite outcomes_split. exact Hlen.
Qed.

(** *** Asynchronous submission *)

(** C10.  [processDataAsync] only queues the job: it registers no job and
    leaves [currentJob] as it is, and it returns the identifier of the job
    that is current at the call, [undefined] when there is none, as on the
    first call of an orchestrator.  An identifier it returns is that of a job
    already in the history.  The job that the queued callback creates later
    gets the next identifier drawn, so the returned identifier is not the
    scheduled job's unless the generator repeats an identifier. *)
Theorem processDataAsync_returns_current_job :
  forall (jobConfig : JobConfig) (s : OState),
    fst (processDataAsync jobConfig s) = Ok (currentJobId s)
    /\ jobHistory (snd (processDataAsync jobConfig s)) = jobHistory s
    /\ currentJob (snd (processDataAsync jobConfig s)) = currentJob s
    /\ pending (snd (processDataAsync jobConfig s)) = pending s ++ [jobConfig]
    /\ (forall w : World,
           fst (processDataAsync jobConfig
                  (initialState LoadR StructR GraphR w)) = Ok None)
    /\ (forall id, currentJobId s = Some id ->
           exists job, In job (jobHistory s) /\ job_id job = id)
    /\ (pending s = [] ->
        exists job,
          jobHistory (snd (runImmediate dataLoader dataStructuringAgent
                             graphModelingAgent jobIdAt
                             (snd (processDataAsync jobConfig s))))
          = jobHistory s ++ [job]
          /\ job_config job = jobConfig
          /\ job_id job = jobIdAt (idsDrawn s)
          /\ ((forall old, In old (jobHistory s) ->
                           job_id old <> jobIdAt (idsDrawn s)) ->
              currentJobId s <> Some (job_id job))).
Proof.
  intros jobConfig s.
  split; [reflexivity |]. split; [reflexivity |]. split; [reflexivity |].
  split; [reflexivity |]. split; [reflexivity |].
  assert (Hold : forall id, currentJobId s = Some id ->
            exists job, In job (jobHistory s) /\ job_id job = id).
  { intros id. unfold currentJobId.
    destruct (currentJob s) as [ref |]; [| discriminate].
    destruct (nth_error (jobHistory s) ref) as [job |] eqn:E;
      [| discriminate].
    simpl. intros [= <-]. exists job. split; [| reflexivity].
    now apply nth_error_In in E. }
  split; [exact Hold |].
  intros Hpending.
  unfold processDataAsync, bind, setImmediate, modify, gets. cbn [snd].
  unfold runImmediate. cbn [pending]. rewrite Hpending. cbn [app].
  unfold tryCatch, bind.
  match goal with
  | |- context [process jobConfig ?s0] =>
      pose proof (processData_registers jobConfig s0) as [job [Hh [Hid Hcfg]]];
      destruct (process jobConfig s0) as [[result | message] s1]
  end; cbn [snd fst ret jobHistory idsDrawn] in *;
    (exists job; split; [exact Hh |]; split; [exact Hcfg |];
     split; [exact Hid |];
     intros Hfresh Hcur; destruct (Hold _ Hcur) as [old [Hin Hsame]];
     apply (Hfresh old Hin); congruence).
Qed.

End JobsFacts.

(** ** The pipeline *)

Lemma structuring_refuses_no_rows
  (isValidDate : value -> bool) (urlParses : string -> bool)
  (allIntegers allNonNegative : list value -> bool)
  (ToNumber normalizeDate : value -> value) (askSchema : dataset -> LlmReply)
  (input : LoadResult) :
  lr_data input = Some [] \/ lr_data input = None ->
  DataStructuring.execute isValidDate urlParses allIntegers allNonNegative
    ToNumber normalizeDate askSchema input
  = Throw "No data provided for structuring".
Proof.
  unfold DataStructuring.execute. now intros [-> | ->].
Qed.

(** C5.  When the loader hands over a dataset with zero rows, the run fails:
    the data-structuring stage throws the error "No data provided for
    structuring", the orchestrator rethrows it, and the job of the run is in
    the history with status [failed], that message as its error, no result,
    the loading step completed and the structuring step failed.  The status
    of the job was set twice, to [started] and then to [failed], and never to
    [completed]; no [jobCompleted] event is emitted. *)
Theorem zero_rows_fail_the_job :
  forall (isValidDate : value -> bool) (urlParses : string -> bool)
         (allIntegers allNonNegative : list value -> bool)
         (ToNumber normalizeDate : value -> value)
         (askSchema : dataset -> LlmReply)
         (readSource : DataSource -> result LoadResult)
         (Store : Type) (run : Query -> Store -> result nat * Store)
         (GraphAnalysis : Type)
         (analyze : Store -> result GraphAnalysis * Store)
         (random : nat -> Q) (jobIdAt : nat -> string)
         (jobConfig : JobConfig)
         (s : State LoadResult StructureResult (GraphResult GraphAnalysis)
                    (Agent Store))
         (loaded : LoadResult),
    DataLoader.execute readSource (dataSource jobConfig) = Ok loaded ->
    lr_data loaded = Some [] ->
    let message := "No data provided for structuring" in
    let id := jobIdAt (idsDrawn s) in
    let outcome :=
      runPipeline isValidDate urlParses allIntegers allNonNegative ToNumber
        normalizeDate askSchema readSource run analyze random jobIdAt
        jobConfig s in
    DataStructuring.execute isValidDate urlParses allIntegers allNonNegative
      ToNumber normalizeDate askSchema loaded = Throw message
    /\ fst outcome = Throw message
    /\ (exists job,
           jobHistory (snd outcome) = jobHistory s ++ [job]
           /\ job_id job = id
           /\ job_status job = failed
           /\ job_error job = Some message
           /\ job_result job = None
           /\ map (fun step => (step_name step, step_status step))
                  (job_steps job)
              = [(dataLoading, completed); (dataStructuring, failed)])
    /\ statusLog (snd outcome) = statusLog s ++ [(id, started); (id, failed)]
    /\ emitted (snd outcome)
       = emitted s ++ [stepCompleted id dataLoading; jobFailed id message].
Proof.
  intros isValidDate urlParses allIntegers allNonNegative ToNumber
    normalizeDate askSchema readSource Store run GraphAnalysis analyze random
    jobIdAt jobConfig s loaded Hload Hrows message id outcome.
  assert (Hrun := @processData_structuring_throws
    LoadResult StructureResult (GraphResult GraphAnalysis) (Agent Store)
    (@loaderStage readSource Store)
    (@structuringStage isValidDate urlParses allIntegers allNonNegative
       ToNumber normalizeDate askSchema Store)
    (graphStage run analyze random) jobIdAt jobConfig s loaded
    (agents s) (agents s) message).
  unfold loaderStage, structuringStage, lift in Hrun.
  rewrite Hload in Hrun.
  rewrite (structuring_refuses_no_rows _ _ _ _ _ _ _ _ (or_introl Hrows))
    in Hrun.
  specialize (Hrun eq_refl eq_refl). cbv zeta in Hrun.
  unfold outcome, runPipeline. unfold loaderStage, structuringStage, lift.
  rewrite Hrun. cbn [fst snd jobHistory statusLog emitted].
  split; [now apply structuring_refuses_no_rows; left |].
  split; [reflexivity |].
  split; [| split; reflexivity].
  eexists. split; [reflexivity |]. now repeat split.
Qed.

Lemma zero_rows_fail_the_job_witness :
  DataLoader.execute sampleReader (dataSource (localFile "empty.csv"))
  = Ok (mkLoadResult (Some []) (mkMetadata "csv" 0 []))
  /\ fst (samplePipeline (localFile "empty.csv") sampleState)
     = Throw "No data provided for structuring"
  /\ map (fun job => (job_id job, job_status job))
         (jobHistory (snd (samplePipeline (localFile "empty.csv") sampleState)))
     = [("job_0", failed)].
Proof.
  split; [reflexivity |].
  destruct (@zero_rows_fail_the_job noDate noUrl yes yes asIs asIs noLlm
              sampleReader unit noStore unit noAnalysis half sampleJobId
              (localFile "empty.csv") sampleState
              (mkLoadResult (Some []) (mkMetadata "csv" 0 []))
              eq_refl eq_refl)
    as [_ [Hthrow [[job [Hhistory [Hid [Hstatus _]]]] _]]].
  split; [exact Hthrow |].
  unfold samplePipeline. rewrite Hhistory. simpl.
  now rewrite Hid, Hstatus.
Defined.

Lemma execute_offline_preview_witness :
  res_structuredData staffResult <> []
  /\ exists preview agent2,
       GraphModeling.execute noStore noAnalysis half staffResult offlineAgent
       = (Ok (Preview preview), agent2)
       /\ dg_demoMode preview = true
       /\ List.length (dg_nodes preview) = 3
       /\ List.length (dg_edges preview) = 2
       /\ List.length (dg_insights preview) = 3.
Proof.
  assert (Hrows : res_structuredData staffResult <> []) by discriminate.
  split; [exact Hrows |].
  destruct (@execute_offline_preview unit noStore unit noAnalysis half
              freshAgent "connect ECONNREFUSED 127.0.0.1:7687" staffResult
              Hrows)
    as [_ [preview [agent2 H]]].
  destruct H as [Hrun [Hmode [_ [Hnodes [_ [Hedges [_ [_ [_ [_ [Hins _]]]]]]]]]]].
  exists preview, agent2.
  split; [exact Hrun |]. split; [exact Hmode |].
  split; [exact Hnodes |]. split; [| exact Hins].
  rewrite Hedges, Hnodes. reflexivity.
Defined.

Lemma processBatch_runs_every_job_witness :
  exists batch,
    fst (sampleBatch [localFile "staff.json"; malformedJob;
                      localFile "staff.json"] sampleState)
    = Ok batch
    /\ map fst (br_results batch) = [0; 2]
    /\ br_errors batch = [(1, "Unsupported source type: ftp")]
    /\ br_summary batch = mkSummary 3 2 1.
Proof.
  destruct (@processBatch_runs_every_job
              LoadResult StructureResult (GraphResult unit) (Agent unit)
              (@loaderStage sampleReader unit)
              (@structuringStage noDate noUrl yes yes asIs asIs noLlm unit)
              (graphStage noStore noAnalysis half) sampleJobId
              [localFile "staff.json"; malformedJob; localFile "staff.json"]
              sampleState)
    as [batch [Hrun [_ [_ [Hresults [Herrors [_ [_ [Htotal [Hok [Hbad _]]]]]]]]]]].
  exists batch.
  split; [unfold sampleBatch, runBatch; now rewrite Hrun |].
  split; [rewrite Hresults; vm_compute; reflexivity |].
  split; [rewrite Herrors; vm_compute; reflexivity |].
  destruct (br_summary batch) as [total successful failed_].
  simpl in Htotal, Hok, Hbad.
  rewrite Htotal, Hok, Hbad, Hresults, Herrors. vm_compute. reflexivity.
Defined.

Lemma processDataAsync_returns_current_job_witness :
  fst (processDataAsync (localFile "staff.json") sampleState) = Ok None
  /\ fst (processDataAsync (localFile "staff.json")
            (snd (samplePipeline (localFile "empty.csv") sampleState)))
     = Ok (Some "job_0").
Proof.
  split.
  - exact (proj1 (@processDataAsync_returns_current_job
                    LoadResult StructureResult (GraphResult unit) (Agent unit)
                    (@loaderStage sampleReader unit)
                    (@structuringStage noDate noUrl yes yes asIs asIs noLlm
                                       unit)
                    (graphStage noStore noAnalysis half) sampleJobId
                    (localFile "staff.json") sampleState)).
  - rewrite (proj1 (@processDataAsync_returns_current_job
                    LoadResult StructureResult (GraphResult unit) (Agent unit)
                    (@loaderStage sampleReader unit)
                    (@structuringStage noDate noUrl yes yes asIs asIs noLlm
                                       unit)
                    (graphStage noStore noAnalysis half) sampleJobId
                    (localFile "staff.json")
                    (snd (samplePipeline (localFile "empty.csv")
                                         sampleState)))).
    vm_compute. reflexivity.
Defined.

(** ** Worked examples *)

(** The dataset [staff]: S1 = {1, 2, 5}, S2 = {5, 1}, both members of S2 are
    in S1, so the overlap is 2/2 and one candidate joins [id] and [mgr]. *)
Example staff_relationships :
  detectRelationships staff ["id"; "mgr"]
  = [ {| rel_type := foreign_key;
         rel_source := "id";
         rel_target := "mgr";
         rel_confidence := 2 # 2;
         rel_description :=
           "Potential foreign key relationship between id and mgr" |} ].
Proof. reflexivity. Qed.

Example staff_types :
  map (fun entry => (fst entry, col_dataType (snd entry)))
      (an_columnAnalysis (analyzeDataStructure noDate noUrl yes yes staff))
  = [("id", TNumber); ("mgr", TNumber)].
Proof. reflexivity. Qed.

Example detectDataType_samples :
  map (detectDataType noDate noUrl)
      [ [Str "yes"; Str "No"; Num "1"];
        [Str "3.14"; Str " 12 "; Str "-1e5"];
        [Str "ann@example.org"; Str "bob@mail.example.com"];
        [Str "+1 (555) 123-4567"; Str "555 0100"];
        [Str "ab-12"; Str "xy_34"];
        [Str "tea"; Str "coffee"];
        [] ]
  = [TBoolean; TNumber; TEmail; TPhone; TId; TString; TUnknown].
Proof. reflexivity. Qed.

(** Two overlapping halves: S1 = {1, 2}, S2 = {2, 3}, the overlap is 1/2,
    which is not greater than 0.5, and nothing is returned. *)
Example half_overlap_is_not_enough :
  detectRelationships
    [ [("a", Num "1"); ("b", Num "2")]; [("a", Num "2"); ("b", Num "3")] ]
    ["a"; "b"]
  = [].
Proof. reflexivity. Qed.

(** A run of the sample system on [staff] without a store: the job completes
    with the preview of three nodes and two edges. *)
Example staff_run_offline :
  match samplePipeline (localFile "staff.json") sampleState with
  | (Ok result, s) =>
      match jr_graphModeling result with
      | Preview preview =>
          (dg_demoMode preview, List.length (dg_nodes preview),
           List.length (dg_edges preview),
           map (fun job => (job_id job, job_status job)) (jobHistory s))
          = (true, 3, 2, [("job_0", completed)])
      | Loaded _ => False
      end
  | (Throw _, _) => False
  end.
Proof. vm_compute. reflexivity. Qed.


(* ===================================================================== *)
(** * Further properties *)
(* ===================================================================== *)

(** Where a property depends on what [row[column]] or
    [analysis.columnAnalysis[column]] is for a key that is absent, it is
    stated for plain records ([plainKeys]): records none of whose keys is a
    name inherited from [Object.prototype]. *)

(** ** Jobs and their records *)

Section JobRecords.

Variable LoadR StructR GraphR : Type.
Variable World : Type.
Variable dataLoader : DataSource -> M World LoadR.
Variable dataStructuringAgent : LoadR -> M World StructR.
Variable graphModelingAgent : StructR -> M World GraphR.
Variable jobIdAt : nat -> string.

Local Abbreviation OState := (State LoadR StructR GraphR World).
Local Abbreviation OJob := (Job LoadR StructR GraphR).
Local Abbreviation process :=
  (processData dataLoader dataStructuringAgent graphModelingAgent jobIdAt).
Local Abbreviation inOrder :=
  (runInOrder dataLoader dataStructuringAgent graphModelingAgent jobIdAt).

Ltac update_last :=
  repeat match goal with
         | |- context [updateAt (List.length ?l) ?f (?l ++ [?x])] =>
             rewrite (updateAt_last f l x)
         end.

Ltac settle :=
  cbn [agents jobHistory currentJob pending emitted idsDrawn statusLog];
  update_last;
  cbn [job_id job_config job_status job_steps job_result job_error app
       updateLast updateAt List.length Nat.sub step_name step_status
       step_result step_error].

Ltac run_job :=
  unfold processData, tryCatch, bind, generateJobId, register, pushStep,
    completeStep, failCurrentStep, setStatus, emit, mutate, modify, callAgent,
    throw, ret, bind;
  settle.

Ltac job_done := settle; rewrite <- ?app_assoc; reflexivity.

Lemma processData_loading_throws (jobConfig : JobConfig) (s : OState)
  (w1 : World) (message : string) :
  dataLoader (dataSource jobConfig) (agents s) = (Throw message, w1) ->
  let id := jobIdAt (idsDrawn s) in
  process jobConfig s
  = (Throw message,
     {| agents := w1;
        jobHistory :=
          jobHistory s
          ++ [ {| job_id := id;
                  job_config := jobConfig;
                  job_status := failed;
                  job_steps := [ mkStep dataLoading failed None (Some message) ];
                  job_result := None;
                  job_error := Some message |} ];
        currentJob := Some (List.length (jobHistory s));
        pending := pending s;
        emitted := emitted s ++ [jobFailed id message];
        idsDrawn := S (idsDrawn s);
        statusLog := statusLog s ++ [(id, started); (id, failed)] |}).
Proof.
  intros Hload id. run_job. rewrite Hload. job_done.
Qed.

Lemma processData_graph_throws (jobConfig : JobConfig) (s : OState)
  (loadResult : LoadR) (structureResult : StructR) (w1 w2 w3 : World)
  (message : string) :
  dataLoader (dataSource jobConfig) (agents s) = (Ok loadResult, w1) ->
  dataStructuringAgent loadResult w1 = (Ok structureResult, w2) ->
  graphModelingAgent structureResult w2 = (Throw message, w3) ->
  let id := jobIdAt (idsDrawn s) in
  process jobConfig s
  = (Throw message,
     {| agents := w3;
        jobHistory :=
          jobHistory s
          ++ [ {| job_id := id;
                  job_config := jobConfig;
                  job_status := failed;
                  job_steps :=
                    [ mkStep dataLoading completed
                             (Some (LoadStep StructR GraphR loadResult)) None;
                      mkStep dataStructuring completed
                             (Some (StructureStep LoadR GraphR structureResult))
                             None;
                      mkStep graphModeling failed None (Some message) ];
                  job_result := None;
                  job_error := Some message |} ];
        currentJob := Some (List.length (jobHistory s));
        pending := pending s;
        emitted :=
          emitted s ++ [stepCompleted id dataLoading;
                        stepCompleted id dataStructuring;
                        jobFailed id message];
        idsDrawn := S (idsDrawn s);
        statusLog := statusLog s ++ [(id, started); (id, failed)] |}).
Proof.
  intros Hload Hstructure Hgraph id. run_job. rewrite Hload. settle.
  rewrite Hstructure. settle. rewrite Hgraph. job_done.
Qed.

Lemma processData_succeeds (jobConfig : JobConfig) (s : OState)
  (loadResult : LoadR) (structureResult : StructR) (graphResult : GraphR)
  (w1 w2 w3 : World) :
  dataLoader (dataSource jobConfig) (agents s) = (Ok loadResult, w1) ->
  dataStructuringAgent loadResult w1 = (Ok structureResult, w2) ->
  graphModelingAgent structureResult w2 = (Ok graphResult, w3) ->
  let id := jobIdAt (idsDrawn s) in
  let result := mkJobResult loadResult structureResult graphResult in
  process jobConfig s
  = (Ok result,
     {| agents := w3;
        jobHistory :=
          jobHistory s
          ++ [ {| job_id := id;
                  job_config := jobConfig;
                  job_status := completed;
                  job_steps :=
                    [ mkStep dataLoading completed
                             (Some (LoadStep StructR GraphR loadResult)) None;
                      mkStep dataStructuring completed
                             (Some (StructureStep LoadR GraphR structureResult))
                             None;
                      mkStep graphModeling completed
                             (Some (GraphStep LoadR StructR graphResult)) None ];
                  job_result := Some result;
                  job_error := None |} ];
        currentJob := Some (List.length (jobHistory s));
        pending := pending s;
        emitted :=
          emitted s ++ [stepCompleted id dataLoading;
                        stepCompleted id dataStructuring;
                        stepCompleted id graphModeling;
                        jobCompleted id];
        idsDrawn := S (idsDrawn s);
        statusLog := statusLog s ++ [(id, started); (id, completed)] |}).
Proof.
  intros Hload Hstructure Hgraph id result. run_job. rewrite Hload. settle.
  rewrite Hstructure. settle. rewrite Hgraph. job_done.
Qed.

(** X1.  Every run of [processData] adds exactly one job to the history,
    makes it the current job and draws one identifier, and what the run
    answers and what the job record says agree.  When the run returns, the
    job is [completed], holds the returned result and no error, its three
    steps are completed in the order loading, structuring, graph modeling,
    and the events are one [stepCompleted] per stage followed by
    [jobCompleted].  When the run throws, the job is [failed] with the thrown
    message as its error and no result, the stages before the failing one
    are completed, the failing one is the last step and carries the message,
    no later stage was started, and the events are one [stepCompleted] per
    completed stage followed by [jobFailed]. *)
Theorem processData_outcome_and_record :
  forall (jobConfig : JobConfig) (s : OState),
    let id := jobIdAt (idsDrawn s) in
    let outcome := fst (process jobConfig s) in
    let s' := snd (process jobConfig s) in
    exists (job : OJob) (done : nat),
      jobHistory s' = jobHistory s ++ [job]
      /\ currentJob s' = Some (List.length (jobHistory s))
      /\ pending s' = pending s
      /\ idsDrawn s' = S (idsDrawn s)
      /\ job_id job = id
      /\ job_config job = jobConfig
      /\ match outcome with
         | Ok result =>
             done = 3
             /\ job_status job = completed
             /\ job_result job = Some result
             /\ job_error job = None
             /\ map (fun step => (step_name step, step_status step,
                                  step_error step))
                    (job_steps job)
                = map (fun name => (name, completed, None)) stages
             /\ emitted s'
                = emitted s ++ map (stepCompleted id) stages
                            ++ [jobCompleted id]
             /\ statusLog s' = statusLog s ++ [(id, started); (id, completed)]
         | Throw message =>
             done < 3
             /\ job_status job = failed
             /\ job_result job = None
             /\ job_error job = Some message
             /\ map (fun step => (step_name step, step_status step,
                                  step_error step))
                    (job_steps job)
                = map (fun name => (name, completed, None))
                      (firstn done stages)
                  ++ map (fun name => (name, failed, Some message))
                         (firstn 1 (skipn done stages))
             /\ emitted s'
                = emitted s ++ map (stepCompleted id) (firstn done stages)
                            ++ [jobFailed id message]
             /\ statusLog s' = statusLog s ++ [(id, started); (id, failed)]
         end.
Proof.
  intros jobConfig s id outcome s'. subst outcome s'.
  destruct (dataLoader (dataSource jobConfig) (agents s))
    as [[loadResult | message] w1] eqn:Hload.
  - destruct (dataStructuringAgent loadResult w1)
      as [[structureResult | message] w2] eqn:Hstructure.
    + destruct (graphModelingAgent structureResult w2)
        as [[graphResult | message] w3] eqn:Hgraph.
      * rewrite (processData_succeeds _ _ Hload Hstructure Hgraph).
        eexists. exists 3. cbn [fst snd jobHistory currentJob pending idsDrawn
                                emitted statusLog].
        split; [reflexivity |]. now repeat split.
      * rewrite (processData_graph_throws _ _ Hload Hstructure Hgraph).
        eexists. exists 2. cbn [fst snd jobHistory currentJob pending idsDrawn
                                emitted statusLog].
        split; [reflexivity |]. repeat split. lia.
    + rewrite (@processData_structuring_throws LoadR StructR GraphR World
                 dataLoader dataStructuringAgent graphModelingAgent jobIdAt
                 jobConfig s loadResult w1 w2 message Hload Hstructure).
      eexists. exists 1. cbn [fst snd jobHistory currentJob pending idsDrawn
                              emitted statusLog].
      split; [reflexivity |]. repeat split. lia.
  - rewrite (processData_loading_throws _ _ Hload).
    eexists. exists 0. cbn [fst snd jobHistory currentJob pending idsDrawn
                            emitted statusLog].
    split; [reflexivity |]. repeat split. lia.
Qed.

(** The job a run leaves in the history, as far as the views show it. *)
Lemma processData_final (jobConfig : JobConfig) (s : OState) :
  exists job : OJob,
    jobHistory (snd (process jobConfig s)) = jobHistory s ++ [job]
    /\ idsDrawn (snd (process jobConfig s)) = S (idsDrawn s)
    /\ job_id job = jobIdAt (idsDrawn s)
    /\ job_status job = match fst (process jobConfig s) with
                        | Ok _ => completed
                        | Throw _ => failed
                        end
    /\ job_error job = match fst (process jobConfig s) with
                       | Ok _ => None
                       | Throw message => Some message
                       end.
Proof.
  destruct (dataLoader (dataSource jobConfig) (agents s))
    as [[loadResult | message] w1] eqn:Hload.
  - destruct (dataStructuringAgent loadResult w1)
      as [[structureResult | message] w2] eqn:Hstructure.
    + destruct (graphModelingAgent structureResult w2)
        as [[graphResult | message] w3] eqn:Hgraph.
      * rewrite (processData_succeeds _ _ Hload Hstructure Hgraph).
        eexists. split; [reflexivity |]. now repeat split.
      * rewrite (processData_graph_throws _ _ Hload Hstructure Hgraph).
        eexists. split; [reflexivity |]. now repeat split.
    + rewrite (@processData_structuring_throws LoadR StructR GraphR World
                 dataLoader dataStructuringAgent graphModelingAgent jobIdAt
                 jobConfig s loadResult w1 w2 message Hload Hstructure).
      eexists. split; [reflexivity |]. now repeat split.
  - rewrite (processData_loading_throws _ _ Hload).
    eexists. split; [reflexivity |]. now repeat split.
Qed.

Lemma find_last (A : Type) (p : A -> bool) (l : list A) (x : A) :
  find p (l ++ [x])
  = match find p l with
    | Some y => Some y
    | None => if p x then Some x else None
    end.
Proof.
  induction l as [| y rest IH]; simpl; [reflexivity |].
  now destruct (p y).
Qed.

Lemma find_id_None (jobs : list OJob) (id : string) :
  find (fun j => String.eqb (job_id j) id) jobs = None
  <-> forall job, In job jobs -> job_id job <> id.
Proof.
  split.
  - intros H job Hin E.
    apply (find_none _ _ H) in Hin. apply String.eqb_neq in Hin. now apply Hin.
  - intros H. induction jobs as [| job rest IH]; [reflexivity |]. simpl.
    destruct (String.eqb (job_id job) id) eqn:E.
    + apply String.eqb_eq in E. exfalso. apply (H job); [now left | exact E].
    + apply IH. intros j Hj. apply H. now right.
Qed.

(** X2.  After a run of [processData] whose identifier no older job has,
    [getJobStatus] of that identifier answers the job of the run: its status
    is [completed] when the run returned and [failed] with the thrown message
    as error when it threw.  The older jobs answer as they did before the
    run.  An identifier that is neither the new one nor that of an older job
    makes [getJobStatus] throw the error that the job is not found, and the
    state is never changed. *)
Theorem getJobStatus_after_run :
  forall (jobConfig : JobConfig) (s : OState),
    (forall old, In old (jobHistory s) -> job_id old <> jobIdAt (idsDrawn s)) ->
    let id := jobIdAt (idsDrawn s) in
    let outcome := fst (process jobConfig s) in
    let s' := snd (process jobConfig s) in
    (exists view,
        getJobStatus id s' = (Ok view, s')
        /\ jv_id view = id
        /\ jv_status view = match outcome with
                            | Ok _ => completed
                            | Throw _ => failed
                            end
        /\ jv_error view = match outcome with
                           | Ok _ => None
                           | Throw message => Some message
                           end)
    /\ (forall old, In old (jobHistory s) ->
           fst (getJobStatus (job_id old) s')
           = fst (getJobStatus (job_id old) s))
    /\ (forall other,
           other <> id ->
           (forall old, In old (jobHistory s) -> job_id old <> other) ->
           getJobStatus other s'
           = (Throw ("Job " ++ other ++ " not found")%string, s')).
Proof.
  intros jobConfig s Hfresh id outcome s'. subst outcome s'.
  destruct (processData_final jobConfig s)
    as [job [Hhistory [_ [Hid [Hstatus Herror]]]]].
  fold id in Hid. unfold getJobStatus. rewrite Hhistory.
  split; [| split].
  - rewrite find_last. apply find_id_None in Hfresh. fold id in Hfresh.
    rewrite Hfresh, Hid, String.eqb_refl.
    eexists. split; [reflexivity |]. cbn [viewOf jv_id jv_status jv_error].
    now repeat split.
  - intros old Hin. rewrite find_last.
    destruct (find (fun j => String.eqb (job_id j) (job_id old)) (jobHistory s))
      as [found |] eqn:E; [reflexivity |].
    exfalso. apply (proj1 (find_id_None _ _) E old Hin). reflexivity.
  - intros other Hother Hold. rewrite find_last.
    apply find_id_None in Hold. rewrite Hold, Hid.
    destruct (String.eqb id other) eqn:E; [| reflexivity].
    apply String.eqb_eq in E. congruence.
Qed.

Lemma inOrder_entries (jobConfigs : list JobConfig) (s : OState) :
  map (@entryOf LoadR StructR GraphR) (jobHistory (snd (inOrder jobConfigs s)))
  = map (@entryOf LoadR StructR GraphR) (jobHistory s)
    ++ entriesFrom jobIdAt (idsDrawn s) (fst (inOrder jobConfigs s)).
Proof.
  revert s. induction jobConfigs as [| jobConfig rest IH]; intros s.
  - simpl. now rewrite app_nil_r.
  - simpl.
    destruct (processData_final jobConfig s)
      as [job [Hhistory [Hdrawn [Hid [Hstatus Herror]]]]].
    destruct (process jobConfig s) as [outcome s1].
    specialize (IH s1). destruct (inOrder rest s1) as [outcomes s2].
    cbn [fst snd] in *. rewrite IH, Hhistory, Hdrawn, map_app, <- app_assoc.
    f_equal. unfold entryOf at 1. cbn [map app].
    rewrite Hid, Hstatus, Herror. now destruct outcome.
Qed.

Lemma entriesFrom_length
  (outcomes : list (result (JobResult LoadR StructR GraphR))) (k : nat) :
  List.length (entriesFrom jobIdAt k outcomes) = List.length outcomes.
Proof.
  revert k. induction outcomes as [| [r | e] rest IH]; intros k; simpl;
    [reflexivity | |]; now rewrite IH.
Qed.

Lemma entriesFrom_nth (outcomes : list (result (JobResult LoadR StructR GraphR))) :
  forall (k i : nat),
    i < List.length outcomes ->
    exists entry,
      nth_error (entriesFrom jobIdAt k outcomes) i = Some entry
      /\ je_id entry = jobIdAt (k + i)
      /\ match nth_error outcomes i with
         | Some (Ok _) => je_status entry = completed /\ je_error entry = None
         | Some (Throw message) =>
             je_status entry = failed /\ je_error entry = Some message
         | None => False
         end.
Proof.
  induction outcomes as [| outcome rest IH]; intros k i Hi;
    [simpl in Hi; lia |].
  destruct i as [| i].
  - rewrite Nat.add_0_r. destruct outcome; simpl; eexists;
      (split; [reflexivity |]); now repeat split.
  - simpl in Hi. destruct (IH (S k) i) as [entry [Hn [Hid Hrest]]]; [lia |].
    exists entry. replace (k + S i) with (S k + i) by lia.
    destruct outcome; simpl; now repeat split.
Qed.

(** X3.  After [processBatch], [getJobHistory] lists what it listed before,
    unchanged and in the same order, followed by one entry per job of the
    batch, in batch order.  The entry of the [i]-th job has the [i]-th
    identifier drawn since the batch began; it is [completed] without error
    when that job returned and [failed] with the thrown message as error when
    it threw. *)
Theorem getJobHistory_after_batch :
  forall (jobConfigs : list JobConfig) (s : OState),
    let outcomes := fst (inOrder jobConfigs s) in
    let s' := snd (processBatch dataLoader dataStructuringAgent
                     graphModelingAgent jobIdAt jobConfigs s) in
    exists before added,
      fst (getJobHistory s) = Ok before
      /\ fst (getJobHistory s') = Ok (before ++ added)
      /\ List.length added = List.length jobConfigs
      /\ forall i, i < List.length jobConfigs ->
           exists entry,
             nth_error added i = Some entry
             /\ je_id entry = jobIdAt (idsDrawn s + i)
             /\ match nth_error outcomes i with
                | Some (Ok _) =>
                    je_status entry = completed /\ je_error entry = None
                | Some (Throw message) =>
                    je_status entry = failed
                    /\ je_error entry = Some message
                | None => False
                end.
Proof.
  intros jobConfigs s outcomes s'.
  exists (map (@entryOf LoadR StructR GraphR) (jobHistory s)),
         (entriesFrom jobIdAt (idsDrawn s) outcomes).
  split; [reflexivity |].
  assert (Hs' : s' = snd (inOrder jobConfigs s)).
  { unfold s', processBatch, bind. rewrite batchLoop_inOrder.
    cbn [app]. reflexivity. }
  pose proof (inOrder_length dataLoader dataStructuringAgent
                graphModelingAgent jobIdAt jobConfigs s) as Hlen.
  fold outcomes in Hlen.
  split.
  { unfold getJobHistory, gets. cbn [fst]. rewrite Hs'.
    now rewrite inOrder_entries. }
  split.
  { now rewrite entriesFrom_length. }
  intros i Hi. apply entriesFrom_nth. now rewrite Hlen.
Qed.

End JobRecords.

(** ** The pipeline of steps *)

Section StepsFacts.

Variable Data : Type.
Variable World : Type.

Lemma last_cons (y d : Data) (results : list Data) (x : Data) :
  last (d :: results) y = last (y :: d :: results) x.
Proof.
  cbn [last]. revert d. induction results as [| e rest IH]; intros d;
    [reflexivity |].
  cbn [last]. apply IH.
Qed.

Lemma executeFrom_cons (step : PipelineStep Data World)
  (rest : list (PipelineStep Data World)) (i : nat) (x : Data)
  (r : Runner Data World) :
  executeFrom i (step :: rest) x r
  = match ps_execute step x (rn_world r) with
    | (Ok y, w) =>
        executeFrom (S i) rest y
          (mkRunner w (rn_pipeline r)
             (rn_emitted r ++ [pipelineStepCompleted (i + 1) (ps_name step) y]))
    | (Throw message, w) =>
        (Throw message,
         mkRunner w (rn_pipeline r)
           (rn_emitted r ++ [pipelineStepFailed (i + 1) (ps_name step) message]))
    end.
Proof.
  cbn [executeFrom]. unfold bind, tryCatch, runStep, emitStep, modify, throw, ret.
  now destruct (ps_execute step x (rn_world r)) as [[y | message] w].
Qed.

Lemma last_after (y : Data) (results : list Data) (x : Data) :
  last (y :: results) x = last results y.
Proof.
  destruct results as [| d results]; [reflexivity |].
  symmetry. apply last_cons.
Qed.

Lemma executeFrom_events (steps : list (PipelineStep Data World)) :
  forall (i : nat) (x : Data) (r : Runner Data World),
    rn_pipeline (snd (executeFrom i steps x r)) = rn_pipeline r
    /\ exists (results : list Data) (w : World),
         ranInOrder (firstn (List.length results) steps) x (rn_world r)
                    results w
         /\ rn_emitted (snd (executeFrom i steps x r))
            = rn_emitted r ++ completions i steps results
              ++ match fst (executeFrom i steps x r),
                       nth_error steps (List.length results) with
                 | Throw message, Some step =>
                     [pipelineStepFailed (i + List.length results + 1)
                                         (ps_name step) message]
                 | _, _ => []
                 end
         /\ match fst (executeFrom i steps x r) with
            | Ok y =>
                List.length results = List.length steps
                /\ y = last results x
                /\ rn_world (snd (executeFrom i steps x r)) = w
            | Throw message =>
                exists step w',
                  nth_error steps (List.length results) = Some step
                  /\ ps_execute step (last results x) w = (Throw message, w')
                  /\ rn_world (snd (executeFrom i steps x r)) = w'
            end.
Proof.
  induction steps as [| step rest IH]; intros i x r.
  - simpl. split; [reflexivity |]. exists [], (rn_world r). simpl.
    rewrite app_nil_r. split; [constructor |]. now repeat split.
  - rewrite executeFrom_cons.
    destruct (ps_execute step x (rn_world r)) as [[y | message] w1] eqn:Hstep.
    + match goal with
      | |- context [executeFrom (S i) rest y ?r1] =>
          destruct (IH (S i) y r1) as [Hp [results [w [Hran [He Hr]]]]];
          destruct (executeFrom (S i) rest y r1) as [outcome r2]
      end.
      cbn [fst snd rn_pipeline rn_emitted rn_world] in *.
      split; [exact Hp |]. exists (y :: results), w.
      split; [| split].
      * cbn [List.length firstn]. eapply ran_next; eassumption.
      * rewrite He, <- app_assoc. cbn [completions app List.length nth_error].
        replace (i + S (List.length results) + 1)
          with (S i + List.length results + 1) by lia.
        reflexivity.
      * rewrite last_after. destruct outcome as [z | e].
        -- destruct Hr as [Hl [Hz Hw]]. split; [simpl; now rewrite Hl |].
           now split.
        -- destruct Hr as [step' [w' [Hnth [Hthrow Hw]]]].
           exists step', w'. cbn [List.length nth_error]. now repeat split.
    + cbn [fst snd rn_world rn_pipeline rn_emitted].
      split; [reflexivity |]. exists [], (rn_world r).
      cbn [completions app List.length nth_error firstn last].
      rewrite Nat.add_0_r.
      split; [constructor |]. split; [reflexivity |].
      exists step, w1. now repeat split.
Qed.

(** X4.  [executePipeline] runs the steps of the pipeline in order, each on
    what the step before it returned and in the state the step before it
    left, and stops at the first step that throws.  It emits one
    [pipelineStepCompleted] event per step that returned, numbered from 1 and
    carrying the step's name and result.  When a step throws, after the steps
    before it have returned, it emits one [pipelineStepFailed] event with that
    step's number, name and message and throws the same message; no later
    step is run: the state is the one the failing step left, and no further
    event is emitted.  When it returns, every step has run and returned, the
    value returned is the result of the last step, or the initial data for an
    empty pipeline, and the state is the one the last step left.  The pipeline
    itself is left as it was. *)
Theorem executePipeline_stops_at_first_failure :
  forall (initialData : Data) (r : Runner Data World),
    let outcome := fst (executePipeline initialData r) in
    let r' := snd (executePipeline initialData r) in
    rn_pipeline r' = rn_pipeline r
    /\ exists (results : list Data) (w : World),
         ranInOrder (firstn (List.length results) (rn_pipeline r))
                    initialData (rn_world r) results w
         /\ rn_emitted r'
            = rn_emitted r ++ completions 0 (rn_pipeline r) results
              ++ match outcome,
                       nth_error (rn_pipeline r) (List.length results) with
                 | Throw message, Some step =>
                     [pipelineStepFailed (List.length results + 1)
                                         (ps_name step) message]
                 | _, _ => []
                 end
         /\ match outcome with
            | Ok y =>
                List.length results = List.length (rn_pipeline r)
                /\ y = last results initialData
                /\ rn_world r' = w
            | Throw message =>
                exists step w',
                  nth_error (rn_pipeline r) (List.length results) = Some step
                  /\ ps_execute step (last results initialData) w
                     = (Throw message, w')
                  /\ rn_world r' = w'
            end.
Proof.
  intros initialData r.
  exact (executeFrom_events (rn_pipeline r) 0 initialData r).
Qed.

End StepsFacts.

(** ** Profiles and the schema *)

Lemma addAll_length (values : list value) (acc : set) :
  List.length (fold_left add values acc)
  <= List.length acc + List.length values.
Proof.
  revert acc. induction values as [| v rest IH]; intros acc; simpl; [lia |].
  specialize (IH (add acc v)). unfold add in *.
  destruct (has acc v); [lia |].
  rewrite length_app in IH. simpl in IH. lia.
Qed.

Lemma newSet_length_le (values : list value) :
  size (newSet values) <= List.length values.
Proof. exact (addAll_length values []). Qed.

(** A list that loses no entry when it is made a [Set] has no repetition. *)
Lemma addAll_full (values : list value) :
  forall acc : set,
    List.length (fold_left add values acc)
    = List.length acc + List.length values ->
    NoDup values /\ forall x, In x values -> ~ In x acc.
Proof.
  induction values as [| v rest IH]; intros acc H.
  - split; [constructor | intros x []].
  - simpl in H. pose proof (addAll_length rest (add acc v)) as Hle.
    unfold add in *. destruct (has acc v) eqn:Ehas; [lia |].
    rewrite length_app in Hle. simpl in Hle.
    destruct (IH (acc ++ [v])) as [Hnd Hout].
    { rewrite length_app. simpl. lia. }
    split.
    + constructor; [| exact Hnd].
      intros Hin. apply (Hout v Hin). apply in_or_app. right. now left.
    + intros x [<- | Hin] Hacc.
      * apply has_In in Hacc. congruence.
      * apply (Hout x Hin). apply in_or_app. now left.
Qed.

Lemma newSet_full (values : list value) :
  size (newSet values) = List.length values <-> NoDup values.
Proof.
  split.
  - intros H. now apply (addAll_full values []).
  - intros H. apply same_members_same_length;
      [apply newSet_NoDup | exact H | intros x; apply newSet_In].
Qed.

Lemma filter_length_all (A : Type) (p : A -> bool) (l : list A) :
  List.length (filter p l) = List.length l <-> forallb p l = true.
Proof.
  induction l as [| x rest IH]; simpl; [tauto |].
  pose proof (filter_length_le p rest) as Hle.
  destruct (p x); simpl.
  - rewrite <- IH. split; lia.
  - split; [lia | discriminate].
Qed.

Lemma present_entries (l : list value) :
  List.length (filter isPresent l)
  = List.length (filter isNonNull l) + count_occ value_eq_dec l (Str "").
Proof.
  induction l as [| v rest IH]; [reflexivity |].
  cbn [count_occ]. destruct (value_eq_dec v (Str "")) as [-> | Hne].
  - simpl. lia.
  - destruct v as [| | b | n | s]; simpl; try lia.
    destruct s; [congruence | simpl; lia].
Qed.

Lemma count_occ_empty_In (l : list value) :
  0 < count_occ value_eq_dec l (Str "") <-> In (Str "") l.
Proof. symmetry. apply count_occ_In. Qed.

Lemma sampleOf_full (data : dataset) :
  List.length data <= 100 -> sampleOf data = data.
Proof.
  intros H. unfold sampleOf. rewrite Nat.min_r by exact H. apply firstn_all.
Qed.

Lemma sampleOf_length (data : dataset) :
  List.length (sampleOf data) = Nat.min 100 (List.length data).
Proof.
  unfold sampleOf. rewrite length_firstn. apply Nat.min_l, Nat.le_min_r.
Qed.

Lemma sampleOf_prefix (data extra : dataset) :
  100 <= List.length data -> sampleOf (data ++ extra) = sampleOf data.
Proof.
  intros H. unfold sampleOf.
  rewrite (Nat.min_l 100 (List.length (data ++ extra)))
    by (rewrite length_app; lia).
  rewrite (Nat.min_l 100 (List.length data)) by exact H.
  rewrite firstn_app.
  replace (100 - List.length data) with 0 by lia.
  cbn [firstn]. apply app_nil_r.
Qed.

Lemma hd_sampleOf (data : dataset) : hd [] (sampleOf data) = hd [] data.
Proof.
  unfold sampleOf. destruct data as [| row rest]; [reflexivity |].
  cbn [List.length]. rewrite <- Nat.succ_min_distr. reflexivity.
Qed.

(** [col.nullPercentage > 0] holds exactly when the null count is positive. *)
Lemma isPositive_percentage (count total : nat) :
  count <= total ->
  isPositive (percentage count total) = true <-> 0 < count.
Proof.
  intros Hle. unfold percentage, isPositive.
  destruct total as [| t].
  - split; [discriminate | lia].
  - rewrite negb_true_iff, <- not_true_iff_false, Qle_bool_iff.
    set (d := inject_Z (Z.of_nat (S t))).
    assert (Hd : (0 < d)%Q).
    { unfold d. rewrite <- (Zlt_Qlt 0). lia. }
    split.
    + intros H. destruct count as [| c]; [| lia].
      exfalso. apply H. unfold Qdiv. rewrite Qmult_0_l, Qmult_0_l.
      apply Qle_refl.
    + intros Hc H. apply (Qlt_not_le 0 (inject_Z (Z.of_nat count) / d * 100)%Q);
        [| exact H].
      apply Qmult_lt_0_compat; [| reflexivity].
      apply Qlt_shift_div_l; [exact Hd |]. rewrite Qmult_0_l.
      rewrite <- (Zlt_Qlt 0). lia.
Qed.

(** ** Fields of a record other than [_metadata] *)

Lemma keys_filter_In (p : string * value -> bool) (row : object)
  (column : string) :
  In column (keys (filter p row)) -> In column (keys row).
Proof.
  unfold keys. rewrite !in_map_iff. intros [kv [Hk Hin]].
  apply filter_In in Hin. exists kv. tauto.
Qed.

Lemma keys_filter_NoDup (p : string * value -> bool) (row : object) :
  NoDup (keys row) -> NoDup (keys (filter p row)).
Proof.
  induction row as [| kv rest IH]; [intros; constructor |].
  cbn [keys map filter]. intros Hnd.
  inversion Hnd as [| ? ? Hout Hrest]. subst.
  destruct (p kv); [| now apply IH].
  cbn [map]. constructor; [| now apply IH].
  intros Hin. apply Hout. exact (@keys_filter_In p rest _ Hin).
Qed.

Lemma keys_notMetadata (row : object) (column : string) :
  In column (keys row) -> column <> "_metadata" ->
  In column (keys (filter notMetadata row)).
Proof.
  unfold keys. rewrite !in_map_iff. intros [kv [Hk Hin]] Hne.
  exists kv. split; [assumption |]. apply filter_In. split; [assumption |].
  unfold notMetadata. rewrite Hk.
  destruct (String.eqb_spec column "_metadata"); [contradiction | reflexivity].
Qed.

Lemma get_notMetadata (row : object) (column : string) :
  column <> "_metadata" -> get (filter notMetadata row) column = get row column.
Proof.
  intros Hne. induction row as [| [k v] rest IH]; [reflexivity |].
  cbn [filter get]. unfold notMetadata at 1. cbn [fst].
  destruct (String.eqb_spec k "_metadata") as [-> | Hk]; cbn [negb get].
  - destruct (String.eqb_spec "_metadata" column) as [<- | _];
      [congruence | exact IH].
  - now rewrite IH.
Qed.

Section StructuringFacts.

Variable isValidDate : value -> bool.
Variable urlParses : string -> bool.
Variable allIntegers allNonNegative : list value -> bool.
Variable ToNumber normalizeDate : value -> value.
Variable askSchema : dataset -> LlmReply.

Let analysisOf : dataset -> Analysis :=
  analyzeDataStructure isValidDate urlParses allIntegers allNonNegative.

Let profile : string -> list value -> ColumnProfile :=
  analyzeColumn isValidDate urlParses allIntegers allNonNegative.

Lemma analysis_unfold (data : dataset) :
  analysisOf data
  = {| an_columns := keys (hd [] data);
       an_columnAnalysis :=
         map (fun column =>
                (column, profile column (sampleValues (sampleOf data) column)))
             (keys (hd [] data));
       an_sampleSize := Nat.min 100 (List.length data);
       an_totalRows := List.length data |}.
Proof.
  unfold analysisOf, analyzeDataStructure.
  change (firstn (Nat.min 100 (List.length data)) data) with (sampleOf data).
  now rewrite hd_sampleOf.
Qed.

Lemma detectDataType_unknown (values : list value) :
  detectDataType isValidDate urlParses values = TUnknown <-> values = [].
Proof.
  split; [| now intros ->].
  destruct values as [| v rest]; [reflexivity |].
  unfold detectDataType.
  repeat match goal with
         | |- context [if ?b then _ else _] => destruct b
         end; discriminate.
Qed.

(** X5.  Only the first 100 records are profiled: records after the 100th
    change no column profile.  A dataset of at least 100 records and the same
    dataset with any records appended get the same columns, the same profile
    for every column (type, patterns, statistics, null count, number of
    distinct values, sample values) and the same sample size; only the row
    total differs. *)
Theorem profiles_ignore_records_beyond_100 :
  forall data extra : dataset,
    100 <= List.length data ->
    an_columns (analysisOf (data ++ extra)) = an_columns (analysisOf data)
    /\ an_columnAnalysis (analysisOf (data ++ extra))
       = an_columnAnalysis (analysisOf data)
    /\ an_sampleSize (analysisOf (data ++ extra)) = 100
    /\ an_sampleSize (analysisOf data) = 100
    /\ an_totalRows (analysisOf (data ++ extra))
       = an_totalRows (analysisOf data) + List.length extra.
Proof.
  intros data extra H. rewrite !analysis_unfold.
  cbn [an_columns an_columnAnalysis an_sampleSize an_totalRows].
  assert (Hhd : hd [] (data ++ extra) = hd [] data).
  { destruct data; [simpl in H; lia | reflexivity]. }
  rewrite Hhd, (sampleOf_prefix data extra H), length_app.
  repeat split; apply Nat.min_l; lia.
Qed.

(** X6.  What [analyzeDataStructure] reports, for every dataset.  The sample
    size is min(100, rows) and the row total the number of records; the
    columns are the keys of the first record, each with one profile that
    carries its name.  In the profile of a column, the null count is the
    number of sampled records whose entry is the empty string (entries that
    are [null] or [undefined] are not counted); the number of distinct values
    is at most the number of non-empty entries, and these together with the
    null count are at most the sample size; the sample values are the first
    five non-empty entries; and the type is [unknown] exactly when no sampled
    entry is non-empty.  (For plain records.) *)
Theorem analyzeDataStructure_profiles :
  forall data : dataset,
    plainKeys data ->
    let analysis := analysisOf data in
    an_sampleSize analysis = Nat.min 100 (List.length data)
    /\ an_totalRows analysis = List.length data
    /\ an_columns analysis = keys (hd [] data)
    /\ map fst (an_columnAnalysis analysis) = an_columns analysis
    /\ forall column p,
         In (column, p) (an_columnAnalysis analysis) ->
         let entries := map (fun row => get row column) (sampleOf data) in
         col_name p = column
         /\ col_nullCount p = count_occ value_eq_dec entries (Str "")
         /\ col_uniqueValues p <= List.length (filter isNonNull entries)
         /\ col_nullCount p + List.length (filter isNonNull entries)
            <= an_sampleSize analysis
         /\ col_sampleValues p = firstn 5 (filter isNonNull entries)
         /\ (col_dataType p = TUnknown <-> filter isNonNull entries = []).
Proof.
  intros data _ analysis. subst analysis. rewrite analysis_unfold.
  cbn [an_columns an_columnAnalysis an_sampleSize an_totalRows].
  split; [reflexivity |]. split; [reflexivity |]. split; [reflexivity |].
  split; [rewrite map_map; apply map_id |].
  intros column p Hin.
  apply in_map_iff in Hin. destruct Hin as [c [[= -> <-] _]].
  unfold profile, analyzeColumn, sampleValues.
  cbn [col_name col_nullCount col_uniqueValues col_sampleValues col_dataType].
  set (entries := map (fun row => get row column) (sampleOf data)).
  rewrite filter_isNonNull_isPresent.
  pose proof (present_entries entries) as Hsplit.
  pose proof (filter_length_le isPresent entries) as Hle.
  assert (Hlen : List.length entries = Nat.min 100 (List.length data)).
  { unfold entries. now rewrite length_map, sampleOf_length. }
  split; [reflexivity |]. split; [lia |].
  split; [apply newSet_length_le |]. split; [lia |].
  split; [reflexivity |]. apply detectDataType_unknown.
Qed.

Lemma unique_flag (data : dataset) (column : string) :
  (col_uniqueValues (profile column (sampleValues (sampleOf data) column))
   =? List.length data)%nat = true
  <-> List.length data <= 100
      /\ NoDup (map (fun row => get row column) data)
      /\ forallb isNonNull (map (fun row => get row column) data) = true.
Proof.
  unfold profile, analyzeColumn, sampleValues. cbn [col_uniqueValues].
  rewrite filter_isNonNull_isPresent, Nat.eqb_eq.
  set (entries := map (fun row => get row column) (sampleOf data)).
  pose proof (newSet_length_le (filter isNonNull entries)) as H1.
  pose proof (filter_length_le isNonNull entries) as H2.
  assert (H3 : List.length entries = Nat.min 100 (List.length data)).
  { unfold entries. now rewrite length_map, sampleOf_length. }
  split.
  - intros H.
    assert (Hn : List.length data <= 100) by lia.
    assert (Hall : forallb isNonNull entries = true).
    { apply filter_length_all. lia. }
    rewrite (filter_all _ _ Hall) in H.
    assert (Hnd : NoDup entries).
    { apply newSet_full. lia. }
    unfold entries in Hall, Hnd. rewrite (sampleOf_full _ Hn) in Hall, Hnd.
    now repeat split.
  - intros [Hn [Hnd Hall]]. unfold entries in *.
    rewrite (sampleOf_full _ Hn) in *.
    rewrite (filter_all _ _ Hall).
    rewrite (proj2 (newSet_full _) Hnd). apply length_map.
Qed.

Lemma nullable_flag (data : dataset) (column : string) :
  isPositive
    (col_nullPercentage (profile column (sampleValues (sampleOf data) column)))
  = true
  <-> exists row, In row (sampleOf data) /\ get row column = Str "".
Proof.
  unfold profile, analyzeColumn, sampleValues. cbn [col_nullPercentage].
  rewrite filter_isNonNull_isPresent.
  set (entries := map (fun row => get row column) (sampleOf data)).
  pose proof (present_entries entries) as Hsplit.
  rewrite isPositive_percentage by lia.
  replace (List.length (filter isPresent entries)
           - List.length (filter isNonNull entries))
    with (count_occ value_eq_dec entries (Str "")) by lia.
  rewrite count_occ_empty_In. unfold entries. rewrite in_map_iff.
  split; intros [row [H1 H2]]; exists row; now split.
Qed.

(** X7.  The schema [generateSchema] makes from the profile of a dataset has
    one entity, [MainEntity], with one property per key of the first record,
    in key order, and hands the relationships it is given through unchanged.
    A property is [nullable] exactly when some sampled record has the empty
    string in that column (a [null] or missing entry does not make it
    nullable).  A property is [unique] exactly when the dataset has at most
    100 records and the column's entries over all records are non-empty and
    pairwise distinct.  (For plain records.) *)
Theorem schema_flags :
  forall (data : dataset) (relationships : list Relationship),
    plainKeys data ->
    let schema := generateSchema (analysisOf data) relationships in
    exists properties,
      sch_entities schema = [mkEntity "MainEntity" properties]
      /\ sch_relationships schema = relationships
      /\ sch_constraints schema = []
      /\ map prop_name properties = keys (hd [] data)
      /\ forall prop, In prop properties ->
           (prop_nullable prop = true
            <-> exists row,
                  In row (sampleOf data) /\ get row (prop_name prop) = Str "")
           /\ (prop_unique prop = true
               <-> List.length data <= 100
                   /\ NoDup (map (fun row => get row (prop_name prop)) data)
                   /\ forall row, In row data ->
                                  isNonNull (get row (prop_name prop)) = true).
Proof.
  intros data relationships _ schema. subst schema. unfold generateSchema.
  rewrite analysis_unfold.
  cbn [an_columns an_columnAnalysis an_sampleSize an_totalRows sch_entities
       sch_relationships sch_constraints].
  eexists. split; [reflexivity |]. split; [reflexivity |].
  split; [reflexivity |]. rewrite !map_map. cbn [snd].
  split.
  { unfold profile, analyzeColumn. cbn [prop_name col_name]. apply map_id. }
  intros prop Hin. apply in_map_iff in Hin. destruct Hin as [column [<- _]].
  cbn [prop_name prop_nullable prop_unique].
  replace (col_name (profile column (sampleValues (sampleOf data) column)))
    with column by reflexivity.
  split; [apply nullable_flag |].
  rewrite unique_flag, forallb_forall.
  split; intros [H1 [H2 H3]]; (split; [exact H1 |]); (split; [exact H2 |]).
  - intros row Hrow.
    exact (H3 _ (in_map (fun r => get r column) _ _ Hrow)).
  - intros v Hv. apply in_map_iff in Hv. destruct Hv as [row [<- Hrow]].
    now apply H3.
Qed.

(** ** Cleaning and structuring *)

(** Some record has a non-empty value under a key that is not among
    [columns]. *)
Let strayIn (columns : list string) (row : object) : bool :=
  existsb (fun kv => isNonNull (snd kv) && negb (listIncludes columns (fst kv)))
          row.

Let destructuringError : string :=
  "Cannot destructure property 'dataType' of 'columnAnalysis' as it is undefined.".

(** What [cleanValue] makes of a value of a profiled column. *)
Let cleaned (data : dataset) (kv : string * value) : string * value :=
  (fst kv,
   match cleanValue ToNumber normalizeDate (snd kv)
           (profileOf (an_columnAnalysis (analysisOf data)) (fst kv)) with
   | Ok v => v
   | Throw _ => Null
   end).

Lemma listIncludes_In (l : list string) (s : string) :
  listIncludes l s = true <-> In s l.
Proof.
  unfold listIncludes. rewrite existsb_exists. split.
  - intros [x [Hin E]]. apply String.eqb_eq in E. now subst.
  - intros H. exists s. split; [exact H | apply String.eqb_refl].
Qed.

Lemma profileOf_None (f : string -> ColumnProfile) (columns : list string)
  (column : string) :
  ~ In column columns ->
  profileOf (map (fun c => (c, f c)) columns) column = None.
Proof.
  induction columns as [| c rest IH]; simpl; [reflexivity |].
  intros H. destruct (String.eqb_spec c column) as [-> | Hne]; [tauto |].
  apply IH. tauto.
Qed.

Lemma profileOf_columns (data : dataset) (column : string) :
  profileOf (an_columnAnalysis (analysisOf data)) column
  = if listIncludes (keys (hd [] data)) column
    then Some (profile column (sampleValues (sampleOf data) column))
    else None.
Proof.
  rewrite analysis_unfold. cbn [an_columnAnalysis].
  destruct (listIncludes (keys (hd [] data)) column) eqn:E.
  - apply listIncludes_In in E.
    exact (profileOf_map
             (fun c => profile c (sampleValues (sampleOf data) c)) _ _ E).
  - apply (profileOf_None
             (fun c => profile c (sampleValues (sampleOf data) c))).
    intros H. apply listIncludes_In in H. congruence.
Qed.

Lemma cleanRow_outcome (data : dataset) (row : object) :
  cleanRow ToNumber normalizeDate (analysisOf data) row
  = if strayIn (keys (hd [] data)) row
    then Throw destructuringError
    else Ok (map (cleaned data) row).
Proof.
  induction row as [| [column val] rest IH]; [reflexivity |].
  cbn [cleanRow strayIn existsb fst snd map]. unfold cleaned at 1.
  cbn [fst snd]. rewrite IH. unfold cleanValue.
  rewrite profileOf_columns.
  destruct (isNonNull val); cbn [andb orb].
  - destruct (listIncludes (keys (hd [] data)) column); cbn [negb orb].
    + fold (strayIn (keys (hd [] data)) rest).
      now destruct (strayIn (keys (hd [] data)) rest).
    + reflexivity.
  - fold (strayIn (keys (hd [] data)) rest).
    now destruct (strayIn (keys (hd [] data)) rest).
Qed.

Lemma cleanData_outcome (data rows : dataset) :
  cleanData ToNumber normalizeDate rows (analysisOf data)
  = if existsb (strayIn (keys (hd [] data))) rows
    then Throw destructuringError
    else Ok (map (map (cleaned data)) rows).
Proof.
  induction rows as [| row rest IH]; [reflexivity |].
  cbn [cleanData existsb map]. rewrite cleanRow_outcome, IH.
  destruct (strayIn (keys (hd [] data)) row); cbn [orb]; [reflexivity |].
  now destruct (existsb (strayIn (keys (hd [] data))) rest).
Qed.

Lemma stray_exists (columns : list string) (rows : dataset) :
  existsb (strayIn columns) rows = true
  <-> exists row column val,
        In row rows /\ In (column, val) row
        /\ isNonNull val = true /\ ~ In column columns.
Proof.
  rewrite existsb_exists. split.
  - intros [row [Hrow H]]. unfold strayIn in H. apply existsb_exists in H.
    destruct H as [[column val] [Hkv H]]. cbn [fst snd] in H.
    apply andb_true_iff in H. destruct H as [Hval Hcol].
    exists row, column, val. repeat split; try assumption.
    intros Hin. apply listIncludes_In in Hin.
    rewrite Hin in Hcol. discriminate.
  - intros [row [column [val [Hrow [Hkv [Hval Hcol]]]]]].
    exists row. split; [exact Hrow |]. unfold strayIn.
    apply existsb_exists. exists (column, val). split; [exact Hkv |].
    cbn [fst snd]. rewrite Hval.
    destruct (listIncludes columns column) eqn:E; [| reflexivity].
    apply listIncludes_In in E. contradiction.
Qed.

(** X8.  [cleanData] fails on ragged records.  When some record has a value
    other than [null], [undefined] and the empty string under a key that the
    first record does not have, there is no profile for that key and
    [cleanData] throws the TypeError of destructuring [undefined].  Otherwise
    it returns one record per record, with the same keys in the same order,
    each value being what [cleanValue] makes of it with the profile of its
    column ([null] for an empty value).  (For plain records: under a name
    inherited from [Object.prototype] the profile looked up is not
    [undefined].) *)
Theorem cleanData_fails_on_ragged_records :
  forall data : dataset,
    plainKeys data ->
    let outcome := cleanData ToNumber normalizeDate data (analysisOf data) in
    let ragged :=
      exists row column val,
        In row data /\ In (column, val) row
        /\ isNonNull val = true /\ ~ In column (keys (hd [] data)) in
    (ragged ->
     outcome
     = Throw "Cannot destructure property 'dataType' of 'columnAnalysis' as it is undefined.")
    /\ (~ ragged ->
        exists cleanedData,
          outcome = Ok cleanedData
          /\ map keys cleanedData = map keys data
          /\ forall i j row row' kv kv',
               nth_error data i = Some row ->
               nth_error cleanedData i = Some row' ->
               nth_error row j = Some kv ->
               nth_error row' j = Some kv' ->
               fst kv' = fst kv
               /\ cleanValue ToNumber normalizeDate (snd kv)
                    (profileOf (an_columnAnalysis (analysisOf data)) (fst kv))
                  = Ok (snd kv')
               /\ (isNonNull (snd kv) = false -> snd kv' = Null)).
Proof.
  intros data _ outcome ragged. subst outcome.
  rewrite cleanData_outcome.
  pose proof (stray_exists (keys (hd [] data)) data) as Hstray.
  fold ragged in Hstray.
  destruct (existsb (strayIn (keys (hd [] data))) data) eqn:E.
  - split; [reflexivity |]. intros Hno. exfalso. apply Hno. now apply Hstray.
  - split; [intros H; apply Hstray in H; discriminate |].
    intros _. eexists. split; [reflexivity |].
    split.
    { rewrite map_map. apply map_ext. intros row. unfold keys.
      rewrite map_map. reflexivity. }
    intros i j row row' kv kv' Hrow Hrow' Hkv Hkv'.
    assert (Er : Some row' = Some (map (cleaned data) row)).
    { rewrite <- Hrow'. exact (map_nth_error (map (cleaned data)) i data Hrow). }
    injection Er as ->.
    assert (Ek : Some kv' = Some (cleaned data kv)).
    { rewrite <- Hkv'. exact (map_nth_error (cleaned data) j row Hkv). }
    injection Ek as ->.
    assert (Hin : In row data) by (eapply nth_error_In; eassumption).
    assert (Hkvin : In kv row) by (eapply nth_error_In; eassumption).
    assert (Hok : isNonNull (snd kv) = true ->
                  listIncludes (keys (hd [] data)) (fst kv) = true).
    { intros Hval.
      destruct (listIncludes (keys (hd [] data)) (fst kv)) eqn:Einc;
        [reflexivity |].
      assert (Hs : existsb (strayIn (keys (hd [] data))) data = true);
        [| congruence].
      apply existsb_exists. exists row. split; [exact Hin |].
      unfold strayIn. apply existsb_exists. exists kv.
      split; [exact Hkvin |]. now rewrite Hval, Einc. }
    unfold cleaned. cbn [fst snd]. unfold cleanValue.
    destruct (isNonNull (snd kv)) eqn:Hval.
    + rewrite profileOf_columns, (Hok eq_refl).
      split; [reflexivity |]. split; [reflexivity | discriminate].
    + now repeat split.
Qed.

Lemma strayIn_uniform (columns : list string) (row : object) :
  (forall column, In column (keys row) -> In column columns) ->
  strayIn columns row = false.
Proof.
  intros H. unfold strayIn. apply not_true_iff_false. intros E.
  apply existsb_exists in E. destruct E as [[column val] [Hin E]].
  cbn [fst snd] in E. apply andb_true_iff in E. destruct E as [_ E].
  assert (Hc : listIncludes columns column = true).
  { apply listIncludes_In, H. unfold keys.
    exact (in_map fst _ _ Hin). }
  rewrite Hc in E. discriminate.
Qed.

Lemma structureFrom_length (data : dataset) (index : nat) :
  List.length (structureFrom index data) = List.length data.
Proof.
  revert index. induction data as [| row rest IH]; intros index;
    [reflexivity |].
  simpl. now rewrite IH.
Qed.

Lemma structureFrom_indices (data : dataset) (index : nat) :
  map sr_rowIndex (structureFrom index data) = seq index (List.length data).
Proof.
  revert index. induction data as [| row rest IH]; intros index;
    [reflexivity |].
  simpl. now rewrite IH.
Qed.

Lemma structureFrom_nth (data : dataset) :
  forall index n row,
    nth_error data n = Some row ->
    nth_error (structureFrom index data) n
    = Some (structureRow (index + n) row).
Proof.
  induction data as [| first rest IH]; intros index [| n] row H;
    try discriminate.
  - injection H as <-. now rewrite Nat.add_0_r.
  - simpl in *. rewrite (IH (S index) n row H). do 2 f_equal. lia.
Qed.

(** X9.  On a non-empty dataset in which no record has a key that the first
    record lacks, the data-structuring stage returns: it throws nothing.  The
    result holds the raw data as given and the profile of the raw data, one
    structured record per record (both row counts equal the number of
    records), and relationships whose columns are keys of the first record.
    Whatever the language model answered, the relationships of the schema
    begin with the detected relationships.  (For plain records.) *)
Theorem structuring_succeeds_on_uniform_records :
  forall (input : LoadResult) (data : dataset),
    lr_data input = Some data ->
    data <> [] ->
    plainKeys data ->
    (forall row column,
        In row data -> In column (keys row) -> In column (keys (hd [] data))) ->
    exists result,
      DataStructuring.execute isValidDate urlParses allIntegers allNonNegative
        ToNumber normalizeDate askSchema input
      = Ok result
      /\ res_originalData result = data
      /\ res_analysis result = analysisOf data
      /\ res_originalRowCount result = List.length data
      /\ res_structuredRowCount result = List.length data
      /\ List.length (res_structuredData result) = List.length data
      /\ map sr_rowIndex (res_structuredData result)
         = seq 0 (List.length data)
      /\ (forall r, In r (res_relationships result) ->
            In (rel_source r) (keys (hd [] data))
            /\ In (rel_target r) (keys (hd [] data)))
      /\ exists proposed,
           sch_relationships (res_schema result)
           = res_relationships result ++ proposed.
Proof.
  intros input data Hdata Hrows _ Huniform.
  unfold DataStructuring.execute. rewrite Hdata.
  destruct data as [| first rest] eqn:Edata; [congruence |].
  rewrite <- Edata in *. fold analysisOf.
  rewrite cleanData_outcome.
  assert (Hnone : existsb (strayIn (keys (hd [] data))) data = false).
  { apply not_true_iff_false. intros E. apply existsb_exists in E.
    destruct E as [row [Hin E]].
    rewrite strayIn_uniform in E; [discriminate |].
    intros column Hc. now apply (Huniform row). }
  rewrite Hnone. eexists. split; [reflexivity |].
  cbn [res_originalData res_analysis res_originalRowCount
       res_structuredRowCount res_structuredData res_relationships
       res_schema].
  unfold structureData. rewrite structureFrom_length, !length_map.
  split; [reflexivity |]. split; [reflexivity |]. split; [reflexivity |].
  split; [reflexivity |]. split; [reflexivity |].
  split; [now rewrite structureFrom_indices, length_map |].
  split.
  { intros r Hr. apply detectRelationships_In in Hr.
    rewrite analysis_unfold in Hr. cbn [an_columns] in Hr. tauto. }
  unfold generateSchemaWithLLM.
  destruct (askSchema _) as [| | entities rels constraints].
  - exists []. cbn [sch_relationships generateSchema]. now rewrite app_nil_r.
  - exists []. cbn [sch_relationships generateSchema]. now rewrite app_nil_r.
  - exists rels. reflexivity.
Qed.

Lemma get_setField (o : object) (k k' : string) (v : value) :
  get (setField o k v) k' = if String.eqb k k' then v else get o k'.
Proof.
  induction o as [| [k0 v0] rest IH]; simpl.
  - reflexivity.
  - destruct (String.eqb_spec k0 k) as [-> | Hne]; simpl.
    + now destruct (String.eqb k k').
    + rewrite IH. destruct (String.eqb_spec k0 k') as [-> | Hne'];
        [| reflexivity].
      destruct (String.eqb_spec k k') as [-> | _]; [congruence | reflexivity].
Qed.

Lemma get_absent (o : object) (k : string) :
  ~ In k (keys o) -> get o k = Undefined.
Proof.
  induction o as [| [k0 v0] rest IH]; simpl; [reflexivity |].
  intros H. destruct (String.eqb_spec k0 k) as [-> | Hne]; [tauto |].
  apply IH. tauto.
Qed.

Lemma get_spread (row : object) :
  forall (o : object) (k : string),
    NoDup (keys row) ->
    get (fold_left (fun acc kv => setField acc (fst kv) (snd kv)) row o) k
    = if listIncludes (keys row) k then get row k else get o k.
Proof.
  induction row as [| [k0 v0] rest IH]; intros o k Hnd; [reflexivity |].
  cbn [fold_left fst snd keys map] in *. inversion Hnd as [| ? ? Hout Hrest].
  subst. rewrite (IH _ _ Hrest), get_setField.
  unfold listIncludes. cbn [existsb get].
  rewrite (String.eqb_sym k k0).
  destruct (String.eqb_spec k0 k) as [-> | Hne]; cbn [orb]; [| reflexivity].
  destruct (existsb (String.eqb k) (keys rest)) eqn:E; [| reflexivity].
  exfalso. apply Hout. apply listIncludes_In. exact E.
Qed.

(** X10.  [structureData] keeps every record in place and every field of it.
    The structured record at a position has that position as its row index;
    under every key of the record it has the record's own value; its [id] is
    the position plus one when the record has no [id] key, and the record's
    own [id] otherwise; and it has no other field of its own. *)
Theorem structureData_keeps_the_fields :
  forall (data : dataset) (index : nat) (row : object),
    nth_error data index = Some row ->
    NoDup (keys row) ->
    List.length (structureData data) = List.length data
    /\ exists structured,
         nth_error (structureData data) index = Some structured
         /\ sr_rowIndex structured = index
         /\ (forall column,
                In column (keys row) -> column <> "_metadata" ->
                get (sr_fields structured) column = get row column)
         /\ (~ In "id" (keys row) ->
             get (sr_fields structured) "id" = Num (natToString (index + 1)))
         /\ (forall column,
                ~ In column (keys row) -> column <> "id" ->
                column <> "_metadata" -> ~ In column inheritedNames ->
                get (sr_fields structured) column = Undefined).
Proof.
  intros data index row Hrow Hnd. unfold structureData.
  split; [apply structureFrom_length |].
  rewrite (structureFrom_nth data 0 index Hrow). cbn [Nat.add].
  eexists. split; [reflexivity |]. unfold structureRow.
  cbn [sr_rowIndex sr_fields]. split; [reflexivity |].
  pose proof (@keys_filter_NoDup notMetadata row Hnd) as Hkept.
  split; [| split].
  - intros column Hin Hne. rewrite (get_spread _ _ _ Hkept).
    rewrite (proj2 (listIncludes_In _ _) (@keys_notMetadata row column Hin Hne)).
    now apply get_notMetadata.
  - intros Hout. rewrite (get_spread _ _ _ Hkept).
    destruct (listIncludes (keys (filter notMetadata row)) "id") eqn:E;
      [| reflexivity].
    apply listIncludes_In, keys_filter_In in E. contradiction.
  - intros column Hout Hid _ _. rewrite (get_spread _ _ _ Hkept).
    destruct (listIncludes (keys (filter notMetadata row)) column) eqn:E.
    + apply listIncludes_In, keys_filter_In in E. contradiction.
    + cbn [get]. destruct (String.eqb_spec "id" column) as [<- | _];
        [congruence | reflexivity].
Qed.

End StructuringFacts.

(** ** The e-mail test *)

Lemma allChars_app (p : ascii -> bool) (a b : string) :
  allChars p (a ++ b) = allChars p a && allChars p b.
Proof.
  induction a as [| c r IH]; simpl; [reflexivity |].
  now rewrite IH, andb_assoc.
Qed.

Lemma splitAtSign_Some (s a d : string) :
  splitAtSign s = Some (a, d) -> s = (a ++ String "@" d)%string.
Proof.
  revert a. induction s as [| c r IH]; intros a; cbn [splitAtSign];
    [discriminate |].
  destruct (Ascii.eqb_spec c "@") as [-> | Hne].
  - now intros [= <- <-].
  - destruct (splitAtSign r) as [[a' d'] |]; [| discriminate].
    intros [= <- <-]. cbn [append]. f_equal. now apply IH.
Qed.

Lemma splitAtSign_app (a d : string) :
  allChars emailChar a = true ->
  splitAtSign (a ++ String "@" d) = Some (a, d).
Proof.
  induction a as [| c r IH]; cbn [append splitAtSign allChars].
  - now rewrite Ascii.eqb_refl.
  - rewrite andb_true_iff. intros [Hc Hr]. unfold emailChar in Hc.
    apply andb_true_iff in Hc. destruct Hc as [_ Hc].
    apply negb_true_iff in Hc. rewrite Hc. now rewrite (IH Hr).
Qed.

Lemma hasDotBeforeEnd_split (r : string) :
  hasDotBeforeEnd r = true ->
  exists x y : string, r = (x ++ String "." y)%string /\ y <> EmptyString.
Proof.
  induction r as [| c r IH]; cbn [hasDotBeforeEnd]; [discriminate |].
  rewrite orb_true_iff, andb_true_iff. intros [[Hc Hr] | H].
  - apply Ascii.eqb_eq in Hc. subst c. exists EmptyString, r.
    split; [reflexivity |]. now destruct r.
  - destruct (IH H) as [x [y [-> Hy]]]. exists (String c x), y. now split.
Qed.

Lemma hasDotBeforeEnd_app (x y : string) :
  y <> EmptyString -> hasDotBeforeEnd (x ++ String "." y) = true.
Proof.
  intros Hy. induction x as [| c r IH]; cbn [append hasDotBeforeEnd].
  - destruct y; [congruence | reflexivity].
  - rewrite IH. apply orb_true_r.
Qed.

(** X11.  [isValidEmail] accepts exactly the texts its regular expression
    describes: the rendering of the value is a non-empty local part, ["@"],
    a non-empty domain, ["."] and a non-empty last part, and none of the
    three parts contains white space or ["@"]. *)
Theorem isValidEmail_matches_the_pattern :
  forall val : value,
    isValidEmail val = true <-> matchesEmailPattern (ToString val).
Proof.
  intros val. unfold isValidEmail, matchesEmailPattern.
  generalize (ToString val). intros s. split.
  - destruct (splitAtSign s) as [[a d] |] eqn:E; [| discriminate].
    apply splitAtSign_Some in E. subst s.
    rewrite !andb_true_iff. intros [[[Ha Hca] Hcd] Hdot].
    destruct d as [| c0 r]; [discriminate |].
    destruct (hasDotBeforeEnd_split r Hdot) as [x [y [-> Hy]]].
    exists a, (String c0 x), y.
    change (String c0 (x ++ String "." y))%string
      with (String c0 x ++ String "." y)%string in Hcd.
    rewrite allChars_app in Hcd. apply andb_true_iff in Hcd.
    destruct Hcd as [Hb Hc]. cbn [allChars] in Hc.
    apply andb_true_iff in Hc. destruct Hc as [_ Hc].
    split; [reflexivity |].
    split; [now destruct a |]. split; [discriminate |].
    now repeat split.
  - intros [a [b [c [-> [Ha [Hb [Hc [Hca [Hcb Hcc]]]]]]]]].
    change (a ++ "@" ++ b ++ "." ++ c)%string
      with (a ++ String "@" (b ++ String "." c))%string.
    rewrite (@splitAtSign_app a _ Hca).
    rewrite !andb_true_iff. split; [split; [split |] |].
    + now destruct a.
    + exact Hca.
    + rewrite allChars_app, Hcb. cbn [allChars andb].
      now rewrite Hcc.
    + destruct b as [| c0 x]; [congruence |]. cbn [append].
      now apply hasDotBeforeEnd_app.
Qed.

(** ** Relationship candidates *)

Lemma overlapRatio_le_1 (inter size1 size2 : nat) :
  0 < inter -> inter <= size1 -> inter <= size2 ->
  (overlapRatio inter size1 size2 <= 1)%Q.
Proof.
  intros Hpos H1 H2. unfold overlapRatio.
  apply Qle_shift_div_r.
  - rewrite <- (Zlt_Qlt 0). lia.
  - rewrite Qmult_1_l, <- Zle_Qle. lia.
Qed.

Lemma analyzeColumnRelationship_confidence (data : dataset)
  (col1 col2 : string) (r : Relationship) :
  analyzeColumnRelationship data col1 col2 = Some r ->
  (1 # 2 < rel_confidence r)%Q /\ (rel_confidence r <= 1)%Q.
Proof.
  unfold analyzeColumnRelationship, size.
  set (set1 := newSet (columnValues data col1)).
  set (set2 := newSet (columnValues data col2)).
  set (inter := newSet (filter (has set2) set1)).
  destruct (0 <? List.length inter)%nat eqn:Epos; [| discriminate].
  destruct (exceedsHalf _) eqn:Ehalf; [| discriminate].
  intros [= <-]. cbn [rel_confidence].
  split; [now apply exceedsHalf_iff |].
  apply Nat.ltb_lt in Epos.
  apply overlapRatio_le_1; [exact Epos | |].
  - transitivity (List.length (filter (has set2) set1)).
    + apply newSet_length_le.
    + apply filter_length_le.
  - apply NoDup_incl_length; [apply newSet_NoDup |].
    intros x Hx. unfold inter in Hx.
    apply newSet_In, filter_In in Hx. now apply has_In.
Qed.

Lemma relateWithLater_confidence (data : dataset) (col : string)
  (later : list string) (r : Relationship) :
  In r (relateWithLater data col later) ->
  (1 # 2 < rel_confidence r)%Q /\ (rel_confidence r <= 1)%Q.
Proof.
  induction later as [| x rest IH]; simpl; [intros [] |].
  destruct (analyzeColumnRelationship data col x) as [r' |] eqn:E.
  - intros [<- | Hin]; [now apply analyzeColumnRelationship_confidence in E |].
    now apply IH.
  - exact IH.
Qed.

Lemma relateWithLater_length (data : dataset) (col : string)
  (later : list string) :
  List.length (relateWithLater data col later) <= List.length later.
Proof.
  induction later as [| x rest IH]; simpl; [lia |].
  destruct (analyzeColumnRelationship data col x); simpl; lia.
Qed.

Lemma detectRelationships_length (data : dataset) (columns : list string) :
  2 * List.length (detectRelationships data columns)
  <= List.length columns * (List.length columns - 1).
Proof.
  induction columns as [| col later IH]; simpl; [lia |].
  rewrite length_app. pose proof (relateWithLater_length data col later).
  rewrite Nat.sub_0_r. nia.
Qed.

Lemma detectRelationships_order (data : dataset) (columns : list string)
  (r : Relationship) :
  In r (detectRelationships data columns) ->
  ((1 # 2 < rel_confidence r)%Q /\ (rel_confidence r <= 1)%Q)
  /\ exists before between after,
       columns
       = before ++ rel_source r :: between ++ rel_target r :: after.
Proof.
  induction columns as [| col later IH]; simpl; [intros [] |].
  rewrite in_app_iff. intros [H | H].
  - split; [now apply relateWithLater_confidence in H |].
    apply relateWithLater_In in H. destruct H as [_ [-> Hin]].
    apply in_split in Hin. destruct Hin as [l1 [l2 ->]].
    now exists [], l1, l2.
  - destruct (IH H) as [Hc [before [between [after ->]]]].
    split; [exact Hc |]. now exists (col :: before), between, after.
Qed.

(** X12.  Every candidate [detectRelationships] returns has a confidence
    above 0.5 and at most 1, and joins a column to a column that comes later
    in the column list; with pairwise distinct column names it never joins a
    column to itself.  For [n] columns there are at most n(n-1)/2
    candidates. *)
Theorem detectRelationships_candidates_are_ordered :
  forall (data : dataset) (columns : list string) (r : Relationship),
    NoDup columns ->
    In r (detectRelationships data columns) ->
    (1 # 2 < rel_confidence r)%Q
    /\ (rel_confidence r <= 1)%Q
    /\ (exists before between after,
           columns
           = before ++ rel_source r :: between ++ rel_target r :: after)
    /\ rel_source r <> rel_target r
    /\ 2 * List.length (detectRelationships data columns)
       <= List.length columns * (List.length columns - 1).
Proof.
  intros data columns r Hnd Hin.
  destruct (detectRelationships_order data columns r Hin)
    as [[Hlow Hhigh] [before [between [after E]]]].
  split; [exact Hlow |]. split; [exact Hhigh |].
  split; [now exists before, between, after |].
  split; [| apply detectRelationships_length].
  rewrite E in Hnd. apply NoDup_app_remove_l in Hnd.
  inversion Hnd as [| ? ? Hout _]. subst.
  intros Heq. apply Hout. rewrite Heq. apply in_or_app. right. now left.
Qed.

(** ** Semantic relationships *)

(** X13.  [areColumnsRelated] holds exactly when the two lower-cased column
    names share one of the words id, name, type, status, date and time, or
    one contains "id" and the other "name"; and it is symmetric. *)
Theorem areColumnsRelated_shared_word :
  forall col1 col2 : string,
    let lower1 := toLowerCase col1 in
    let lower2 := toLowerCase col2 in
    areColumnsRelated col1 col2
    = existsb (fun word => includes lower1 word && includes lower2 word)
              commonWords
      || (includes lower1 "id" && includes lower2 "name")
      || (includes lower1 "name" && includes lower2 "id")
    /\ areColumnsRelated col1 col2 = areColumnsRelated col2 col1.
Proof.
  intros col1 col2 lower1 lower2. unfold areColumnsRelated.
  fold lower1. fold lower2. cbn [existsb commonWords].
  change (replaceFirst "id" "id" "name") with "name".
  change (replaceFirst "id" "name" "id") with "id".
  change (replaceFirst "name" "id" "name") with "name".
  change (replaceFirst "name" "name" "id") with "id".
  change (replaceFirst "type" "id" "name") with "type".
  change (replaceFirst "type" "name" "id") with "type".
  change (replaceFirst "status" "id" "name") with "status".
  change (replaceFirst "status" "name" "id") with "status".
  change (replaceFirst "date" "id" "name") with "date".
  change (replaceFirst "date" "name" "id") with "date".
  change (replaceFirst "time" "id" "name") with "time".
  change (replaceFirst "time" "name" "id") with "time".
  generalize (includes lower1 "id") (includes lower2 "id")
    (includes lower1 "name") (includes lower2 "name")
    (includes lower1 "type") (includes lower2 "type")
    (includes lower1 "status") (includes lower2 "status")
    (includes lower1 "date") (includes lower2 "date")
    (includes lower1 "time") (includes lower2 "time").
  intros a1 a2 b1 b2 c1 c2 d1 d2 e1 e2 f1 f2.
  split; btauto.
Qed.

(** ** Loading into the store *)

Lemma batchSize_pos : 0 < batchSize.
Proof. unfold batchSize. lia. Qed.

Lemma batchesOf_partition (fuel : nat) :
  forall data : list StructuredRow,
    List.length data <= fuel ->
    let batches := batchesOf fuel data in
    List.concat batches = data
    /\ Forall (fun batch => 0 < List.length batch <= batchSize) batches
    /\ List.length data <= batchSize * List.length batches
    /\ batchSize * List.length batches < List.length data + batchSize.
Proof.
  pose proof batchSize_pos as Hpos.
  induction fuel as [| fuel IH]; intros data Hfuel.
  - destruct data; [| simpl in Hfuel; lia].
    cbn. repeat split; try lia. constructor.
  - destruct data as [| row rest] eqn:E.
    + cbn. repeat split; try lia. constructor.
    + rewrite <- E in *. cbn zeta.
      assert (Hcons : batchesOf (S fuel) data
                      = firstn batchSize data
                        :: batchesOf fuel (skipn batchSize data)).
      { rewrite E. reflexivity. }
      rewrite Hcons. clear Hcons.
      assert (Hn : 0 < List.length data) by (rewrite E; simpl; lia).
      destruct (IH (skipn batchSize data)) as [Hc [Hf [Hlo Hhi]]].
      { rewrite length_skipn. lia. }
      rewrite length_skipn in Hlo, Hhi.
      cbn [List.concat List.length]. rewrite Hc, firstn_skipn.
      split; [reflexivity |]. split.
      * constructor; [| exact Hf]. rewrite length_firstn. lia.
      * destruct (List.length (batchesOf fuel (skipn batchSize data)))
          as [| k];
          rewrite ?Nat.mul_succ_r, ?Nat.mul_0_r in *; lia.
Qed.

Section LoadFacts.

Variable Store : Type.
Variable run : Query -> Store -> result nat * Store.
Variable GraphAnalysis : Type.
Variable analyze : Store -> result GraphAnalysis * Store.
Variable random : nat -> Q.

(** [m] returns, whatever the store answers, and sends exactly the
    statements [qs]. *)
Let sendsAll (qs : list Query) (m : M (Agent Store) unit) : Prop :=
  forall a, fst (m a) = Ok tt /\ issued (snd (m a)) = issued a ++ qs.

(** Every statement [m] sends satisfies [P]. *)
Let sendsOnly (P : Query -> Prop) (A : Type) (m : M (Agent Store) A) : Prop :=
  forall a,
    exists qs, issued (snd (m a)) = issued a ++ qs /\ Forall P qs.

Lemma sendsAll_info (line : string) : sendsAll [] (info line).
Proof. intros a. cbn. now rewrite app_nil_r. Qed.

Lemma sendsAll_ret : sendsAll [] (ret tt).
Proof. intros a. cbn. now rewrite app_nil_r. Qed.

Lemma sendsAll_bind (qs1 qs2 : list Query) (m : M (Agent Store) unit)
  (k : unit -> M (Agent Store) unit) :
  sendsAll qs1 m -> (forall u, sendsAll qs2 (k u)) ->
  sendsAll (qs1 ++ qs2) (bind m k).
Proof.
  intros Hm Hk a. unfold bind. destruct (Hm a) as [H1 H2].
  destruct (m a) as [[u | e] a1]; cbn [fst snd] in *; [| discriminate].
  destruct (Hk u a1) as [H3 H4]. rewrite H3, H4, H2, app_assoc. now split.
Qed.

Lemma sendsAll_forEach (A : Type) (f : A -> list Query) (l : list A)
  (body : A -> M (Agent Store) unit) :
  (forall x, sendsAll (f x) (body x)) ->
  sendsAll (flat_map f l) (forEach l body).
Proof.
  intros Hbody. induction l as [| x rest IH]; cbn [forEach flat_map].
  - apply sendsAll_ret.
  - apply sendsAll_bind; [apply Hbody | intros _; exact IH].
Qed.

(** A statement inside [try { ... } catch { log }]. *)
Lemma sendsAll_guarded (q : Query) (done failed_ : string) :
  sendsAll [q] (tryCatch (_ <- sessionRun run q;; info done)
                         (fun _ => info failed_))%eff.
Proof.
  intros a. unfold tryCatch, bind, sessionRun, info, modify.
  destruct (run q (database a)) as [[n | e] db]; cbn; now split.
Qed.

Lemma flat_map_single (A B : Type) (f : A -> B) (l : list A) :
  flat_map (fun x => [f x]) l = map f l.
Proof.
  induction l as [| x rest IH]; [reflexivity |]. cbn. now rewrite IH.
Qed.

Lemma flat_map_indexed (name : string) (properties : list NodeProperty) :
  flat_map (fun p => if np_indexed p then [CreateIndex name (np_name p)] else [])
           properties
  = map (CreateIndex name) (map np_name (filter np_indexed properties)).
Proof.
  induction properties as [| p rest IH]; [reflexivity |].
  cbn [flat_map filter]. destruct (np_indexed p); cbn [map app];
    now rewrite IH.
Qed.

(** The statements [createConstraintsAndIndexes] sends for a node type. *)
Let planned (nodeType : NodeType) : list Query :=
  map (fun c => CreateConstraint (nt_name nodeType) (con_property c))
      (nt_constraints nodeType)
  ++ map (CreateIndex (nt_name nodeType)) (indexedNames nodeType).

Lemma createConstraintsAndIndexes_plan (graphModel : GraphModel) :
  sendsAll (flat_map planned (gm_nodeTypes graphModel))
           (createConstraintsAndIndexes run graphModel).
Proof.
  unfold createConstraintsAndIndexes.
  apply (sendsAll_bind (qs1 := [])); [apply sendsAll_info | intros _].
  apply sendsAll_forEach. intros nodeType. unfold planned.
  apply sendsAll_bind.
  - rewrite <- (flat_map_single
                  (fun c => CreateConstraint (nt_name nodeType) (con_property c))).
    apply sendsAll_forEach. intros c. apply sendsAll_guarded.
  - intros _. unfold indexedNames. rewrite <- flat_map_indexed.
    apply sendsAll_forEach. intros p.
    destruct (np_indexed p); [apply sendsAll_guarded | apply sendsAll_ret].
Qed.

(** X14.  [createConstraintsAndIndexes] never throws, whatever the store
    answers to its statements: a statement that fails is logged and the next
    one is sent.  For every node type in turn it sends one constraint
    statement per constraint and then one index statement per indexed
    property, and nothing else. *)
Theorem createConstraintsAndIndexes_never_throws :
  forall (graphModel : GraphModel) (a : Agent Store),
    fst (createConstraintsAndIndexes run graphModel a) = Ok tt
    /\ issued (snd (createConstraintsAndIndexes run graphModel a))
       = issued a
         ++ flat_map
              (fun nodeType =>
                 map (fun c => CreateConstraint (nt_name nodeType)
                                                (con_property c))
                     (nt_constraints nodeType)
                 ++ map (CreateIndex (nt_name nodeType))
                        (map np_name
                             (filter np_indexed (nt_properties nodeType))))
              (gm_nodeTypes graphModel).
Proof.
  intros graphModel a. exact (createConstraintsAndIndexes_plan graphModel a).
Qed.

(** *** Batches of nodes *)

Let batchBody (name : string) (batch : list StructuredRow)
  : M (Agent Store) nat :=
  (created <- sessionRun run (CreateNodes name batch);;
   info "Loaded batch";;
   ret created)%eff.

Lemma sumOver_batches_cons (name : string) (batch : list StructuredRow)
  (rest : list (list StructuredRow)) (acc : nat) (a : Agent Store) :
  sumOver (batch :: rest) (batchBody name) acc a
  = match run (CreateNodes name batch) (database a) with
    | (Ok n, db) =>
        sumOver rest (batchBody name) (acc + n)
          (mkAgent (demoMode a) (clearExisting a) db
                   (logged a ++ ["Loaded batch"])
                   (issued a ++ [CreateNodes name batch]) (drawn a))
    | (Throw e, db) =>
        (Throw e,
         mkAgent (demoMode a) (clearExisting a) db (logged a)
                 (issued a ++ [CreateNodes name batch]) (drawn a))
    end.
Proof.
  cbn [sumOver]. unfold batchBody at 1, bind, sessionRun, info, modify, ret.
  now destruct (run (CreateNodes name batch) (database a)) as [[n | e] db].
Qed.

Lemma sumOver_batches (name : string) (batches : list (list StructuredRow)) :
  forall (acc : nat) (a : Agent Store),
    (exists (answers : list nat) (db : Store),
        answeredInOrder run
          (map (CreateNodes name) (firstn (List.length answers) batches))
          (database a) answers db
        /\ match sumOver batches (batchBody name) acc a with
           | (Ok total, a') =>
               List.length answers = List.length batches
               /\ total = acc + list_sum answers
               /\ issued a' = issued a ++ map (CreateNodes name) batches
               /\ database a' = db
           | (Throw message, a') =>
               exists batch db',
                 nth_error batches (List.length answers) = Some batch
                 /\ run (CreateNodes name batch) db = (Throw message, db')
                 /\ issued a'
                    = issued a
                      ++ map (CreateNodes name)
                             (firstn (S (List.length answers)) batches)
                 /\ database a' = db'
           end)
    /\ ((forall batch db,
            fst (run (CreateNodes name batch) db) = Ok (List.length batch)) ->
        fst (sumOver batches (batchBody name) acc a)
        = Ok (acc + List.length (List.concat batches))).
Proof.
  induction batches as [| batch rest IH]; intros acc a.
  - cbn. split.
    + exists [], (database a). split; [constructor |].
      rewrite app_nil_r. cbn. now repeat split.
    + intros _. now rewrite Nat.add_0_r.
  - rewrite sumOver_batches_cons.
    pose proof (fun H : forall batch db,
                    fst (run (CreateNodes name batch) db)
                    = Ok (List.length batch) => H batch (database a)) as Hc.
    destruct (run (CreateNodes name batch) (database a)) as [[n | e] db1]
      eqn:Hrun1.
    + match goal with
      | |- context [sumOver rest (batchBody name) (acc + n) ?a1] =>
          destruct (IH (acc + n) a1) as [[answers [db [Hans Hm]]] Hcount];
          destruct (sumOver rest (batchBody name) (acc + n) a1)
            as [outcome a2]
      end.
      cbn [fst snd issued database] in *. split.
      * exists (n :: answers), db. cbn [firstn map List.length].
        split; [eapply answered_next; eassumption |].
        destruct outcome as [total | message].
        -- destruct Hm as [Hl [Ht [Hi Hd]]]. rewrite Hl, Ht, Hi, <- app_assoc.
           cbn [list_sum fold_right]. fold (list_sum answers).
           repeat split; lia || reflexivity || assumption.
        -- destruct Hm as [failing [db' [Hnth [Hrun [Hi Hd]]]]].
           exists failing, db'. rewrite Hi, <- app_assoc.
           cbn [nth_error]. now repeat split.
      * intros Hrun. specialize (Hc Hrun). injection Hc as ->.
        rewrite (Hcount Hrun). cbn [List.concat]. rewrite length_app.
        f_equal. lia.
    + cbn [fst snd issued database]. split.
      * exists [], (database a). split; [constructor |].
        exists batch, db1. cbn [firstn map List.length nth_error].
        now repeat split.
      * intros Hrun. specialize (Hc Hrun). discriminate.
Qed.

(** X15.  [loadNodes] sends the records to the store in consecutive batches
    of at most 1000: the batches, put end to end, are the data; each has at
    least one and at most 1000 records, so there are as many batches as
    1000s the number of records needs.  One statement is sent per batch, in
    order, under the name of the first node type, each in the state of the
    store the one before it left, until one fails.  The first failure ends the
    loop and is thrown: the statements sent are those of the batches up to the
    failing one and no more, the message thrown is the one the store answered
    it with, and the store is left as the failing statement left it.  When no
    statement fails, every batch is sent and the value returned is the sum of
    the counts the store answered; when the store answers each statement with
    the number of its records, that is the number of records. *)
Theorem loadNodes_sends_batches :
  forall (data : list StructuredRow) (graphModel : GraphModel)
         (nodeType : NodeType) (others : list NodeType) (a : Agent Store),
    gm_nodeTypes graphModel = nodeType :: others ->
    let batches := batchesOf (List.length data) data in
    let statement := CreateNodes (nt_name nodeType) in
    let outcome := loadNodes run data graphModel a in
    List.concat batches = data
    /\ Forall (fun batch => 0 < List.length batch <= 1000) batches
    /\ List.length data <= 1000 * List.length batches
    /\ 1000 * List.length batches < List.length data + 1000
    /\ (exists (answers : list nat) (db : Store),
           answeredInOrder run
             (map statement (firstn (List.length answers) batches))
             (database a) answers db
           /\ match fst outcome with
              | Ok total =>
                  List.length answers = List.length batches
                  /\ total = list_sum answers
                  /\ issued (snd outcome) = issued a ++ map statement batches
                  /\ database (snd outcome) = db
              | Throw message =>
                  exists batch db',
                    nth_error batches (List.length answers) = Some batch
                    /\ run (statement batch) db = (Throw message, db')
                    /\ issued (snd outcome)
                       = issued a
                         ++ map statement
                                (firstn (S (List.length answers)) batches)
                    /\ database (snd outcome) = db'
              end)
    /\ ((forall batch db,
            fst (run (statement batch) db) = Ok (List.length batch)) ->
        fst outcome = Ok (List.length data)).
Proof.
  intros data graphModel nodeType others a Hmodel batches statement outcome.
  destruct (@batchesOf_partition (List.length data) data (le_n _))
    as [Hconcat [Hsizes [Hlo Hhi]]].
  fold batches in Hconcat, Hsizes, Hlo, Hhi.
  change batchSize with 1000 in Hsizes, Hlo, Hhi.
  split; [exact Hconcat |]. split; [exact Hsizes |].
  split; [exact Hlo |]. split; [exact Hhi |].
  subst statement.
  assert (Hloop : exists a1,
    outcome = sumOver batches (batchBody (nt_name nodeType)) 0 a1
    /\ issued a1 = issued a /\ database a1 = database a).
  { subst outcome. unfold loadNodes. rewrite Hmodel.
    unfold bind at 1, info at 1, modify at 1. fold batches.
    eexists. split; [reflexivity |]. split; reflexivity. }
  clearbody outcome. destruct Hloop as [a1 [-> [Hissued Hdatabase]]].
  destruct (sumOver_batches (nt_name nodeType) batches 0 a1)
    as [[answers [db [Hans Hsent]]] Hcount].
  rewrite Hissued, Hdatabase in *.
  destruct (sumOver batches (batchBody (nt_name nodeType)) 0 a1)
    as [[total | message] a2]; cbn [fst snd] in *.
  - split.
    + exists answers, db. split; [exact Hans |]. exact Hsent.
    + intros Hrun. specialize (Hcount Hrun). rewrite Hconcat in Hcount.
      exact Hcount.
  - split.
    + exists answers, db. split; [exact Hans |]. exact Hsent.
    + intros Hrun. specialize (Hcount Hrun). discriminate.
Qed.

(** *** What a run of the stage sends *)

Lemma sendsOnly_ret (P : Query -> Prop) (A : Type) (x : A) :
  sendsOnly P (ret x).
Proof. intros a. exists []. cbn. now rewrite app_nil_r. Qed.

Lemma sendsOnly_throw (P : Query -> Prop) (A : Type) (e : string) :
  sendsOnly P (@throw (Agent Store) A e).
Proof. intros a. exists []. cbn. now rewrite app_nil_r. Qed.

Lemma sendsOnly_info (P : Query -> Prop) (line : string) :
  sendsOnly P (info line).
Proof. intros a. exists []. cbn. now rewrite app_nil_r. Qed.

Lemma sendsOnly_run (P : Query -> Prop) (q : Query) :
  P q -> sendsOnly P (sessionRun run q).
Proof.
  intros H a. exists [q]. unfold sessionRun.
  destruct (run q (database a)) as [answer db]. cbn.
  split; [reflexivity | now constructor].
Qed.

Lemma sendsOnly_bind (P : Query -> Prop) (A B : Type)
  (m : M (Agent Store) A) (k : A -> M (Agent Store) B) :
  sendsOnly P m -> (forall x, sendsOnly P (k x)) -> sendsOnly P (bind m k).
Proof.
  intros Hm Hk a. unfold bind. destruct (Hm a) as [qs1 [E1 F1]].
  destruct (m a) as [[x | e] a1]; cbn [snd] in *.
  - destruct (Hk x a1) as [qs2 [E2 F2]]. exists (qs1 ++ qs2).
    rewrite E2, E1, app_assoc. split; [reflexivity | now apply Forall_app].
  - now exists qs1.
Qed.

Lemma sendsOnly_sumOver (P : Query -> Prop) (A : Type) (l : list A)
  (body : A -> M (Agent Store) nat) :
  (forall x, sendsOnly P (body x)) ->
  forall acc, sendsOnly P (sumOver l body acc).
Proof.
  intros Hbody. induction l as [| x rest IH]; intros acc; cbn [sumOver].
  - apply sendsOnly_ret.
  - apply sendsOnly_bind; [apply Hbody | intros n; apply IH].
Qed.

Let keepsData (q : Query) : Prop := q <> ClearDatabase.

Lemma createConstraintsAndIndexes_keeps (graphModel : GraphModel) :
  sendsOnly keepsData (createConstraintsAndIndexes run graphModel).
Proof.
  intros a. destruct (createConstraintsAndIndexes_plan graphModel a) as [_ E].
  eexists. split; [exact E |].
  apply Forall_forall. intros q Hq. apply in_flat_map in Hq.
  destruct Hq as [nodeType [_ Hq]]. unfold planned in Hq.
  apply in_app_iff in Hq.
  destruct Hq as [Hq | Hq]; apply in_map_iff in Hq;
    destruct Hq as [x [<- _]]; discriminate.
Qed.

Lemma loadNodes_keeps (data : list StructuredRow) (graphModel : GraphModel) :
  sendsOnly keepsData (loadNodes run data graphModel).
Proof.
  unfold loadNodes.
  apply sendsOnly_bind; [apply sendsOnly_info | intros _].
  apply sendsOnly_sumOver. intros batch.
  destruct (gm_nodeTypes graphModel) as [| nodeType others];
    [apply sendsOnly_throw |].
  apply sendsOnly_bind; [apply sendsOnly_run; discriminate | intros created].
  apply sendsOnly_bind; [apply sendsOnly_info | intros _].
  apply sendsOnly_ret.
Qed.

Lemma loadRelationships_keeps (data : list StructuredRow)
  (graphModel : GraphModel) :
  sendsOnly keepsData (loadRelationships run data graphModel).
Proof.
  unfold loadRelationships.
  apply sendsOnly_bind; [apply sendsOnly_info | intros _].
  apply sendsOnly_sumOver. intros relType.
  destruct (rt_type relType).
  - unfold createForeignKeyRelationships.
    apply sendsOnly_bind; [apply sendsOnly_info | intros _].
    destruct (filter _ _); [apply sendsOnly_ret |].
    apply sendsOnly_run. discriminate.
  - unfold createHierarchicalRelationships.
    apply sendsOnly_bind; [apply sendsOnly_info | intros _].
    apply sendsOnly_run. discriminate.
  - unfold createTemporalRelationships.
    apply sendsOnly_bind; [apply sendsOnly_info | intros _].
    apply sendsOnly_run. discriminate.
  - apply sendsOnly_ret.
Qed.

Lemma analyzeGraph_keeps : sendsOnly keepsData (analyzeGraph analyze).
Proof.
  unfold analyzeGraph.
  apply sendsOnly_bind; [apply sendsOnly_info | intros _].
  intros a. exists []. destruct (analyze (database a)) as [answer db].
  cbn. now rewrite app_nil_r.
Qed.

(** What [execute] does after the optional clearing. *)
Lemma modelling_keeps (schema : Schema) (relationships : list Relationship)
  (analysis : Analysis) (rows : list StructuredRow) :
  sendsOnly keepsData
    (graphModel <- createGraphModel schema relationships analysis;;
     counts <- loadDataToNeo4j run rows graphModel;;
     graphAnalysis <- analyzeGraph analyze;;
     info "Graph modeling completed";;
     ret (Loaded {| lg_graphModel := graphModel;
                    lg_nodeCount := fst counts;
                    lg_relationshipCount := snd counts;
                    lg_graphAnalysis := graphAnalysis |}))%eff.
Proof.
  apply sendsOnly_bind.
  { unfold createGraphModel.
    apply sendsOnly_bind; [apply sendsOnly_info | intros _].
    apply sendsOnly_ret. }
  intros graphModel. apply sendsOnly_bind.
  { unfold loadDataToNeo4j.
    apply sendsOnly_bind; [apply sendsOnly_info | intros _].
    apply sendsOnly_bind; [apply createConstraintsAndIndexes_keeps | intros _].
    apply sendsOnly_bind; [apply loadNodes_keeps | intros nodeCount].
    apply sendsOnly_bind; [apply loadRelationships_keeps | intros count].
    apply sendsOnly_ret. }
  intros counts. apply sendsOnly_bind; [apply analyzeGraph_keeps |].
  intros graphAnalysis.
  apply sendsOnly_bind; [apply sendsOnly_info | intros _].
  apply sendsOnly_ret.
Qed.

(** X16.  The graph-modeling stage deletes the existing graph only when it
    is configured to.  With [clearExisting] off, no statement of a run is
    the one that clears the database.  With it on, and the agent connected
    and given records, the clearing statement is the first one sent and is
    sent once.  In demo mode, and when there are no records (the run then
    throws), nothing is sent at all. *)
Theorem execute_clears_only_when_configured :
  forall (data : StructureResult) (a : Agent Store),
    exists statements,
      issued (snd (GraphModeling.execute run analyze random data a))
      = issued a ++ statements
      /\ (res_structuredData data = [] -> statements = [])
      /\ (demoMode a = true -> statements = [])
      /\ (clearExisting a = false ->
          Forall (fun q => q <> ClearDatabase) statements)
      /\ (clearExisting a = true -> demoMode a = false ->
          res_structuredData data <> [] ->
          exists others,
            statements = ClearDatabase :: others
            /\ Forall (fun q => q <> ClearDatabase) others).
Proof.
  intros data a. unfold GraphModeling.execute.
  unfold bind at 1, info at 1, modify at 1.
  destruct (res_structuredData data) as [| row rows] eqn:Erows.
  { exists []. cbn. rewrite app_nil_r. split; [reflexivity |].
    split; [reflexivity |]. split; [reflexivity |].
    split; [constructor | congruence]. }
  unfold bind at 1, gets at 1. cbn [demoMode].
  destruct (demoMode a) eqn:Edemo.
  { unfold bind at 1, info at 1, modify at 1. unfold bind at 1.
    match goal with
    | |- context [generateDemoGraphData random ?rows ?schema ?a1] =>
        destruct (@generateDemoGraphData_spec Store random rows schema a1)
          as [preview [a2 [Hrun [_ [_ [Hissued _]]]]]]; [discriminate |]
    end.
    rewrite Hrun. exists []. cbn [snd ret].
    rewrite Hissued. cbn [issued]. rewrite app_nil_r.
    split; [reflexivity |]. split; [discriminate |].
    split; [reflexivity |]. split; [constructor | discriminate]. }
  unfold bind at 1, gets at 1. cbn [clearExisting].
  destruct (clearExisting a) eqn:Eclear.
  - unfold bind at 1, clearDatabase, bind at 1, info at 1, modify at 1.
    unfold bind at 1, sessionRun at 1. cbn [database issued].
    destruct (run ClearDatabase (database a)) as [[n | e] db].
    + unfold info at 1, modify at 1.
      match goal with
      | |- context [bind ?m ?k ?a1] =>
          destruct (modelling_keeps (res_schema data) (res_relationships data)
                      (res_analysis data) (row :: rows) a1) as [qs [E F]]
      end.
      exists (ClearDatabase :: qs).
      split.
      { change (issued a ++ ClearDatabase :: qs)
          with (issued a ++ [ClearDatabase] ++ qs).
        rewrite app_assoc. exact E. }
      split; [discriminate |]. split; [discriminate |].
      split; [discriminate |]. intros _ _ _. now exists qs.
    + exists [ClearDatabase]. cbn [snd issued].
      split; [reflexivity |]. split; [discriminate |].
      split; [discriminate |]. split; [discriminate |].
      intros _ _ _. exists []. split; [reflexivity | constructor].
  - unfold bind at 1, ret at 1.
    match goal with
    | |- context [bind ?m ?k ?a1] =>
        destruct (modelling_keeps (res_schema data) (res_relationships data)
                      (res_analysis data) (row :: rows) a1) as [qs [E F]]
    end.
    exists qs.
    split; [exact E |]. split; [discriminate |]. split; [discriminate |].
    split; [intros _; exact F | discriminate].
Qed.

(** *** The statement for a foreign-key relationship *)

Lemma structured_column (rows : list StructuredRow) (column : string)
  (v : value) :
  In v (filter notNull (map (fun row => get (sr_fields row) column) rows))
  <-> v <> Null
      /\ exists row, In row rows /\ get (sr_fields row) column = v.
Proof.
  rewrite filter_In, in_map_iff. split.
  - intros [[row [E Hrow]] Hv]. split; [intros ->; discriminate |].
    now exists row.
  - intros [Hv [row [Hrow E]]]. split; [now exists row |].
    destruct v; simpl; congruence.
Qed.

(** X20.  [createForeignKeyRelationships] matches the two columns of a
    relationship type on their shared values: the entries, other than [null],
    that some record has in the source column and some record has in the
    target column, each listed once (a record without the column has the
    entry [undefined]).  When there is no shared value it returns 0 and sends
    nothing to the store; otherwise it sends one statement, which carries the
    relationship type and the shared values, and returns what the store
    answers.  The two columns are fields of the records: neither is
    [_metadata], the object [structureData] adds to every row, and neither
    has a name inherited from [Object.prototype]. *)
Theorem createForeignKeyRelationships_shared_values :
  forall (rows : list StructuredRow) (relType : RelationshipType)
         (a : Agent Store),
    ~ In (rt_source relType) inheritedNames ->
    ~ In (rt_target relType) inheritedNames ->
    rt_source relType <> "_metadata" ->
    rt_target relType <> "_metadata" ->
    let outcome := createForeignKeyRelationships run rows relType a in
    exists common : list value,
      NoDup common
      /\ (forall v,
             In v common
             <-> v <> Null
                 /\ (exists row, In row rows
                                 /\ get (sr_fields row) (rt_source relType) = v)
                 /\ (exists row, In row rows
                                 /\ get (sr_fields row) (rt_target relType) = v))
      /\ match common with
         | [] =>
             fst outcome = Ok 0
             /\ issued (snd outcome) = issued a
             /\ database (snd outcome) = database a
         | _ :: _ =>
             issued (snd outcome)
             = issued a ++ [CreateForeignKeyRelationships relType common]
             /\ fst outcome
                = fst (run (CreateForeignKeyRelationships relType common)
                           (database a))
         end.
Proof.
  intros rows relType a _ _ _ _ outcome. subst outcome.
  unfold createForeignKeyRelationships, bind, info, modify. cbv zeta.
  match goal with
  | |- context [match ?c with [] => ret 0 | _ :: _ => _ end] =>
      exists c; split; [apply NoDup_filter, newSet_NoDup |]; split;
      [ intros v;
        rewrite filter_In, has_In, !newSet_In, !structured_column; tauto
      | destruct c as [| v rest] ]
  end.
  - cbn. now repeat split.
  - unfold sessionRun. cbn [database issued].
    destruct (run (CreateForeignKeyRelationships relType (v :: rest))
                  (database a)) as [answer db].
    cbn. now split.
Qed.

End LoadFacts.

(** ** From the profile to the graph model *)

Section ModelFacts.

Variable isValidDate : value -> bool.
Variable urlParses : string -> bool.
Variable allIntegers allNonNegative : list value -> bool.
Variable askSchema : dataset -> LlmReply.
Variable Store : Type.
Variable run : Query -> Store -> result nat * Store.

Let analysisOf : dataset -> Analysis :=
  analyzeDataStructure isValidDate urlParses allIntegers allNonNegative.

Let profile : string -> list value -> ColumnProfile :=
  analyzeColumn isValidDate urlParses allIntegers allNonNegative.











End ModelFacts.

(** ** Uploaded files *)

Section UploadFacts.

Variable extname : string -> string.
Variable fileExists : string -> bool.
Variable parseCSV parseExcel parseJSON : string -> result LoadResult.
Variable querySQLite queryMySQL queryPostgreSQL : string -> result LoadResult.

Local Abbreviation loadWith excel :=
  (load extname fileExists parseCSV excel parseJSON querySQLite queryMySQL
        queryPostgreSQL).

(** X18.  What the loader does with an uploaded file follows from the type
    the server derives from the file's original name; the stored path plays
    no part.  A name ending in .csv or .json is parsed as such.  A name
    ending in .xlsx or .xls gets the type "excel", which the loader does not
    know: the upload is rejected with "Unsupported file type: excel" and the
    Excel parser is never called for an upload.  Any other name is rejected
    with "Unsupported file type: unknown".  A local job without a type for a
    path ending in .xlsx, on the other hand, is read by the Excel parser. *)
Theorem uploaded_excel_files_are_rejected :
  forall originalName storedPath : string,
    fileExists storedPath = true ->
    let ext := toLowerCase (extname originalName) in
    let jobConfig := createUploadJob storedPath (getFileType extname originalName) in
    let outcome := loadWith parseExcel (dataSource jobConfig) in
    (ext = ".csv" -> outcome = parseCSV storedPath)
    /\ (ext = ".json" -> outcome = parseJSON storedPath)
    /\ (ext = ".xlsx" \/ ext = ".xls" ->
        outcome = Throw "Unsupported file type: excel")
    /\ (ext <> ".csv" -> ext <> ".json" -> ext <> ".xlsx" -> ext <> ".xls" ->
        outcome = Throw "Unsupported file type: unknown")
    /\ (forall otherParser : string -> result LoadResult,
           loadWith otherParser (dataSource jobConfig) = outcome)
    /\ (toLowerCase (extname storedPath) = ".xlsx" ->
        loadWith parseExcel (dataSource (createLocalFileJob storedPath ""))
        = parseExcel storedPath).
Proof.
  intros originalName storedPath Hexists ext jobConfig outcome.
  assert (Hup : forall excel,
    loadWith excel (dataSource jobConfig)
    = if String.eqb ext ".csv" then parseCSV storedPath
      else if String.eqb ext ".xlsx" || String.eqb ext ".xls"
      then Throw "Unsupported file type: excel"
      else if String.eqb ext ".json" then parseJSON storedPath
      else Throw "Unsupported file type: unknown").
  { intros excel. subst jobConfig.
    unfold load, DataLoader.execute, readSource, loadFromUpload,
      loadFromLocal, createUploadJob, getFileType.
    cbn [dataSource ds_source ds_type ds_path listIncludes existsb String.eqb
         Ascii.eqb Bool.eqb orb andb].
    rewrite Hexists. fold ext.
    destruct (String.eqb ext ".csv"); [reflexivity |].
    destruct (String.eqb ext ".xlsx" || String.eqb ext ".xls");
      [reflexivity |].
    destruct (String.eqb ext ".json"); reflexivity. }
  subst outcome. rewrite Hup.
  split; [intros ->; reflexivity |].
  split; [intros ->; reflexivity |].
  split; [intros [-> | ->]; reflexivity |].
  split.
  { intros H1 H2 H3 H4.
    apply String.eqb_neq in H1, H2, H3, H4. now rewrite H1, H2, H3, H4. }
  split; [intros otherParser; apply Hup |].
  intros Hext.
  unfold load, DataLoader.execute, readSource, loadFromLocal,
    createLocalFileJob.
  cbn [dataSource ds_source ds_type ds_path listIncludes existsb String.eqb
       Ascii.eqb Bool.eqb orb andb isEmpty].
  rewrite Hexists, Hext. reflexivity.
Qed.

End UploadFacts.

(** ** Jobs without a store *)

Section DemoFacts.

Variable isValidDate : value -> bool.
Variable urlParses : string -> bool.
Variable allIntegers allNonNegative : list value -> bool.
Variable ToNumber normalizeDate : value -> value.
Variable askSchema : dataset -> LlmReply.
Variable readSource : DataSource -> result LoadResult.
Variable Store : Type.
Variable run : Query -> Store -> result nat * Store.
Variable GraphAnalysis : Type.
Variable analyze : Store -> result GraphAnalysis * Store.
Variable random : nat -> Q.
Variable jobIdAt : nat -> string.

Lemma cleanData_length (analysis : Analysis) (data cleanedData : dataset) :
  cleanData ToNumber normalizeDate data analysis = Ok cleanedData ->
  List.length cleanedData = List.length data.
Proof.
  revert cleanedData. induction data as [| row rest IH]; intros cleanedData.
  - now intros [= <-].
  - cbn [cleanData].
    destruct (cleanRow ToNumber normalizeDate analysis row); [| discriminate].
    destruct (cleanData ToNumber normalizeDate rest analysis) as [rest' |];
      [| discriminate].
    intros [= <-]. cbn [List.length]. now rewrite (IH rest' eq_refl).
Qed.

(** What the data-structuring stage returns is never without records. *)
Lemma structured_rows_nonempty (input : LoadResult) (result : StructureResult) :
  DataStructuring.execute isValidDate urlParses allIntegers allNonNegative
    ToNumber normalizeDate askSchema input
  = Ok result ->
  res_structuredData result <> [].
Proof.
  unfold DataStructuring.execute.
  destruct (lr_data input) as [[| row rows] |]; try discriminate.
  destruct (cleanData _ _ _ _) as [cleanedData | e] eqn:E; [| discriminate].
  intros [= <-]. cbn [res_structuredData].
  apply cleanData_length in E.
  destruct cleanedData; [discriminate E | discriminate].
Qed.

Lemma execute_in_demo_mode (data : StructureResult) (a : Agent Store) :
  demoMode a = true ->
  res_structuredData data <> [] ->
  exists preview a',
    GraphModeling.execute run analyze random data a = (Ok (Preview preview), a')
    /\ demoMode a' = true
    /\ database a' = database a
    /\ issued a' = issued a
    /\ dg_demoMode preview = true.
Proof.
  intros Hdemo Hrows. unfold GraphModeling.execute.
  unfold bind at 1, info at 1, modify at 1.
  destruct (res_structuredData data) as [| row rows]; [congruence |].
  unfold bind at 1, gets at 1. cbn [demoMode]. rewrite Hdemo.
  unfold bind at 1, info at 1, modify at 1. unfold bind at 1.
  match goal with
  | |- context [generateDemoGraphData random ?rows ?schema ?a1] =>
      destruct (@generateDemoGraphData_spec Store random rows schema a1)
        as [preview [a2 [Hrun [Hmode [Hdb [Hissued [Hflag _]]]]]]];
      [discriminate |]
  end.
  rewrite Hrun. exists preview, a2. split; [reflexivity |].
  cbn [demoMode database issued] in Hmode, Hdb, Hissued.
  now repeat split.
Qed.

(** X19.  Without a store, no job fails in graph modeling.  When the agent
    runs in demo mode, every job whose source loads and whose data the
    structuring stage accepts completes: [processData] returns the three
    stage results, the third being a preview marked [demoMode], and the job
    is in the history as [completed] without error.  The run sends no
    statement to the store and leaves the agent in demo mode, so the same
    holds for the next job. *)
Theorem demo_mode_jobs_complete :
  forall (jobConfig : JobConfig)
         (s : State LoadResult StructureResult (GraphResult GraphAnalysis)
                    (Agent Store))
         (loaded : LoadResult) (structured : StructureResult),
    demoMode (agents s) = true ->
    DataLoader.execute readSource (dataSource jobConfig) = Ok loaded ->
    DataStructuring.execute isValidDate urlParses allIntegers allNonNegative
      ToNumber normalizeDate askSchema loaded
    = Ok structured ->
    exists preview s' job,
      runPipeline isValidDate urlParses allIntegers allNonNegative ToNumber
        normalizeDate askSchema readSource run analyze random jobIdAt
        jobConfig s
      = (Ok (mkJobResult loaded structured (Preview preview)), s')
      /\ dg_demoMode preview = true
      /\ jobHistory s' = jobHistory s ++ [job]
      /\ job_id job = jobIdAt (idsDrawn s)
      /\ job_status job = completed
      /\ job_error job = None
      /\ demoMode (agents s') = true
      /\ database (agents s') = database (agents s)
      /\ issued (agents s') = issued (agents s).
Proof.
  intros jobConfig s loaded structured Hdemo Hload Hstructure.
  destruct (execute_in_demo_mode structured (agents s) Hdemo
              (structured_rows_nonempty _ Hstructure))
    as [preview [a' [Hgraph [Hmode [Hdb [Hissued Hflag]]]]]].
  pose proof (@processData_succeeds
    LoadResult StructureResult (GraphResult GraphAnalysis) (Agent Store)
    (@loaderStage readSource Store)
    (@structuringStage isValidDate urlParses allIntegers allNonNegative
       ToNumber normalizeDate askSchema Store)
    (graphStage run analyze random) jobIdAt jobConfig s loaded structured
    (Preview preview) (agents s) (agents s) a') as Hrun.
  unfold loaderStage, structuringStage, graphStage, lift in Hrun.
  rewrite Hload, Hstructure, Hgraph in Hrun.
  specialize (Hrun eq_refl eq_refl eq_refl). cbv zeta in Hrun.
  unfold runPipeline, loaderStage, structuringStage, graphStage, lift.
  rewrite Hrun. eexists. eexists. eexists. split; [reflexivity |].
  cbn [jobHistory agents job_id job_status job_error].
  now repeat split.
Qed.

End DemoFacts.

(** ** The properties at work on the sample data *)

Lemma getJobStatus_after_run_witness :
  exists view,
    fst (getJobStatus "job_0"
           (snd (samplePipeline (localFile "staff.json") sampleState)))
    = Ok view
    /\ jv_id view = "job_0"
    /\ jv_status view = completed
    /\ jv_error view = None.
Proof.
  assert (Hfresh : forall old,
            In old (jobHistory sampleState) ->
            job_id old <> sampleJobId (idsDrawn sampleState))
    by (intros old []).
  destruct (@getJobStatus_after_run
              LoadResult StructureResult (GraphResult unit) (Agent unit)
              (@loaderStage sampleReader unit)
              (@structuringStage noDate noUrl yes yes asIs asIs noLlm unit)
              (graphStage noStore noAnalysis half) sampleJobId
              (localFile "staff.json") sampleState Hfresh)
    as [[view [Hrun [Hid [Hstatus Herror]]]] _].
  exists view. unfold samplePipeline, runPipeline.
  change "job_0" with (sampleJobId (idsDrawn sampleState)).
  rewrite Hrun. split; [reflexivity |]. split; [exact Hid |].
  split; [rewrite Hstatus | rewrite Herror]; vm_compute; reflexivity.
Defined.

Lemma profiles_ignore_records_beyond_100_witness :
  100 <= List.length hundredRows
  /\ an_columnAnalysis
       (analyzeDataStructure noDate noUrl yes yes (hundredRows ++ ragged))
     = an_columnAnalysis (analyzeDataStructure noDate noUrl yes yes hundredRows).
Proof.
  assert (H : 100 <= List.length hundredRows)
    by (unfold hundredRows; rewrite repeat_length; lia).
  split; [exact H |].
  exact (proj1 (proj2 (@profiles_ignore_records_beyond_100
                         noDate noUrl yes yes hundredRows ragged H))).
Defined.

(** The sample datasets have plain records. *)
Ltac plain_keys :=
  repeat match goal with
         | H : _ \/ _ |- _ => destruct H
         | H : False |- _ => destruct H
         end;
  subst;
  match goal with
  | H : In _ inheritedNames |- _ =>
      vm_compute in H;
      repeat match goal with
             | H : _ \/ _ |- _ => destruct H
             | H : False |- _ => destruct H
             | H : _ = _ |- _ => discriminate H
             end
  end.

Ltac plain_keys_in H :=
  repeat match type of H with
         | _ \/ _ => destruct H as [H | H]; [discriminate H |]
         | False => destruct H
         end.

Lemma staff_plainKeys : plainKeys staff.
Proof.
  intros row column Hrow Hcolumn Hin. unfold staff in Hrow.
  cbn [In] in Hrow.
  destruct Hrow as [<- | [<- | [<- | []]]]; cbn [keys map fst In] in Hcolumn;
    plain_keys.
Qed.


Lemma ragged_plainKeys : plainKeys ragged.
Proof.
  intros row column Hrow Hcolumn Hin. unfold ragged in Hrow.
  cbn [In] in Hrow.
  destruct Hrow as [<- | [<- | []]]; cbn [keys map fst In] in Hcolumn;
    repeat match goal with
           | H : _ \/ _ |- _ => destruct H
           | H : False |- _ => destruct H
           end; subst column; vm_compute in Hin;
    repeat match goal with
           | H : _ \/ _ |- _ => destruct H
           | H : False |- _ => destruct H
           | H : _ = _ |- _ => discriminate H
           end.
Qed.

Lemma cleanData_fails_on_ragged_records_witness :
  plainKeys ragged
  /\ cleanData asIs asIs ragged (analyzeDataStructure noDate noUrl yes yes ragged)
     = Throw "Cannot destructure property 'dataType' of 'columnAnalysis' as it is undefined.".
Proof.
  split; [exact ragged_plainKeys |].
  apply (proj1 (@cleanData_fails_on_ragged_records
                  noDate noUrl yes yes asIs asIs ragged ragged_plainKeys)).
  exists [("a", Num "2"); ("b", Str "x")], "b", (Str "x").
  split; [right; left; reflexivity |].
  split; [right; left; reflexivity |].
  split; [reflexivity |].
  cbn. intros [H | []]. discriminate H.
Defined.

Lemma structuring_succeeds_on_uniform_records_witness :
  exists result,
    DataStructuring.execute noDate noUrl yes yes asIs asIs noLlm
      (mkLoadResult (Some staff) (mkMetadata "json" 3 ["id"; "mgr"]))
    = Ok result
    /\ res_structuredRowCount result = 3
    /\ map sr_rowIndex (res_structuredData result) = [0; 1; 2].
Proof.
  assert (Huniform : forall row column,
            In row staff -> In column (keys row) ->
            In column (keys (hd [] staff))).
  { intros row column Hrow Hcolumn. unfold staff in Hrow. cbn [In] in Hrow.
    destruct Hrow as [<- | [<- | [<- | []]]]; exact Hcolumn. }
  destruct (@structuring_succeeds_on_uniform_records
              noDate noUrl yes yes asIs asIs noLlm
              (mkLoadResult (Some staff) (mkMetadata "json" 3 ["id"; "mgr"]))
              staff eq_refl ltac:(discriminate) staff_plainKeys Huniform)
    as [result [Hrun [_ [_ [_ [Hcount [_ [Hindex _]]]]]]]].
  exists result. split; [exact Hrun |]. split; [exact Hcount | exact Hindex].
Defined.

Lemma structureData_keeps_the_fields_witness :
  exists structured,
    nth_error (structureData staff) 1 = Some structured
    /\ sr_rowIndex structured = 1
    /\ get (sr_fields structured) "id" = Num "2"
    /\ get (sr_fields structured) "mgr" = Num "1".
Proof.
  assert (Hnd : NoDup (keys [("id", Num "2"); ("mgr", Num "1")])).
  { cbn. constructor; [intros [H | []]; discriminate H |].
    constructor; [intros [] | constructor]. }
  destruct (@structureData_keeps_the_fields staff 1
              [("id", Num "2"); ("mgr", Num "1")] eq_refl Hnd)
    as [_ [structured [Hnth [Hindex [Hkeep _]]]]].
  exists structured. split; [exact Hnth |]. split; [exact Hindex |].
  split.
  - rewrite (Hkeep "id"); [reflexivity | now left | discriminate].
  - rewrite (Hkeep "mgr"); [reflexivity | right; now left | discriminate].
Defined.

Lemma detectRelationships_candidates_are_ordered_witness :
  NoDup ["id"; "mgr"]
  /\ In staffCandidate (detectRelationships staff ["id"; "mgr"])
  /\ (rel_confidence staffCandidate <= 1)%Q
  /\ rel_source staffCandidate <> rel_target staffCandidate.
Proof.
  assert (Hnd : NoDup ["id"; "mgr"]).
  { constructor; [intros [H | []]; discriminate H |].
    constructor; [intros [] | constructor]. }
  assert (Hin : In staffCandidate (detectRelationships staff ["id"; "mgr"]))
    by (left; reflexivity).
  destruct (@detectRelationships_candidates_are_ordered
              staff ["id"; "mgr"] staffCandidate Hnd Hin)
    as [_ [Hhigh [_ [Hdistinct _]]]].
  split; [exact Hnd |]. split; [exact Hin |].
  split; [exact Hhigh | exact Hdistinct].
Defined.

Lemma loadNodes_sends_batches_witness :
  fst (loadNodes countingStore (structureData staff) oneNodeType freshAgent)
  = Ok 3
  /\ List.concat (batchesOf 3 (structureData staff)) = structureData staff.
Proof.
  destruct (@loadNodes_sends_batches unit countingStore (structureData staff)
              oneNodeType (mkNodeType "MainEntity" [] []) [] freshAgent
              eq_refl)
    as [Hconcat [_ [_ [_ [_ Hcount]]]]].
  split; [| exact Hconcat].
  apply Hcount. intros batch db. reflexivity.
Defined.


Lemma uploaded_excel_files_are_rejected_witness :
  everyFile "uploads/3f9a" = true
  /\ load fromLastDot everyFile (namedParser "parseCSV")
          (namedParser "parseExcel") (namedParser "parseJSON")
          (namedParser "querySQLite") (namedParser "queryMySQL")
          (namedParser "queryPostgreSQL")
          (dataSource (createUploadJob "uploads/3f9a"
                         (getFileType fromLastDot "Report.XLSX")))
     = Throw "Unsupported file type: excel".
Proof.
  split; [reflexivity |].
  apply (proj1 (proj2 (proj2
           (@uploaded_excel_files_are_rejected
              fromLastDot everyFile (namedParser "parseCSV")
              (namedParser "parseExcel") (namedParser "parseJSON")
              (namedParser "querySQLite") (namedParser "queryMySQL")
              (namedParser "queryPostgreSQL")
              "Report.XLSX" "uploads/3f9a" eq_refl)))).
  left. vm_compute. reflexivity.
Defined.

Lemma demo_mode_jobs_complete_witness :
  exists preview s',
    samplePipeline (localFile "staff.json") sampleState
    = (Ok (mkJobResult
             (mkLoadResult (Some staff) (mkMetadata "json" 3 ["id"; "mgr"]))
             staffStructured (Preview preview)), s')
    /\ map (fun job => (job_id job, job_status job)) (jobHistory s')
       = [("job_0", completed)]
    /\ issued (agents s') = [].
Proof.
  destruct (@demo_mode_jobs_complete
              noDate noUrl yes yes asIs asIs noLlm sampleReader unit noStore
              unit noAnalysis half sampleJobId (localFile "staff.json")
              sampleState
              (mkLoadResult (Some staff) (mkMetadata "json" 3 ["id"; "mgr"]))
              staffStructured eq_refl eq_refl eq_refl)
    as [preview [s' [job [Hrun [_ [Hhistory [Hid [Hstatus [_ [_ [_ Hissued]]]]]]]]]]].
  exists preview, s'. split; [exact Hrun |].
  rewrite Hhistory, Hissued. cbn [map app jobHistory sampleState initialState].
  rewrite Hid, Hstatus. split; reflexivity.
Defined.

Lemma analyzeDataStructure_profiles_witness :
  plainKeys staff
  /\ an_sampleSize (analyzeDataStructure noDate noUrl yes yes staff) = 3
  /\ map fst (an_columnAnalysis (analyzeDataStructure noDate noUrl yes yes staff))
     = ["id"; "mgr"].
Proof.
  destruct (@analyzeDataStructure_profiles noDate noUrl yes yes staff
              staff_plainKeys)
    as [Hsize [_ [Hcolumns [Hprofiles _]]]].
  split; [exact staff_plainKeys |]. split; [exact Hsize |].
  rewrite Hprofiles, Hcolumns. reflexivity.
Defined.

Lemma schema_flags_witness :
  plainKeys staff
  /\ exists properties,
       sch_entities
         (generateSchema (analyzeDataStructure noDate noUrl yes yes staff) [])
       = [mkEntity "MainEntity" properties]
       /\ map prop_name properties = ["id"; "mgr"].
Proof.
  destruct (@schema_flags noDate noUrl yes yes staff [] staff_plainKeys)
    as [properties [Hentities [_ [_ [Hnames _]]]]].
  split; [exact staff_plainKeys |].
  exists properties. split; [exact Hentities | exact Hnames].
Defined.

Lemma createForeignKeyRelationships_shared_values_witness :
  exists common,
    NoDup common
    /\ In (Num "5") common
    /\ ~ In (Num "2") common.
Proof.
  assert (Hsource : ~ In (rt_source (relationshipTypeOf staffCandidate))
                         inheritedNames).
  { intros H. vm_compute in H. plain_keys_in H. }
  assert (Htarget : ~ In (rt_target (relationshipTypeOf staffCandidate))
                         inheritedNames).
  { intros H. vm_compute in H. plain_keys_in H. }
  destruct (@createForeignKeyRelationships_shared_values
              unit countingStore (structureData staff)
              (relationshipTypeOf staffCandidate) freshAgent Hsource Htarget
              ltac:(discriminate) ltac:(discriminate))
    as [common [Hnd [Hshared _]]].
  exists common. split; [exact Hnd |]. split.
  - apply Hshared. split; [discriminate |]. split.
    + exists (structureRow 2 [("id", Num "5"); ("mgr", Num "5")]).
      split; [right; right; left; reflexivity | reflexivity].
    + exists (structureRow 0 [("id", Num "1"); ("mgr", Num "5")]).
      split; [left; reflexivity | reflexivity].
  - intros Hin. apply Hshared in Hin.
    destruct Hin as [_ [_ [row [Hrow Hget]]]].
    cbn [structureData structureFrom staff In] in Hrow.
    destruct Hrow as [<- | [<- | [<- | []]]]; discriminate Hget.
Defined.
